(** * go-monitor: the delivery pipeline and the poll / reload / shutdown
    controller, embedded as state-passing functions.

    Sources embedded here: metric.go (Metric, its builders, Validate, the
    escaping of keys), backend.go (the Backend interface, Echo,
    MultiBackend), pipeline.go, config.go, validation.go,
    logging.go, stats.go, options.go and monitor.go, together with the
    two test doubles of the package's tests (mockBackend, retryBackend).

    Conventions.
    - Go's [int], [int64] and [time.Duration] are [Z]; where the source does
      arithmetic on them ([statsTracker]) the 64-bit wrap-around is written
      out with [wrap64].
    - Go's [error] is [option Error]; [None] is [nil].
    - A mutable struct behind a pointer is passed and returned explicitly.
    - Calls that leave the process (logging, backend calls, the collector,
      waits, goroutine launches) are recorded, in order, in a trace carried
      by a small state monad. *)

From Stdlib Require Import ZArith Sorted Ascii.
From stdpp Require Import base option list gmap strings.

Local Open Scope Z_scope.

(** ** Errors *)

Record ValidationError := mkValidationError {
  Field : string;
  Message : string
}.

Abbreviation ValidationErrors := (list ValidationError).

(** The error values the package produces: [fmt.Errorf] without and with a
    wrapped cause, a [ValidationErrors] slice returned as an [error], and the
    two errors a [context.Context] reports once it is done. *)
Inductive Error :=
| Errorf (msg : string)
| Wrapf (msg : string) (cause : Error)
| ErrValidation (errs : ValidationErrors)
| Canceled
| DeadlineExceeded.

Abbreviation error := (option Error).

(** ** Metrics (metric.go) *)

(** The dynamic type of a field value ([interface{}] in the source), as the
    type switch of [formatFieldValue] distinguishes them.  A [float64] is
    carried as its 64-bit IEEE-754 pattern. *)
Inductive FieldValue :=
| VFloat (bits : Z)
| VInt (i : Z)
| VUint (u : Z)
| VBool (b : bool)
| VString (s : string)
| VOther (printed : string).

Record Metric := mkMetric {
  Measurement : string;
  Tags : gmap string string;
  Fields : gmap string FieldValue;
  Timestamp : Z
}.

Definition NewMetric (measurement : string) (now : Z) : Metric :=
  {| Measurement := measurement; Tags := ∅; Fields := ∅; Timestamp := now |}.

Definition WithTag (m : Metric) (key value : string) : Metric :=
  {| Measurement := Measurement m; Tags := <[key := value]> (Tags m);
     Fields := Fields m; Timestamp := Timestamp m |}.

Definition WithField (m : Metric) (key : string) (value : FieldValue) : Metric :=
  {| Measurement := Measurement m; Tags := Tags m;
     Fields := <[key := value]> (Fields m); Timestamp := Timestamp m |}.

Module MetricM.
(** [Metric.Validate] *)
Definition Validate (m : Metric) : error :=
  if decide (Measurement m = "") then
    Some (Errorf "measurement name is required")
  else if decide (size (Fields m) = 0%nat) then
    Some (Errorf "at least one field is required")
  else None.
End MetricM.

(** *** The other builders and the escaping of keys *)

(** The loop of [Metric.WithTags] over the entries of the argument in the
    order [order] in which the [range] visits them. *)
Definition tagEach (order : list (string * string)) (m : Metric) : Metric :=
  fold_left (λ m kv, WithTag m kv.1 kv.2) order m.

(** [Metric.WithTags]; Go leaves the order of a [range] over a map open,
    this is one of them. *)
Definition WithTags (m : Metric) (tags : gmap string string) : Metric :=
  tagEach (map_to_list tags) m.

(** The loop of [Metric.WithFields]. *)
Definition fieldEach (order : list (string * FieldValue)) (m : Metric) : Metric :=
  fold_left (λ m kv, WithField m kv.1 kv.2) order m.

(** [Metric.WithFields] *)
Definition WithFields (m : Metric) (fields : gmap string FieldValue) : Metric :=
  fieldEach (map_to_list fields) m.

(** [Metric.WithTimestamp] *)
Definition WithTimestamp (m : Metric) (t : Z) : Metric :=
  {| Measurement := Measurement m; Tags := Tags m; Fields := Fields m;
     Timestamp := t |}.

(** [strings.ReplaceAll(s, old, new)] for a one-byte [old]. *)
Fixpoint replaceByte (old : Ascii.ascii) (new : string) (s : string) : string :=
  match s with
  | EmptyString => EmptyString
  | String c rest =>
      if Ascii.eqb c old then (new ++ replaceByte old new rest)%string
      else String c (replaceByte old new rest)
  end.

(** [escapeKey] *)
Definition escapeKey (s : string) : string :=
  let s := replaceByte ","%char "\," s in
  let s := replaceByte "="%char "\=" s in
  let s := replaceByte " "%char "\ " s in
  s.

(** [escapeTagValue] *)
Definition escapeTagValue (s : string) : string :=
  let s := replaceByte ","%char "\," s in
  let s := replaceByte "="%char "\=" s in
  let s := replaceByte " "%char "\ " s in
  s.

(** ** Configuration (config.go) *)

Module GlobalConfig.
Record t := mk {
  PollInterval : Z;
  LogLevel : string;
  BatchSize : Z;
  RetryAttempts : Z;
  RetryDelay : Z
}.
End GlobalConfig.

Module InfluxDBConfig.
Record t := mk {
  Enabled : bool;
  URL : string;
  Token : string;
  Org : string;
  Bucket : string
}.
End InfluxDBConfig.

Module PrometheusConfig.
Record t := mk {
  Enabled : bool;
  Port : Z;
  Path : string
}.
End PrometheusConfig.

Record Config := mkConfig {
  Global : GlobalConfig.t;
  InfluxDB : InfluxDBConfig.t;
  Prometheus : PrometheusConfig.t
}.

Definition Millisecond : Z := 1000000.
Definition Second : Z := 1000 * Millisecond.

Definition DefaultConfig : Config :=
  {| Global := GlobalConfig.mk (10 * Second) "info" 10 3 (1 * Second);
     InfluxDB := InfluxDBConfig.mk false "" "" "" "";
     Prometheus := PrometheusConfig.mk false 9090 "/metrics" |}.

(** ** Pipeline configuration and state (pipeline.go) *)

(** A [*slog.Logger]: the process default, the one [NewLogger] builds, or
    one built by the caller. *)
Inductive Logger :=
| DefaultLogger                (* [slog.Default()] *)
| StderrTextLogger             (* built by [NewLogger] *)
| CustomLogger (id : nat).

Module PipelineConfig.
Record t := mk {
  BatchSize : Z;
  FlushInterval : Z;
  RetryAttempts : Z;
  RetryDelay : Z;
  Logger : option Logger
}.
End PipelineConfig.

Definition DefaultPipelineConfig : PipelineConfig.t :=
  PipelineConfig.mk 10 (10 * Second) 3 (1 * Second) (Some DefaultLogger).

(** ** Poll statistics (stats.go) *)

Record PollStats := mkPollStats {
  TotalPolls : Z;
  SuccessfulPolls : Z;
  FailedPolls : Z;
  TotalMetrics : Z;
  LastDuration : Z
}.

Definition MinInt64 : Z := - 2 ^ 63.
Definition MaxInt64 : Z := 2 ^ 63 - 1.

(** Two's-complement reduction of an integer to [int64]. *)
Definition wrap64 (z : Z) : Z := (z + 2 ^ 63) mod 2 ^ 64 - 2 ^ 63.

(** The zero value of [statsTracker]. *)
Definition zeroStats : PollStats := mkPollStats 0 0 0 0 0.

(** [statsTracker.recordPoll]; the lock is not modelled, the tracker is
    the [PollStats] it guards. *)
Definition recordPoll (s : PollStats) (success : bool) (metricCount : Z)
    (duration : Z) : PollStats :=
  let total := wrap64 (TotalPolls s + 1) in
  if success then
    {| TotalPolls := total;
       SuccessfulPolls := wrap64 (SuccessfulPolls s + 1);
       FailedPolls := FailedPolls s;
       TotalMetrics := wrap64 (TotalMetrics s + metricCount);
       LastDuration := duration |}
  else
    {| TotalPolls := total;
       SuccessfulPolls := SuccessfulPolls s;
       FailedPolls := wrap64 (FailedPolls s + 1);
       TotalMetrics := TotalMetrics s;
       LastDuration := duration |}.

(** [statsTracker.snapshot] returns the struct by value. *)
Definition snapshot (s : PollStats) : PollStats := s.

(** ** Contexts, the trace and the effect monad *)

Inductive Level := LevelDebug | LevelInfo | LevelWarn | LevelError.

Inductive Goroutine :=
| GoFlushLoop      (* [go p.flushLoop(ctx)] in [Pipeline.Start] *)
| GoBatchFlush     (* the anonymous flush goroutine of [Pipeline.Push] *)
| GoSignals.       (* the signal listener of [SignalHandler.Start] *)

(** What the code does to the outside world, in the order it does it.
    Backends are named by their position in [Pipeline.backends]. *)
Inductive Event :=
| EvLog (lvl : Level) (msg : string)
| EvInitialize (backend : nat)
| EvWrite (backend : nat) (batch : list Metric)
| EvClose (backend : nat)
| EvWait (delay : Z) (cancelled : bool)
| EvGo (g : Goroutine)
| EvCollect.

(** A [context.Context] as the pipeline observes it.  The only place the
    pipeline looks at [ctx.Done()] is the [select] between two write
    attempts; [ctxDone ctx n] tells whether the context is done before the
    retry delay of the [n]-th such wait (counted over the whole run) has
    elapsed, and [ctxErr] is what [ctx.Err()] returns then. *)
Record Context := mkContext {
  ctxDone : nat → bool;
  ctxErr : Error
}.

(** [context.Background()]: never done. *)
Definition Background : Context := mkContext (λ _, false) Canceled.

Record World := mkWorld {
  waits : nat;
  trace : list Event
}.

Definition M (A : Type) : Type := World → A * World.

Definition ret {A} (a : A) : M A := λ w, (a, w).

Definition bind {A B} (c : M A) (k : A → M B) : M B :=
  λ w, let (a, w') := c w in k a w'.

Notation "'do' x <- c ; k" := (bind c (λ x, k))
  (at level 10, x pattern, c at level 100, k at level 200,
   format "'[v' 'do'  x  <-  c ; '/' k ']'").
Notation "c ;; k" := (bind c (λ _, k))
  (at level 100, k at level 200, right associativity).

Definition emit (e : Event) : M unit :=
  λ w, (tt, mkWorld (waits w) (trace w ++ [e])).

Definition log (lvl : Level) (msg : string) : M unit := emit (EvLog lvl msg).

(** The [select] of [writeWithRetry]: [true] when [ctx.Done()] wins over
    [time.After(delay)]. *)
Definition waitOrDone (ctx : Context) (delay : Z) : M bool :=
  λ w, let c := ctxDone ctx (waits w) in
       (c, mkWorld (S (waits w)) (trace w ++ [EvWait delay c])).

Definition initialWorld : World := mkWorld 0 [].

(** ** Backends (backend.go) *)

(** The [Backend] interface: a method set over the implementation's own
    state.  [Name] and [Healthy] only read it. *)
Class BackendOps (S : Type) := {
  opName : S → string;
  opInitialize : S → Context → S * error;
  opWrite : S → Context → list Metric → S * error;
  opClose : S → S * error;
  opHealthy : S → bool
}.

(** An interface value: an implementation together with its state.  Each
    backend owns its state: a call on one backend leaves the others as they
    are. *)
Record Backend := mkBackend {
  bstate : Type;
  bops : BackendOps bstate;
  bst : bstate
}.

Definition Name (b : Backend) : string := @opName _ (bops b) (bst b).

Definition Healthy (b : Backend) : bool := @opHealthy _ (bops b) (bst b).

Definition Initialize (b : Backend) (ctx : Context) : Backend * error :=
  let (s, e) := @opInitialize _ (bops b) (bst b) ctx in
  (mkBackend (bstate b) (bops b) s, e).

Definition Write (b : Backend) (ctx : Context) (batch : list Metric)
    : Backend * error :=
  let (s, e) := @opWrite _ (bops b) (bst b) ctx batch in
  (mkBackend (bstate b) (bops b) s, e).

Definition Close (b : Backend) : Backend * error :=
  let (s, e) := @opClose _ (bops b) (bst b) in
  (mkBackend (bstate b) (bops b) s, e).

(** *** MultiBackend *)

(** [MultiBackend]: the wrapped backends, each with its own state. *)
Module MultiBackend.
Record t := mk {
  backends : list Backend
}.

(** The loop of [MultiBackend.Initialize]: the first failure is returned. *)
Fixpoint initEach (ctx : Context) (bs : list Backend) : list Backend * error :=
  match bs with
  | [] => ([], None)
  | b :: rest =>
      let (b', err) := Initialize b ctx in
      match err with
      | Some e => (b' :: rest, Some e)
      | None => let (rest', e) := initEach ctx rest in (b' :: rest', e)
      end
  end.

(** The loop of [MultiBackend.Write]: every backend is written to, the last
    error is kept. *)
Fixpoint writeEach (ctx : Context) (batch : list Metric) (bs : list Backend)
    (lastErr : error) : list Backend * error :=
  match bs with
  | [] => ([], lastErr)
  | b :: rest =>
      let (b', err) := Write b ctx batch in
      let (rest', e) :=
        writeEach ctx batch rest (match err with Some _ => err | None => lastErr end) in
      (b' :: rest', e)
  end.

(** The loop of [MultiBackend.Close]. *)
Fixpoint closeEach (bs : list Backend) (lastErr : error) : list Backend * error :=
  match bs with
  | [] => ([], lastErr)
  | b :: rest =>
      let (b', err) := Close b in
      let (rest', e) :=
        closeEach rest (match err with Some _ => err | None => lastErr end) in
      (b' :: rest', e)
  end.

(** The loop of [MultiBackend.Healthy]. *)
Fixpoint allHealthy (bs : list Backend) : bool :=
  match bs with
  | [] => true
  | b :: rest => if negb (Healthy b) then false else allHealthy rest
  end.

Definition Name (m : t) : string := "multi".

Definition Initialize (m : t) (ctx : Context) : t * error :=
  let (bs, e) := initEach ctx (backends m) in (mk bs, e).

Definition Write (m : t) (ctx : Context) (batch : list Metric) : t * error :=
  let (bs, e) := writeEach ctx batch (backends m) None in (mk bs, e).

Definition Close (m : t) : t * error :=
  let (bs, e) := closeEach (backends m) None in (mk bs, e).

Definition Healthy (m : t) : bool := allHealthy (backends m).
End MultiBackend.

Definition NewMultiBackend (backends : list Backend) : MultiBackend.t :=
  MultiBackend.mk backends.

(** [MultiBackend] implements [Backend]. *)
#[export] Instance MultiBackend_ops : BackendOps MultiBackend.t := {|
  opName := MultiBackend.Name;
  opInitialize := MultiBackend.Initialize;
  opWrite := MultiBackend.Write;
  opClose := MultiBackend.Close;
  opHealthy := MultiBackend.Healthy
|}.

(** *** The test doubles of the package's tests *)

Record mockBackend := mkMock {
  mockName : string;
  initErr : error;
  writeErr : error;
  closeErr : error;
  mockHealthy : bool;
  initialized : bool;
  written : list (list Metric);
  closed : bool
}.

#[export] Instance mockBackend_ops : BackendOps mockBackend := {|
  opName m := mockName m;
  opInitialize m _ :=
    (mkMock (mockName m) (initErr m) (writeErr m) (closeErr m) (mockHealthy m)
            true (written m) (closed m), initErr m);
  opWrite m _ batch :=
    (mkMock (mockName m) (initErr m) (writeErr m) (closeErr m) (mockHealthy m)
            (initialized m) (written m ++ [batch]) (closed m), writeErr m);
  opClose m :=
    (mkMock (mockName m) (initErr m) (writeErr m) (closeErr m) (mockHealthy m)
            (initialized m) (written m) true, closeErr m);
  opHealthy m := mockHealthy m
|}.

(** [&mockBackend{name: n, healthy: h}] with an optional write error. *)
Definition newMock (n : string) (h : bool) (werr : error) : Backend :=
  mkBackend mockBackend _ (mkMock n None werr None h false [] false).

(** [retryBackend] with the write function of [TestPipelineRetry]: a call
    counter captured by the closure, failing while the count is below
    [succeedAt]. *)
Record retryBackend := mkRetry {
  retryName : string;
  retryHealthy : bool;
  succeedAt : nat;
  callCount : nat
}.

#[export] Instance retryBackend_ops : BackendOps retryBackend := {|
  opName r := retryName r;
  opInitialize r _ := (r, None);
  opWrite r _ _ :=
    let count := S (callCount r) in
    (mkRetry (retryName r) (retryHealthy r) (succeedAt r) count,
     if decide (count < succeedAt r)%nat then Some (Errorf "transient error")
     else None);
  opClose r := (r, None);
  opHealthy r := retryHealthy r
|}.

Definition newRetry (n : string) (h : bool) (k : nat) : Backend :=
  mkBackend retryBackend _ (mkRetry n h k 0).

(** ** The pipeline (pipeline.go) *)

(** [Pipeline]; [mu] and [wg] only serialise access and are not state of
    their own, [done] is the channel that [Stop] closes. *)
Record Pipeline := mkPipeline {
  backends : list Backend;
  batchSize : Z;
  flushInterval : Z;
  retryAttempts : Z;
  retryDelay : Z;
  buffer : list Metric;
  done : bool;
  logger : Logger
}.

Definition setBackends (p : Pipeline) (bs : list Backend) : Pipeline :=
  mkPipeline bs (batchSize p) (flushInterval p) (retryAttempts p)
             (retryDelay p) (buffer p) (done p) (logger p).

Definition setBuffer (p : Pipeline) (buf : list Metric) : Pipeline :=
  mkPipeline (backends p) (batchSize p) (flushInterval p) (retryAttempts p)
             (retryDelay p) buf (done p) (logger p).

Definition setDone (p : Pipeline) (d : bool) : Pipeline :=
  mkPipeline (backends p) (batchSize p) (flushInterval p) (retryAttempts p)
             (retryDelay p) (buffer p) d (logger p).

(** [NewPipeline]: the five guards rewrite the configuration in place, then
    the struct is built from it. *)
Definition NewPipeline (cfg : PipelineConfig.t) : Pipeline :=
  let BatchSize :=
    if PipelineConfig.BatchSize cfg <=? 0 then 10
    else PipelineConfig.BatchSize cfg in
  let FlushInterval :=
    if PipelineConfig.FlushInterval cfg <=? 0 then 10 * Second
    else PipelineConfig.FlushInterval cfg in
  let RetryAttempts :=
    if PipelineConfig.RetryAttempts cfg <=? 0 then 3
    else PipelineConfig.RetryAttempts cfg in
  let RetryDelay :=
    if PipelineConfig.RetryDelay cfg <=? 0 then 1 * Second
    else PipelineConfig.RetryDelay cfg in
  let Logger :=
    match PipelineConfig.Logger cfg with
    | None => DefaultLogger
    | Some l => l
    end in
  {| backends := [];
     batchSize := BatchSize;
     flushInterval := FlushInterval;
     retryAttempts := RetryAttempts;
     retryDelay := RetryDelay;
     buffer := [];
     done := false;
     logger := Logger |}.

Definition AddBackend (p : Pipeline) (b : Backend) : Pipeline :=
  setBackends p (backends p ++ [b]).

Definition BufferLen (p : Pipeline) : Z := Z.of_nat (length (buffer p)).

Definition BackendCount (p : Pipeline) : Z := Z.of_nat (length (backends p)).

(** The loop of [Pipeline.writeWithRetry], entered with [attempt] and
    [lastErr] and with [n] iterations left before [attempt] exceeds
    [p.retryAttempts]; [i] is the position of [b] among the backends. *)
Fixpoint retryLoop (p : Pipeline) (ctx : Context) (i : nat)
    (metrics : list Metric) (n : nat) (attempt : Z) (b : Backend)
    (lastErr : error) : M (Backend * error) :=
  match n with
  | O => ret (b, lastErr)
  | S n' =>
      emit (EvWrite i metrics) ;;
      let (b', err) := Write b ctx metrics in
      match err with
      | None => ret (b', None)
      | Some e =>
          if attempt <? retryAttempts p then
            log LevelWarn "write failed, retrying" ;;
            do cancelled <- waitOrDone ctx (retryDelay p) ;
            if cancelled : bool then ret (b', Some (ctxErr ctx))
            else retryLoop p ctx i metrics n' (attempt + 1) b' (Some e)
          else retryLoop p ctx i metrics n' (attempt + 1) b' (Some e)
      end
  end.

(** [Pipeline.writeWithRetry]: [attempt] runs from 1 to [p.retryAttempts]. *)
Definition writeWithRetry (p : Pipeline) (ctx : Context) (i : nat)
    (b : Backend) (metrics : list Metric) : M (Backend * error) :=
  retryLoop p ctx i metrics (Z.to_nat (retryAttempts p)) 1 b None.

(** The [range p.backends] loop of [Pipeline.Flush], from position [i] on. *)
Fixpoint flushBackends (p : Pipeline) (ctx : Context) (batch : list Metric)
    (i : nat) (bs : list Backend) (lastErr : error)
    : M (list Backend * error) :=
  match bs with
  | [] => ret ([], lastErr)
  | b :: rest =>
      if negb (Healthy b) then
        log LevelWarn "skipping unhealthy backend" ;;
        do (rest', e) <- flushBackends p ctx batch (S i) rest lastErr ;
        ret (b :: rest', e)
      else
        do (b', err) <- writeWithRetry p ctx i b batch ;
        match err with
        | Some _ =>
            log LevelError "backend write failed" ;;
            do (rest', e) <- flushBackends p ctx batch (S i) rest err ;
            ret (b' :: rest', e)
        | None =>
            do (rest', e) <- flushBackends p ctx batch (S i) rest lastErr ;
            ret (b' :: rest', e)
        end
  end.

(** [Pipeline.Flush] *)
Definition Flush (p : Pipeline) (ctx : Context) : M (Pipeline * error) :=
  if decide (length (buffer p) = 0%nat) then ret (p, None)
  else
    let batch := buffer p in
    let p := setBuffer p [] in
    log LevelDebug "flushing metrics" ;;
    do (bs, lastErr) <- flushBackends p ctx batch 0 (backends p) None ;
    ret (setBackends p bs, lastErr).

(** [Pipeline.Push].  The flush a full buffer triggers runs in a goroutine
    of its own; the push records that it was launched and returns. *)
Definition Push (p : Pipeline) (m : Metric) : M Pipeline :=
  match MetricM.Validate m with
  | Some _ => log LevelWarn "invalid metric dropped" ;; ret p
  | None =>
      let p := setBuffer p (buffer p ++ [m]) in
      let shouldFlush := Z.of_nat (length (buffer p)) >=? batchSize p in
      if shouldFlush then emit (EvGo GoBatchFlush) ;; ret p
      else ret p
  end.

(** The body of the goroutine [Push] launches; [ctx] is its
    [context.WithTimeout(context.Background(), 30*time.Second)]. *)
Definition batchFlush (p : Pipeline) (ctx : Context) : M Pipeline :=
  do (p, err) <- Flush p ctx ;
  match err with
  | Some _ => log LevelError "batch flush failed" ;; ret p
  | None => ret p
  end.

(** The initialisation loop of [Pipeline.Start]: the first failure is
    returned at once. *)
Fixpoint initBackends (ctx : Context) (i : nat) (bs : list Backend)
    : M (list Backend * error) :=
  match bs with
  | [] => ret ([], None)
  | b :: rest =>
      emit (EvInitialize i) ;;
      let (b', err) := Initialize b ctx in
      match err with
      | Some e => ret (b' :: rest, Some e)
      | None =>
          log LevelInfo "backend initialized" ;;
          do (rest', e) <- initBackends ctx (S i) rest ;
          ret (b' :: rest', e)
      end
  end.

(** [Pipeline.Start] *)
Definition Start (p : Pipeline) (ctx : Context) : M (Pipeline * error) :=
  do (bs, err) <- initBackends ctx 0 (backends p) ;
  match err with
  | Some e => ret (setBackends p bs, Some e)
  | None => emit (EvGo GoFlushLoop) ;; ret (setBackends p bs, None)
  end.

(** The closing loop of [Pipeline.Stop]: every backend is closed, the last
    error is kept. *)
Fixpoint closeBackends (i : nat) (bs : list Backend) (lastErr : error)
    : M (list Backend * error) :=
  match bs with
  | [] => ret ([], lastErr)
  | b :: rest =>
      emit (EvClose i) ;;
      let (b', err) := Close b in
      match err with
      | Some _ =>
          log LevelError "backend close failed" ;;
          do (rest', e) <- closeBackends (S i) rest err ;
          ret (b' :: rest', e)
      | None =>
          do (rest', e) <- closeBackends (S i) rest lastErr ;
          ret (b' :: rest', e)
      end
  end.

(** [Pipeline.Stop]: close [done], wait for the flush loop, flush what is
    left, close the backends. *)
Definition Stop (p : Pipeline) (ctx : Context) : M (Pipeline * error) :=
  let p := setDone p true in
  do (p, err) <- Flush p ctx ;
  match err with
  | Some _ => log LevelError "final flush failed"
  | None => ret tt
  end ;;
  do (bs, lastErr) <- closeBackends 0 (backends p) None ;
  ret (setBackends p bs, lastErr).

(** One firing of the ticker in [Pipeline.flushLoop]. *)
Definition flushTick (p : Pipeline) (ctx : Context) : M Pipeline :=
  do (p, err) <- Flush p ctx ;
  match err with
  | Some _ => log LevelError "periodic flush failed" ;; ret p
  | None => ret p
  end.

(** ** The monitor (options.go, monitor.go): data *)

(** What one call of the user's [CollectFunc] produces: the returned
    slice and error, and the time the call took (what [time.Since(start)]
    reads after it). *)
Record CollectOutcome := mkOutcome {
  coMetrics : list Metric;
  coErr : error;
  coElapsed : Z
}.

(** A [CollectFunc]: a closure, so a function over the state it captured. *)
Record Collector := mkCollector {
  cstate : Type;
  crun : cstate → Context → cstate * CollectOutcome;
  cst : cstate
}.

Definition callCollector (c : Collector) (ctx : Context)
    : Collector * CollectOutcome :=
  let (s, out) := crun c (cst c) ctx in (mkCollector (cstate c) (crun c) s, out).

(** [SignalHandler]; its two channels are what delivers [LoopEvent]s. *)
Record SignalHandler := mkSignalHandler {
  shLogger : Logger
}.

Definition NewSignalHandler (l : option Logger) : SignalHandler :=
  mkSignalHandler (match l with None => DefaultLogger | Some l => l end).

(** A reload function: from the path to a [*Config] and an [error]. *)
Abbreviation ReloadFunc := (string → option Config * error).

Module Monitor.
Record t := mk {
  name : string;
  collector : Collector;
  pipeline : option Pipeline;
  signals : option SignalHandler;
  logger : option Logger;
  levelVar : option Level;
  cfg : option Config;
  cfgPath : string;
  echoMode : bool;
  runOnce : bool;
  reloadFn : option ReloadFunc;
  backends : list Backend;
  stats : PollStats
}.

Definition setPipeline (m : t) (p : option Pipeline) : t :=
  mk (name m) (collector m) p (signals m) (logger m) (levelVar m) (cfg m)
     (cfgPath m) (echoMode m) (runOnce m) (reloadFn m) (backends m) (stats m).

Definition setSignals (m : t) (h : option SignalHandler) : t :=
  mk (name m) (collector m) (pipeline m) h (logger m) (levelVar m) (cfg m)
     (cfgPath m) (echoMode m) (runOnce m) (reloadFn m) (backends m) (stats m).

Definition setLogger (m : t) (l : option Logger) : t :=
  mk (name m) (collector m) (pipeline m) (signals m) l (levelVar m) (cfg m)
     (cfgPath m) (echoMode m) (runOnce m) (reloadFn m) (backends m) (stats m).

Definition setLevelVar (m : t) (v : option Level) : t :=
  mk (name m) (collector m) (pipeline m) (signals m) (logger m) v (cfg m)
     (cfgPath m) (echoMode m) (runOnce m) (reloadFn m) (backends m) (stats m).

Definition setCfg (m : t) (c : option Config) : t :=
  mk (name m) (collector m) (pipeline m) (signals m) (logger m) (levelVar m) c
     (cfgPath m) (echoMode m) (runOnce m) (reloadFn m) (backends m) (stats m).

Definition setCfgPath (m : t) (path : string) : t :=
  mk (name m) (collector m) (pipeline m) (signals m) (logger m) (levelVar m)
     (cfg m) path (echoMode m) (runOnce m) (reloadFn m) (backends m) (stats m).

Definition setEchoMode (m : t) (b : bool) : t :=
  mk (name m) (collector m) (pipeline m) (signals m) (logger m) (levelVar m)
     (cfg m) (cfgPath m) b (runOnce m) (reloadFn m) (backends m) (stats m).

Definition setRunOnce (m : t) (b : bool) : t :=
  mk (name m) (collector m) (pipeline m) (signals m) (logger m) (levelVar m)
     (cfg m) (cfgPath m) (echoMode m) b (reloadFn m) (backends m) (stats m).

Definition setReloadFn (m : t) (fn : option ReloadFunc) : t :=
  mk (name m) (collector m) (pipeline m) (signals m) (logger m) (levelVar m)
     (cfg m) (cfgPath m) (echoMode m) (runOnce m) fn (backends m) (stats m).

Definition setBackends (m : t) (bs : list Backend) : t :=
  mk (name m) (collector m) (pipeline m) (signals m) (logger m) (levelVar m)
     (cfg m) (cfgPath m) (echoMode m) (runOnce m) (reloadFn m) bs (stats m).

Definition setCollector (m : t) (c : Collector) : t :=
  mk (name m) c (pipeline m) (signals m) (logger m) (levelVar m)
     (cfg m) (cfgPath m) (echoMode m) (runOnce m) (reloadFn m) (backends m)
     (stats m).

Definition setStats (m : t) (s : PollStats) : t :=
  mk (name m) (collector m) (pipeline m) (signals m) (logger m) (levelVar m)
     (cfg m) (cfgPath m) (echoMode m) (runOnce m) (reloadFn m) (backends m) s.
End Monitor.

(** The [Option] type, a function on [*Monitor], and its constructors
    (options.go). *)
Definition Option : Type := Monitor.t → Monitor.t.

Definition WithConfigFile (path : string) : Option :=
  λ m, Monitor.setCfgPath m path.

Definition WithConfig (cfg : option Config) : Option :=
  λ m, Monitor.setCfg m cfg.

Definition WithEcho (enabled : bool) : Option :=
  λ m, Monitor.setEchoMode m enabled.

Definition WithRunOnce (enabled : bool) : Option :=
  λ m, Monitor.setRunOnce m enabled.

Definition WithLogger (l : option Logger) : Option :=
  λ m, Monitor.setLogger m l.

Definition WithBackend (b : Backend) : Option :=
  λ m, Monitor.setBackends m (Monitor.backends m ++ [b]).

Definition WithReloadFunc (fn : option ReloadFunc) : Option :=
  λ m, Monitor.setReloadFn m fn.

(** What the [select] of the polling loop receives, in the order it
    receives it. *)
Inductive LoopEvent :=
| CtxDone           (* [<-ctx.Done()] *)
| ReloadSignal      (* [<-m.signals.Reload()] *)
| TickerFired.      (* [<-ticker.C] *)

(** The surroundings of one [Run]: the context [signals.Start] derives,
    the two 30-second contexts [Run] builds for the final collection and
    for [Stop], and what the polling loop's [select] receives. *)
Record RunEnv := mkRunEnv {
  sigCtx : Context;
  finalCtx : Context;
  stopCtx : Context;
  loopEvents : list LoopEvent
}.

(** A call either completes or dies of a run-time panic (a nil
    dereference, a non-positive ticker interval). *)
Inductive Res (A : Type) :=
| Ok (a : A)
| Panic.
Arguments Ok {A} a.
Arguments Panic {A}.

(** How [Run] ends: it returns, it panics, or it is still blocked in the
    loop's [select] when the events run out. *)
Inductive RunResult :=
| Returned (err : error)
| Panicked
| Blocked.

Section Runtime.

(** What the package takes from outside: [strings.ToLower], the line
    format of a metric ([Metric.ToLineProtocol] ranges over Go maps, whose
    order is unspecified), [os.ReadFile] and [toml.Unmarshal] (which fills
    the configuration it is handed). *)
Variable ToLower : string → string.
Variable ToLineProtocol : Metric → string.
Variable ReadFile : string → string * error.
Variable Unmarshal : string → Config → Config * error.

(** *** Validation (validation.go) *)

Definition validLevels : gmap string bool :=
  <["debug" := true]> (<["info" := true]> (<["warn" := true]>
    (<["error" := true]> ∅))).

Definition validateGlobal (c : Config) : ValidationErrors :=
  let errs := [] in
  let errs :=
    if GlobalConfig.PollInterval (Global c) <=? 0 then
      errs ++ [mkValidationError "global.poll_interval" "must be positive"]
    else errs in
  let errs :=
    if GlobalConfig.BatchSize (Global c) <=? 0 then
      errs ++ [mkValidationError "global.batch_size" "must be positive"]
    else errs in
  if negb (default false
             (validLevels !! ToLower (GlobalConfig.LogLevel (Global c)))) then
    errs ++ [mkValidationError "global.log_level"
               "must be one of: debug, info, warn, error"]
  else errs.

Definition validateInfluxDB (c : Config) : ValidationErrors :=
  let errs := [] in
  if negb (InfluxDBConfig.Enabled (InfluxDB c)) then errs
  else
    let errs :=
      if decide (InfluxDBConfig.URL (InfluxDB c) = "") then
        errs ++ [mkValidationError "influxdb.url"
                   "required when InfluxDB is enabled"]
      else errs in
    let errs :=
      if decide (InfluxDBConfig.Token (InfluxDB c) = "") then
        errs ++ [mkValidationError "influxdb.token"
                   "required when InfluxDB is enabled"]
      else errs in
    let errs :=
      if decide (InfluxDBConfig.Org (InfluxDB c) = "") then
        errs ++ [mkValidationError "influxdb.org"
                   "required when InfluxDB is enabled"]
      else errs in
    if decide (InfluxDBConfig.Bucket (InfluxDB c) = "") then
      errs ++ [mkValidationError "influxdb.bucket"
                 "required when InfluxDB is enabled"]
    else errs.

Definition validatePrometheus (c : Config) : ValidationErrors :=
  let errs := [] in
  if negb (PrometheusConfig.Enabled (Prometheus c)) then errs
  else
    let port := PrometheusConfig.Port (Prometheus c) in
    let path := PrometheusConfig.Path (Prometheus c) in
    let errs :=
      if (port <=? 0) || (port >? 65535) then
        errs ++ [mkValidationError "prometheus.port"
                   "must be a valid port (1-65535)"]
      else errs in
    let errs :=
      if decide (path = "") then
        errs ++ [mkValidationError "prometheus.path"
                   "required when Prometheus is enabled"]
      else errs in
    if negb (bool_decide (path = "")) && negb (String.prefix "/" path) then
      errs ++ [mkValidationError "prometheus.path" "must start with /"]
    else errs.

(** [Config.Validate] *)
Definition Validate (c : Config) : error :=
  let errs := [] in
  let errs := errs ++ validateGlobal c in
  let errs := errs ++ validateInfluxDB c in
  let errs := errs ++ validatePrometheus c in
  if decide (0 < length errs)%nat then Some (ErrValidation errs) else None.

(** [LoadConfig] *)
Definition LoadConfig (path : string) : option Config * error :=
  let cfg := DefaultConfig in
  match ReadFile path with
  | (_, Some err) => (None, Some (Wrapf "failed to read config file" err))
  | (data, None) =>
      match Unmarshal data cfg with
      | (_, Some err) => (None, Some (Wrapf "failed to parse config file" err))
      | (cfg, None) =>
          match Validate cfg with
          | Some err => (None, Some (Wrapf "invalid configuration" err))
          | None => (Some cfg, None)
          end
      end
  end.

(** [LoadConfigFromString] *)
Definition LoadConfigFromString (data : string) : option Config * error :=
  let cfg := DefaultConfig in
  match Unmarshal data cfg with
  | (_, Some err) => (None, Some (Wrapf "failed to parse config" err))
  | (cfg, None) =>
      match Validate cfg with
      | Some err => (None, Some (Wrapf "invalid configuration" err))
      | None => (Some cfg, None)
      end
  end.

(** *** Logging (logging.go) *)

Definition ParseLogLevel (level : string) : Level :=
  let l := ToLower level in
  if decide (l = "debug") then LevelDebug
  else if decide (l = "warn") then LevelWarn
  else if decide (l = "error") then LevelError
  else LevelInfo.

(** [NewLogger]: the logger and the [LevelVar] that holds its level. *)
Definition NewLogger (level : string) : Logger * Level :=
  (StderrTextLogger, ParseLogLevel level).

(** *** The echo backend (backend.go) *)

(** An [io.Writer] that collects lines or refuses every write. *)
Record Writer := mkWriter {
  output : list string;
  refuses : error
}.

Definition Stdout : Writer := mkWriter [] None.

Record Echo := mkEcho {
  writer : option Writer;
  echoLogger : Logger;
  healthy : bool
}.

Definition NewEcho (w : option Writer) (l : option Logger) : Echo :=
  let w := match w with None => Stdout | Some w => w end in
  let l := match l with None => DefaultLogger | Some l => l end in
  mkEcho (Some w) l true.

Definition NewEchoStdout (l : option Logger) : Echo := NewEcho (Some Stdout) l.

(** The loop of [Echo.Write]: one line per metric, stopping at the first
    failed write. *)
Fixpoint echoLines (w : Writer) (batch : list Metric) : Writer * error :=
  match batch with
  | [] => (w, None)
  | m :: rest =>
      let line := ToLineProtocol m in
      match refuses w with
      | Some err => (w, Some (Wrapf "failed to write metric" err))
      | None => echoLines (mkWriter (output w ++ [line]) None) rest
      end
  end.

#[export] Instance Echo_ops : BackendOps Echo := {|
  opName _ := "echo";
  opInitialize e _ := (mkEcho (writer e) (echoLogger e) true, None);
  opWrite e _ batch :=
    match writer e with
    | None => (e, Some (Errorf "echo backend not initialized"))
    | Some w =>
        let (w', err) := echoLines w batch in
        (mkEcho (Some w') (echoLogger e) (healthy e), err)
    end;
  opClose e := (mkEcho (writer e) (echoLogger e) false, None);
  opHealthy e := healthy e
|}.

Definition echoBackend (e : Echo) : Backend := mkBackend Echo _ e.

(** *** The monitor (monitor.go) *)

(** [New]: apply the options, load the configuration when only a path was
    given, fall back on the defaults, build a logger when none was given. *)
Definition New (name : string) (collector : Collector) (opts : list Option)
    : option Monitor.t * error :=
  let m := Monitor.mk name collector None None None None None "" false false
                      None [] zeroStats in
  let m := fold_left (λ m (opt : Option), opt m) opts m in
  let loaded : Monitor.t + Error :=
    match Monitor.cfg m with
    | None =>
        if decide (Monitor.cfgPath m = "") then inl m
        else
          match LoadConfig (Monitor.cfgPath m) with
          | (_, Some err) => inr (Wrapf "loading config" err)
          | (cfg, None) => inl (Monitor.setCfg m cfg)
          end
    | Some _ => inl m
    end in
  match loaded with
  | inr err => (None, Some err)
  | inl m =>
      let m :=
        match Monitor.cfg m with
        | None => Monitor.setCfg m (Some DefaultConfig)
        | Some _ => m
        end in
      match Monitor.logger m, Monitor.cfg m with
      | None, Some cfg =>
          let (l, v) := NewLogger (GlobalConfig.LogLevel (Global cfg)) in
          (Some (Monitor.setLevelVar (Monitor.setLogger m (Some l)) (Some v)),
           None)
      | _, _ => (Some m, None)
      end
  end.

(** [Monitor.Stats] *)
Definition Stats (m : Monitor.t) : PollStats := snapshot (Monitor.stats m).

(** [Monitor.addBackends] on the pipeline [Run] has just built. *)
Definition addBackends (m : Monitor.t) : Res (Monitor.t * error) :=
  match Monitor.pipeline m with
  | None => Panic
  | Some p =>
      let p := fold_left AddBackend (Monitor.backends m) p in
      let p :=
        if Monitor.echoMode m then
          AddBackend p (echoBackend (NewEchoStdout (Monitor.logger m)))
        else p in
      let m := Monitor.setPipeline m (Some p) in
      if BackendCount p =? 0 then
        Ok (m, Some (Errorf
          "no backends configured (use WithBackend, WithEcho, or enable backends in config)"))
      else Ok (m, None)
  end.

(** The [range metrics] loop of [Monitor.collect]. *)
Fixpoint pushAll (p : Pipeline) (metrics : list Metric) : M Pipeline :=
  match metrics with
  | [] => ret p
  | metric :: rest => do p <- Push p metric ; pushAll p rest
  end.

(** [Monitor.collect] *)
Definition collect (m : Monitor.t) (ctx : Context) : M (Res Monitor.t) :=
  emit EvCollect ;;
  let (c, out) := callCollector (Monitor.collector m) ctx in
  let m := Monitor.setCollector m c in
  let duration := coElapsed out in
  match coErr out with
  | Some _ =>
      let m := Monitor.setStats m (recordPoll (Monitor.stats m) false 0 duration) in
      match Monitor.logger m with
      | None => ret Panic
      | Some _ => log LevelError "collection failed" ;; ret (Ok m)
      end
  | None =>
      let count := Z.of_nat (length (coMetrics out)) in
      let m := Monitor.setStats m (recordPoll (Monitor.stats m) true count duration) in
      do pushed <-
        (match Monitor.pipeline m, coMetrics out with
         | Some p, metrics => do p <- pushAll p metrics ; ret (Ok (Some p))
         | None, [] => ret (Ok None)
         | None, _ :: _ => ret Panic
         end) ;
      match pushed, Monitor.logger m with
      | Ok p, Some _ =>
          log LevelInfo "poll completed" ;;
          ret (Ok (Monitor.setPipeline m p))
      | _, _ => ret Panic
      end
  end.

(** Where [Monitor.handleReload] takes the new configuration from: the
    reload function, else the configuration file, else nowhere. *)
Definition reloadSource (m : Monitor.t) : option (option Config * error) :=
  match Monitor.reloadFn m with
  | Some fn => Some (fn (Monitor.cfgPath m))
  | None =>
      if decide (Monitor.cfgPath m = "") then None
      else Some (LoadConfig (Monitor.cfgPath m))
  end.

(** [Monitor.handleReload]; the ticker is its period.  [Ticker.Reset]
    panics on a non-positive period. *)
Definition handleReload (m : Monitor.t) (ticker : Z) : M (Res (Monitor.t * Z)) :=
  match Monitor.logger m with
  | None => ret Panic
  | Some _ =>
      log LevelInfo "reloading configuration" ;;
      match reloadSource m with
      | None =>
          log LevelWarn "no config path or reload function, ignoring reload signal" ;;
          ret (Ok (m, ticker))
      | Some (_, Some _) =>
          log LevelError "config reload failed, keeping current config" ;;
          ret (Ok (m, ticker))
      | Some (None, None) => ret Panic
      | Some (Some newCfg, None) =>
          match Monitor.cfg m with
          | None => ret Panic
          | Some old =>
              let newInterval := GlobalConfig.PollInterval (Global newCfg) in
              let newLevel := GlobalConfig.LogLevel (Global newCfg) in
              do tick <-
                (if decide (newInterval = GlobalConfig.PollInterval (Global old))
                 then ret (Ok ticker)
                 else if newInterval <=? 0 then ret Panic
                 else log LevelInfo "updated poll interval" ;; ret (Ok newInterval)) ;
              match tick with
              | Panic => ret Panic
              | Ok ticker =>
                  do m <-
                    (match Monitor.levelVar m with
                     | Some _ =>
                         if decide (newLevel = GlobalConfig.LogLevel (Global old))
                         then ret m
                         else
                           log LevelInfo "updated log level" ;;
                           ret (Monitor.setLevelVar m (Some (ParseLogLevel newLevel)))
                     | None => ret m
                     end) ;
                  ret (Ok (Monitor.setCfg m (Some newCfg), ticker))
              end
          end
      end
  end.

(** The polling loop of [Monitor.Run], one [select] per event. *)
Fixpoint pollLoop (env : RunEnv) (m : Monitor.t) (ticker : Z)
    (events : list LoopEvent) : M (Monitor.t * RunResult) :=
  match events with
  | [] => ret (m, Blocked)
  | CtxDone :: _ =>
      log LevelInfo "shutting down, performing final collection..." ;;
      do r <- collect m (finalCtx env) ;
      match r with
      | Panic => ret (m, Panicked)
      | Ok m => log LevelInfo "shutdown complete" ;; ret (m, Returned None)
      end
  | ReloadSignal :: rest =>
      do r <- handleReload m ticker ;
      match r with
      | Panic => ret (m, Panicked)
      | Ok (m, ticker) => pollLoop env m ticker rest
      end
  | TickerFired :: rest =>
      do r <- collect m (sigCtx env) ;
      match r with
      | Panic => ret (m, Panicked)
      | Ok m => pollLoop env m ticker rest
      end
  end.

(** The deferred function of [Monitor.Run]: stop the pipeline under a
    fresh 30-second context. *)
Definition deferredStop (env : RunEnv) (m : Monitor.t) : M Monitor.t :=
  match Monitor.pipeline m with
  | None => ret m
  | Some p =>
      do (p, err) <- Stop p (stopCtx env) ;
      match err with
      | Some _ => log LevelError "error stopping pipeline"
      | None => ret tt
      end ;;
      ret (Monitor.setPipeline m (Some p))
  end.

(** What [Monitor.Run] does once the pipeline has started and the
    deferred stop is registered. *)
Definition runStarted (env : RunEnv) (m : Monitor.t)
    : M (Monitor.t * RunResult) :=
  let m := Monitor.setSignals m (Some (NewSignalHandler (Monitor.logger m))) in
  emit (EvGo GoSignals) ;;
  do r <- collect m (sigCtx env) ;
  match r with
  | Panic => ret (m, Panicked)
  | Ok m =>
      if Monitor.runOnce m then ret (m, Returned None)
      else
        match Monitor.cfg m with
        | None => ret (m, Panicked)
        | Some cfg =>
            let period := GlobalConfig.PollInterval (Global cfg) in
            if period <=? 0 then ret (m, Panicked)
            else pollLoop env m period (loopEvents env)
        end
  end.

(** [Monitor.Run] *)
Definition Run (m : Monitor.t) (ctx : Context) (env : RunEnv)
    : M (Monitor.t * RunResult) :=
  match Monitor.logger m, Monitor.cfg m with
  | Some l, Some cfg =>
      log LevelInfo "starting monitor" ;;
      let pipelineCfg :=
        {| PipelineConfig.BatchSize := GlobalConfig.BatchSize (Global cfg);
           PipelineConfig.FlushInterval := GlobalConfig.PollInterval (Global cfg);
           PipelineConfig.RetryAttempts := GlobalConfig.RetryAttempts (Global cfg);
           PipelineConfig.RetryDelay := GlobalConfig.RetryDelay (Global cfg);
           PipelineConfig.Logger := Some l |} in
      let m := Monitor.setPipeline m (Some (NewPipeline pipelineCfg)) in
      match addBackends m with
      | Panic => ret (m, Panicked)
      | Ok (m, Some err) => ret (m, Returned (Some err))
      | Ok (m, None) =>
          match Monitor.pipeline m with
          | None => ret (m, Panicked)
          | Some p =>
              do (p, err) <- Start p ctx ;
              let m := Monitor.setPipeline m (Some p) in
              match err with
              | Some err =>
                  ret (m, Returned (Some (Wrapf "failed to start pipeline" err)))
              | None =>
                  do (m, r) <- runStarted env m ;
                  match r with
                  | Blocked => ret (m, Blocked)
                  | _ => do m <- deferredStop env m ; ret (m, r)
                  end
              end
          end
      end
  | _, _ => ret (m, Panicked)
  end.

End Runtime.

(** ** Vocabulary of the properties *)

(** *** Traces *)

(** The [Write] calls a trace records, in order: backend and batch. *)
Definition writeCalls (tr : list Event) : list (nat * list Metric) :=
  omap (λ e, match e with EvWrite i batch => Some (i, batch) | _ => None end) tr.

(** How many of the calls went to backend [i]. *)
Definition callsTo (i : nat) (calls : list (nat * list Metric)) : nat :=
  length (filter (λ c, c.1 = i) calls).

Definition isCollect (e : Event) : bool :=
  match e with EvCollect => true | _ => false end.

(** How many times the collector was invoked in a trace. *)
Definition collections (tr : list Event) : nat :=
  length (filter (λ e, isCollect e = true) tr).

(** *** Backends and contexts *)

(** The backend [b] after [n] further [Write] calls with the same batch. *)
Fixpoint afterWrites (ctx : Context) (batch : list Metric) (n : nat)
    (b : Backend) : Backend :=
  match n with
  | O => b
  | S n' => afterWrites ctx batch n' (Write b ctx batch).1
  end.

(** What the [k]-th [Write] call from now on (counting from 0) returns. *)
Definition attemptErr (ctx : Context) (batch : list Metric) (b : Backend)
    (k : nat) : error :=
  (Write (afterWrites ctx batch k b) ctx batch).2.

(** The backend's [Write] fails on every attempt. *)
Definition alwaysFails (ctx : Context) (batch : list Metric) (b : Backend) : Prop :=
  ∀ k, attemptErr ctx batch b k ≠ None.

(** The backend's [Write] fails on the first [k - 1] attempts and succeeds
    on attempt [k] (attempts counted from 1). *)
Definition succeedsAtAttempt (ctx : Context) (batch : list Metric)
    (b : Backend) (k : nat) : Prop :=
  (1 ≤ k)%nat ∧
  (∀ j, (j < k - 1)%nat → attemptErr ctx batch b j ≠ None) ∧
  attemptErr ctx batch b (k - 1) = None.

(** The backend initialises under [initCtx], then reports healthy and
    accepts [batch] under [writeCtx]. *)
Definition serves (b : Backend) (initCtx writeCtx : Context)
    (batch : list Metric) : Prop :=
  (Initialize b initCtx).2 = None ∧
  Healthy (Initialize b initCtx).1 = true ∧
  (Write (Initialize b initCtx).1 writeCtx batch).2 = None.

(** The context is not done at any of the [count] waits that follow wait
    number [from]. *)
Definition notDoneDuring (ctx : Context) (from count : nat) : Prop :=
  ∀ m, (from ≤ m < from + count)%nat → ctxDone ctx m = false.

(** The context is not done at any wait from number [from] on. *)
Definition notDoneFrom (ctx : Context) (from : nat) : Prop :=
  ∀ m, (from ≤ m)%nat → ctxDone ctx m = false.

(** What is known of the number [c] of calls one [writeWithRetry] makes on
    the backend [b], for a context not done from wait [from] on. *)
Definition attemptsAsExpected (p : Pipeline) (ctx : Context)
    (batch : list Metric) (from : nat) (b : Backend) (c : nat) : Prop :=
  let n := Z.to_nat (retryAttempts p) in
  (c ≤ n)%nat ∧ ((0 < n)%nat → (0 < c)%nat) ∧
  (notDoneFrom ctx from →
   (∀ k, (k < n)%nat → attemptErr ctx batch b k ≠ None) → c = n) ∧
  (notDoneFrom ctx from →
   ∀ k, succeedsAtAttempt ctx batch b k → (k ≤ n)%nat → c = k).

(** The same surroundings with other events for the polling loop. *)
Definition withEvents (env : RunEnv) (events : list LoopEvent) : RunEnv :=
  mkRunEnv (sigCtx env) (finalCtx env) (stopCtx env) events.

(** *** Poll sequences *)

(** One call of [recordPoll]. *)
Record PollCall := mkPollCall {
  success : bool;
  metricCount : Z;
  duration : Z
}.

Definition record (s : PollStats) (c : PollCall) : PollStats :=
  recordPoll s (success c) (metricCount c) (duration c).

Definition recordAll (calls : list PollCall) (s : PollStats) : PollStats :=
  fold_left record calls s.

(** The metrics the successful calls of a sequence report. *)
Definition reported (calls : list PollCall) : Z :=
  foldr (λ c acc, (if success c then metricCount c else 0) + acc) 0 calls.

(** A sequence of polls as [collect] produces them and as an [int64] can
    count them: every count is a slice length, and neither the number of
    polls nor the number of metrics reported leaves the range of [int64]. *)
Definition countable (calls : list PollCall) : Prop :=
  Forall (λ c, 0 ≤ metricCount c) calls ∧
  Z.of_nat (length calls) ≤ MaxInt64 ∧
  reported calls ≤ MaxInt64.

(** The four counters of [s] are at most those of [s']. *)
Definition countersLe (s s' : PollStats) : Prop :=
  TotalPolls s ≤ TotalPolls s' ∧
  SuccessfulPolls s ≤ SuccessfulPolls s' ∧
  FailedPolls s ≤ FailedPolls s' ∧
  TotalMetrics s ≤ TotalMetrics s'.

(** *** Configurations *)



(** *** More of the traces *)

(** The [Initialize] calls a trace records, in order. *)
Definition initCalls (tr : list Event) : list nat :=
  omap (λ e, match e with EvInitialize i => Some i | _ => None end) tr.

(** The [Close] calls a trace records, in order. *)
Definition closeCalls (tr : list Event) : list nat :=
  omap (λ e, match e with EvClose i => Some i | _ => None end) tr.

(** The retry waits a trace records: delay, and whether the context won. *)
Definition waitsOf (tr : list Event) : list (Z * bool) :=
  omap (λ e, match e with EvWait d c => Some (d, c) | _ => None end) tr.

(** The goroutines a trace launches, in order. *)
Definition launches (tr : list Event) : list Goroutine :=
  omap (λ e, match e with EvGo g => Some g | _ => None end) tr.

(** [Metric.Validate] returns nil. *)
Definition isValid (m : Metric) : bool :=
  match MetricM.Validate m with None => true | Some _ => false end.

(** The settings [NewPipeline] fixes. *)
Definition sameSettings (p q : Pipeline) : Prop :=
  batchSize p = batchSize q ∧ flushInterval p = flushInterval q ∧
  retryAttempts p = retryAttempts q ∧ retryDelay p = retryDelay q ∧
  logger p = logger q.

(** What a loop that keeps the last non-nil error ends with. *)
Fixpoint lastError (errs : list error) (lastErr : error) : error :=
  match errs with
  | [] => lastErr
  | Some e :: rest => lastError rest (Some e)
  | None :: rest => lastError rest lastErr
  end.

(** The positions, counted from [i], of the backends that report healthy. *)
Fixpoint healthyPositions (i : nat) (bs : list Backend) : list nat :=
  match bs with
  | [] => []
  | b :: rest =>
      if Healthy b then i :: healthyPositions (S i) rest
      else healthyPositions (S i) rest
  end.

(** An event of a delivery: a log line, a write, a retry wait. *)
Definition isDelivery (e : Event) : bool :=
  match e with
  | EvLog _ _ | EvWrite _ _ | EvWait _ _ => true
  | _ => false
  end.

(** The trace [tr'] extends [tr] by events that all satisfy [ok]. *)
Definition extendsBy (ok : Event → bool) (tr tr' : list Event) : Prop :=
  ∃ evs, tr' = tr ++ evs ∧ Forall (λ e, ok e = true) evs.

(** What [Pipeline.Start] records for [n] backends from position [i] on that
    initialise. *)
Definition initEvents (i n : nat) : list Event :=
  flat_map (λ j, [EvInitialize j; EvLog LevelInfo "backend initialized"])
           (seq i n).

(** *** Polls and runs *)

(** An event of a poll: the collector call, a log line, the launch of a
    batch flush. *)
Definition isPoll (e : Event) : bool :=
  match e with
  | EvCollect | EvLog _ _ | EvGo GoBatchFlush => true
  | _ => false
  end.

(** Whether the collector's outcome counts as a successful poll, and the
    metrics [collect] then takes from it. *)
Definition succeeded (out : CollectOutcome) : bool :=
  match coErr out with None => true | Some _ => false end.

Definition taken (out : CollectOutcome) : list Metric :=
  if succeeded out then coMetrics out else [].

(** The ticks among the events of the polling loop. *)
Definition isTick (e : LoopEvent) : bool :=
  match e with TickerFired => true | _ => false end.

Definition ticks (events : list LoopEvent) : nat :=
  length (filter (λ e, isTick e = true) events).

(** The pipeline [Run] builds from the monitor's logger and configuration. *)
Definition pipelineFor (l : Logger) (cfg : Config) : Pipeline :=
  NewPipeline
    {| PipelineConfig.BatchSize := GlobalConfig.BatchSize (Global cfg);
       PipelineConfig.FlushInterval := GlobalConfig.PollInterval (Global cfg);
       PipelineConfig.RetryAttempts := GlobalConfig.RetryAttempts (Global cfg);
       PipelineConfig.RetryDelay := GlobalConfig.RetryDelay (Global cfg);
       PipelineConfig.Logger := Some l |}.

(** The backends [addBackends] registers: the user's in the order of their
    [WithBackend] options, then the echo backend in echo mode. *)
Definition registered (ToLineProtocol : Metric → string) (m : Monitor.t)
    : list Backend :=
  Monitor.backends m
  ++ (if Monitor.echoMode m
      then [echoBackend ToLineProtocol (NewEchoStdout (Monitor.logger m))]
      else []).

(** The monitor [New] starts from, and the options applied to it. *)
Definition emptyMonitor (name : string) (collector : Collector) : Monitor.t :=
  Monitor.mk name collector None None None None None "" false false None []
             zeroStats.

Definition applyOptions (opts : list Option) (m : Monitor.t) : Monitor.t :=
  fold_left (λ m (opt : Option), opt m) opts m.

(** The last step of [New]: the logger [NewLogger] builds when none was
    given. *)
Definition withLogger (ToLower : string → string) (m : Monitor.t) : Monitor.t :=
  match Monitor.logger m, Monitor.cfg m with
  | None, Some cfg =>
      Monitor.setLevelVar (Monitor.setLogger m (Some StderrTextLogger))
        (Some (ParseLogLevel ToLower (GlobalConfig.LogLevel (Global cfg))))
  | _, _ => m
  end.

(** The level names [validateGlobal] accepts. *)
Definition levelNames : list string := ["debug"; "info"; "warn"; "error"].

(** What [Config.Validate] asks of a configuration. *)
Definition wellFormed (ToLower : string → string) (c : Config) : Prop :=
  0 < GlobalConfig.PollInterval (Global c) ∧
  0 < GlobalConfig.BatchSize (Global c) ∧
  ToLower (GlobalConfig.LogLevel (Global c)) ∈ levelNames ∧
  (InfluxDBConfig.Enabled (InfluxDB c) = true →
   InfluxDBConfig.URL (InfluxDB c) ≠ "" ∧ InfluxDBConfig.Token (InfluxDB c) ≠ "" ∧
   InfluxDBConfig.Org (InfluxDB c) ≠ "" ∧ InfluxDBConfig.Bucket (InfluxDB c) ≠ "") ∧
  (PrometheusConfig.Enabled (Prometheus c) = true →
   1 ≤ PrometheusConfig.Port (Prometheus c) ≤ 65535 ∧
   String.prefix "/" (PrometheusConfig.Path (Prometheus c)) = true).

(** The monitor's fields a reload has no business with. *)
Definition sameRuntime (m m' : Monitor.t) : Prop :=
  Monitor.name m' = Monitor.name m ∧
  Monitor.collector m' = Monitor.collector m ∧
  Monitor.pipeline m' = Monitor.pipeline m ∧
  Monitor.signals m' = Monitor.signals m ∧
  Monitor.logger m' = Monitor.logger m ∧
  Monitor.cfgPath m' = Monitor.cfgPath m ∧
  Monitor.echoMode m' = Monitor.echoMode m ∧
  Monitor.runOnce m' = Monitor.runOnce m ∧
  Monitor.reloadFn m' = Monitor.reloadFn m ∧
  Monitor.backends m' = Monitor.backends m ∧
  Monitor.stats m' = Monitor.stats m.

(** *** Escaping *)

(** The bytes the line protocol separates keys and values with. *)
Definition isSeparator (c : Ascii.ascii) : bool :=
  Ascii.eqb c ","%char || Ascii.eqb c "="%char || Ascii.eqb c " "%char.

(** Every separator of [s] preceded by a backslash, in one pass. *)
Fixpoint backslashed (s : string) : string :=
  match s with
  | EmptyString => EmptyString
  | String c rest =>
      if isSeparator c then String "\"%char (String c (backslashed rest))
      else String c (backslashed rest)
  end.

Fixpoint separators (s : string) : nat :=
  match s with
  | EmptyString => 0
  | String c rest => ((if isSeparator c then 1 else 0) + separators rest)%nat
  end.

(** *** Counters *)

(** The four counters are values of [int64]. *)
Definition inInt64 (s : PollStats) : Prop :=
  (MinInt64 ≤ TotalPolls s ≤ MaxInt64) ∧
  (MinInt64 ≤ SuccessfulPolls s ≤ MaxInt64) ∧
  (MinInt64 ≤ FailedPolls s ≤ MaxInt64) ∧
  (MinInt64 ≤ TotalMetrics s ≤ MaxInt64).

(** ** Concrete instances *)

(** [strings.ToLower] on ASCII letters. *)
Definition lowerAscii (a : Ascii.ascii) : Ascii.ascii :=
  let n := Ascii.nat_of_ascii a in
  if (65 <=? n)%nat && (n <=? 90)%nat then Ascii.ascii_of_nat (n + 32) else a.

Fixpoint asciiLower (s : string) : string :=
  match s with
  | EmptyString => EmptyString
  | String a rest => String (lowerAscii a) (asciiLower rest)
  end.

(** No configuration file, a parser that leaves the configuration as it
    is, a line format that prints the measurement name. *)
Definition noFile (path : string) : string * error :=
  ("", Some (Errorf "no such file")).

Definition keepConfig (data : string) (c : Config) : Config * error := (c, None).

Definition nameOnly (m : Metric) : string := Measurement m.



(** A context that is done from the start. *)
Definition cancelled : Context := mkContext (λ _, true) Canceled.

(** [NewMetric("cpu").WithField("usage", 42.5)] *)
Definition cpu : Metric :=
  WithField (NewMetric "cpu" 0) "usage" (VFloat 0x4045400000000000).

Definition temperature : Metric :=
  WithField (WithTag (NewMetric "temperature" 0) "location" "office")
            "celsius" (VFloat 0x4036800000000000).

Definition humidity : Metric :=
  WithField (WithTag (NewMetric "humidity" 0) "location" "office")
            "percent" (VFloat 0x4046800000000000).

(** Mocks: one whose writes fail, one that works, one that is unhealthy;
    and the backend of [TestPipelineRetry], which succeeds at the third
    call, healthy and unhealthy. *)
Definition downMock : Backend := newMock "down" true (Some (Errorf "unreachable")).

Definition upMock : Backend := newMock "up" true None.

Definition sickMock : Backend := newMock "sick" false None.

Definition flaky : Backend := newRetry "flaky" true 3.

Definition flakySick : Backend := newRetry "flaky" false 3.

(** The default pipeline over the backends [bs], with [cpu] pushed. *)
Definition pipelineOf (bs : list Backend) : Pipeline :=
  (Push (fold_left AddBackend bs (NewPipeline DefaultPipelineConfig)) cpu
        initialWorld).1.

(** The collector of the end-to-end example: two points at every call. *)
Definition officeCollector : Collector :=
  mkCollector unit (λ _ _, (tt, mkOutcome [temperature; humidity] None 5)) tt.

(** Contexts that are never done, a polling loop that receives nothing. *)
Definition quietEnv : RunEnv := mkRunEnv Background Background Background [].

Definition blankMonitor : Monitor.t :=
  Monitor.mk "" officeCollector None None None None None "" false false None []
             zeroStats.

(** [New("example-monitor", collect, WithRunOnce(true), WithBackend(b))] *)
Definition exampleMonitor : Monitor.t :=
  default blankMonitor
    (New asciiLower noFile keepConfig "example-monitor" officeCollector
         [WithRunOnce true; WithBackend upMock]).1.

(** [New("test", collect)]: no backend, no echo. *)
Definition bareMonitor : Monitor.t :=
  default blankMonitor
    (New asciiLower noFile keepConfig "test" officeCollector []).1.

(** Unfolding of the effect monad in proofs. *)
Ltac run := unfold bind, ret, log, emit, waitOrDone; simpl.

(** A mock whose [Initialize] fails, and one whose [Close] fails. *)
Definition brokenMock : Backend :=
  mkBackend mockBackend _
    (mkMock "broken" (Some (Errorf "connection refused")) None None true
            false [] false).

Definition stuckMock : Backend :=
  mkBackend mockBackend _
    (mkMock "stuck" None None (Some (Errorf "close failed")) true
            false [] false).


Definition sloppyCollector : Collector :=
  mkCollector unit
    (λ _ _, (tt, mkOutcome [temperature; NewMetric "empty" 0; humidity] None 5)) tt.

(** A file system with one empty file at every path, and a configuration
    with a five-second interval and debug logging with its reload function. *)
Definition emptyFile (path : string) : string * error := ("", None).

Definition fastConfig : Config :=
  mkConfig (GlobalConfig.mk (5 * Second) "debug" 10 3 Second)
           (InfluxDB DefaultConfig) (Prometheus DefaultConfig).

Definition reloadFast : ReloadFunc := λ _, (Some fastConfig, None).

(** A writer that refuses every write. *)
Definition brokenPipe : Writer := mkWriter [] (Some (Errorf "broken pipe")).

(** A context whose deadline passes during the second retry wait. *)
Definition expiring : Context :=
  mkContext (λ n, (1 <=? n)%nat) DeadlineExceeded.

(** Projections of a monitor through its setters. *)
Ltac mcbn :=
  cbn [Monitor.pipeline Monitor.logger Monitor.setStats Monitor.setCollector
       Monitor.stats Monitor.name Monitor.collector Monitor.signals
       Monitor.levelVar Monitor.cfg Monitor.cfgPath Monitor.echoMode
       Monitor.runOnce Monitor.reloadFn Monitor.backends Monitor.setPipeline
       Monitor.setSignals Monitor.setCfg Monitor.setLevelVar Monitor.setLogger
       fst snd waits trace].

(** ** Results *)

(** *** The pipeline constructor *)

Lemma NewPipeline_positive (cfg : PipelineConfig.t) :
  0 < batchSize (NewPipeline cfg) ∧ 0 < flushInterval (NewPipeline cfg) ∧
  0 < retryAttempts (NewPipeline cfg) ∧ 0 < retryDelay (NewPipeline cfg).
Proof.
  unfold NewPipeline; simpl.
  repeat split; case_match; first [ reflexivity | apply Z.leb_gt; assumption ].
Qed.


(** *** Configuration validation *)







(** *** Poll statistics *)

Lemma wrap64_small (z : Z) : MinInt64 ≤ z ≤ MaxInt64 → wrap64 z = z.
Proof.
  unfold MinInt64, MaxInt64, wrap64. intros H.
  rewrite Z.mod_small; lia.
Qed.

(** In modular arithmetic the sum invariant needs no bound at all. *)
Lemma recordPoll_sum_mod (s : PollStats) (ok : bool) (n d : Z) :
  (SuccessfulPolls s + FailedPolls s - TotalPolls s) mod 2 ^ 64 = 0 →
  let s' := recordPoll s ok n d in
  (SuccessfulPolls s' + FailedPolls s' - TotalPolls s') mod 2 ^ 64 = 0.
Proof.
  intros H s'. subst s'. unfold recordPoll, wrap64.
  destruct ok; simpl.
  - replace ((SuccessfulPolls s + 1 + 2 ^ 63) `mod` 2 ^ 64 - 2 ^ 63 + FailedPolls s
             - ((TotalPolls s + 1 + 2 ^ 63) `mod` 2 ^ 64 - 2 ^ 63))
      with ((SuccessfulPolls s + 1 + 2 ^ 63) `mod` 2 ^ 64
            + (FailedPolls s - (TotalPolls s + 1 + 2 ^ 63) `mod` 2 ^ 64)) by lia.
    rewrite Zplus_mod_idemp_l.
    replace (SuccessfulPolls s + 1 + 2 ^ 63
             + (FailedPolls s - (TotalPolls s + 1 + 2 ^ 63) `mod` 2 ^ 64))
      with (SuccessfulPolls s + 1 + 2 ^ 63 + FailedPolls s
            - (TotalPolls s + 1 + 2 ^ 63) `mod` 2 ^ 64) by lia.
    rewrite Zminus_mod_idemp_r.
    rewrite <- H. f_equal. lia.
  - replace (SuccessfulPolls s + ((FailedPolls s + 1 + 2 ^ 63) `mod` 2 ^ 64 - 2 ^ 63)
             - ((TotalPolls s + 1 + 2 ^ 63) `mod` 2 ^ 64 - 2 ^ 63))
      with ((FailedPolls s + 1 + 2 ^ 63) `mod` 2 ^ 64
            + (SuccessfulPolls s - (TotalPolls s + 1 + 2 ^ 63) `mod` 2 ^ 64)) by lia.
    rewrite Zplus_mod_idemp_l.
    replace (FailedPolls s + 1 + 2 ^ 63
             + (SuccessfulPolls s - (TotalPolls s + 1 + 2 ^ 63) `mod` 2 ^ 64))
      with (FailedPolls s + 1 + 2 ^ 63 + SuccessfulPolls s
            - (TotalPolls s + 1 + 2 ^ 63) `mod` 2 ^ 64) by lia.
    rewrite Zminus_mod_idemp_r.
    rewrite <- H. f_equal. lia.
Qed.

Lemma recordAll_snoc (calls : list PollCall) (c : PollCall) (s : PollStats) :
  recordAll (calls ++ [c]) s = record (recordAll calls s) c.
Proof. unfold recordAll. by rewrite fold_left_app. Qed.

Lemma reported_snoc (calls : list PollCall) (c : PollCall) :
  reported (calls ++ [c])
  = reported calls + (if success c then metricCount c else 0).
Proof.
  unfold reported. induction calls as [|a calls IH]; simpl; [lia|].
  rewrite IH. lia.
Qed.

Lemma reported_nonneg (calls : list PollCall) :
  Forall (λ c, 0 ≤ metricCount c) calls → 0 ≤ reported calls.
Proof.
  unfold reported. induction 1 as [|c calls Hc _ IH]; simpl; [lia|].
  destruct (success c); lia.
Qed.

Lemma countable_snoc (calls : list PollCall) (c : PollCall) :
  countable (calls ++ [c]) → countable calls ∧ 0 ≤ metricCount c.
Proof.
  intros (Hall & Hlen & Hrep).
  apply Forall_app in Hall as [Hall Hc].
  rewrite Forall_singleton in Hc.
  rewrite length_app in Hlen. simpl in Hlen.
  rewrite reported_snoc in Hrep.
  pose proof (reported_nonneg calls Hall).
  repeat split; [assumption | lia | destruct (success c); lia | assumption].
Qed.

(** Within the range of [int64] the counters are the exact counts. *)
Lemma recordAll_exact (calls : list PollCall) :
  countable calls →
  let s := recordAll calls zeroStats in
  TotalPolls s = Z.of_nat (length calls) ∧
  SuccessfulPolls s + FailedPolls s = TotalPolls s ∧
  0 ≤ SuccessfulPolls s ∧ 0 ≤ FailedPolls s ∧
  TotalMetrics s = reported calls.
Proof.
  induction calls as [|c calls IH] using rev_ind; intros Hc.
  - simpl. repeat split; reflexivity || lia.
  - pose proof Hc as (Hall & Hlen & Hrep).
    apply countable_snoc in Hc as [Hc Hn].
    specialize (IH Hc). simpl in IH. destruct IH as (Ht & Hsum & Hs & Hf & Hm).
    rewrite recordAll_snoc. simpl.
    rewrite length_app in *. simpl in *.
    rewrite reported_snoc in *.
    pose proof (reported_nonneg calls (proj1 Hc)) as Hr.
    unfold record, recordPoll, MaxInt64 in *.
    destruct (success c); simpl;
      rewrite ?wrap64_small; unfold MinInt64, MaxInt64; lia.
Qed.

(** C8.  Starting from the zero tracker, after any sequence of polls
    (every count a slice length, the totals within [int64]) and one more
    call [c]: successful + failed = total holds before and after the call
    and in the snapshot; the call adds exactly 1 to the total and to
    exactly one of successful and failed, leaving the other alone; and none
    of the four counters decreases. *)
Theorem recordPoll_keeps_invariant (calls : list PollCall) (c : PollCall) :
  countable (calls ++ [c]) →
  let s := recordAll calls zeroStats in
  let s' := record s c in
  SuccessfulPolls s + FailedPolls s = TotalPolls s ∧
  SuccessfulPolls s' + FailedPolls s' = TotalPolls s' ∧
  SuccessfulPolls (snapshot s') + FailedPolls (snapshot s')
    = TotalPolls (snapshot s') ∧
  TotalPolls s' = TotalPolls s + 1 ∧
  (if success c
   then SuccessfulPolls s' = SuccessfulPolls s + 1 ∧ FailedPolls s' = FailedPolls s
   else FailedPolls s' = FailedPolls s + 1 ∧ SuccessfulPolls s' = SuccessfulPolls s) ∧
  countersLe s s'.
Proof.
  intros Hc s s'.
  pose proof (recordAll_exact _ Hc) as H'. simpl in H'.
  rewrite recordAll_snoc in H'. fold s in H'. fold s' in H'.
  pose proof Hc as (Hall & Hlen & Hrep).
  apply countable_snoc in Hc as [Hc Hn].
  pose proof (recordAll_exact _ Hc) as H. simpl in H. fold s in H.
  destruct H as (Ht & Hsum & Hs & Hf & Hm).
  destruct H' as (Ht' & Hsum' & Hs' & Hf' & Hm').
  rewrite length_app in *. simpl in *. rewrite reported_snoc in *.
  pose proof (reported_nonneg calls (proj1 Hc)) as Hr.
  unfold snapshot, countersLe.
  assert (Hstep : SuccessfulPolls s' = (if success c then wrap64 (SuccessfulPolls s + 1) else SuccessfulPolls s) ∧
                  FailedPolls s' = (if success c then FailedPolls s else wrap64 (FailedPolls s + 1))).
  { subst s'. unfold record, recordPoll. destruct (success c); simpl; auto. }
  destruct Hstep as [Hss Hff].
  unfold MaxInt64 in *.
  destruct (success c);
    rewrite ?wrap64_small in Hss, Hff by (unfold MinInt64, MaxInt64; lia);
    repeat split; lia.
Qed.

(** The sequence of the tracker's own test: a successful poll of 5 metrics,
    then a failed one. *)
Lemma recordPoll_keeps_invariant_witness :
  let s := recordAll [mkPollCall true 5 100] zeroStats in
  let s' := record s (mkPollCall false 0 50) in
  SuccessfulPolls s' + FailedPolls s' = TotalPolls s' ∧ countersLe s s'.
Proof.
  intros s s'.
  assert (H : countable ([mkPollCall true 5 100] ++ [mkPollCall false 0 50])).
  { split; [|split].
    - repeat constructor; simpl; lia.
    - vm_compute. discriminate.
    - vm_compute. discriminate. }
  pose proof (recordPoll_keeps_invariant _ _ H) as (_ & H2 & _ & _ & _ & H6).
  split; [exact H2 | exact H6].
Defined.

(** *** Traces *)

Lemma writeCalls_app (tr1 tr2 : list Event) :
  writeCalls (tr1 ++ tr2) = writeCalls tr1 ++ writeCalls tr2.
Proof. apply omap_app. Qed.

Lemma writeCalls_snoc_write tr i batch :
  writeCalls (tr ++ [EvWrite i batch]) = writeCalls tr ++ [(i, batch)].
Proof. by rewrite writeCalls_app. Qed.

Lemma writeCalls_snoc_log tr l s : writeCalls (tr ++ [EvLog l s]) = writeCalls tr.
Proof. rewrite writeCalls_app. simpl. by rewrite app_nil_r. Qed.

Lemma writeCalls_snoc_wait tr d c : writeCalls (tr ++ [EvWait d c]) = writeCalls tr.
Proof. rewrite writeCalls_app. simpl. by rewrite app_nil_r. Qed.

Lemma callsTo_app i (c1 c2 : list (nat * list Metric)) :
  callsTo i (c1 ++ c2) = (callsTo i c1 + callsTo i c2)%nat.
Proof. unfold callsTo. by rewrite filter_app, length_app. Qed.

Lemma callsTo_replicate_eq i (batch : list Metric) c :
  callsTo i (replicate c (i, batch)) = c.
Proof.
  unfold callsTo. induction c as [|c IH]; [reflexivity|].
  simpl. rewrite filter_cons_True by reflexivity. simpl. by rewrite IH.
Qed.

Lemma callsTo_replicate_ne i j (batch : list Metric) c :
  j ≠ i → callsTo j (replicate c (i, batch)) = 0%nat.
Proof.
  intros Hne. unfold callsTo. induction c as [|c IH]; [reflexivity|].
  simpl. rewrite filter_cons_False by (simpl; congruence). exact IH.
Qed.

Lemma callsTo_below j lo (calls : list (nat * list Metric)) :
  Forall (λ c, (lo ≤ c.1)%nat) calls → (j < lo)%nat → callsTo j calls = 0%nat.
Proof.
  unfold callsTo. induction 1 as [|c calls Hc _ IH]; intros Hj; [reflexivity|].
  rewrite filter_cons_False by (simpl; lia). by apply IH.
Qed.

Lemma replicate_sorted_app i (batch : list Metric) c calls :
  Forall (λ x, (S i ≤ x.1)%nat) calls →
  StronglySorted (λ a x : nat * list Metric, (a.1 ≤ x.1)%nat) calls →
  StronglySorted (λ a x : nat * list Metric, (a.1 ≤ x.1)%nat)
                 (replicate c (i, batch) ++ calls).
Proof.
  intros Hlo Hs. induction c as [|c IH]; [exact Hs|].
  simpl. constructor; [exact IH|].
  apply Forall_app. split.
  - apply Forall_replicate. simpl. lia.
  - eapply Forall_impl; [exact Hlo|]. simpl. intros; lia.
Qed.

Lemma replicate_app_inv {A} (l : list A) (x : A) c n :
  l ++ replicate c x = l ++ replicate n x → c = n.
Proof.
  intros H. apply app_inv_head in H.
  apply (f_equal length) in H. by rewrite !length_replicate in H.
Qed.

Lemma collections_app tr1 tr2 :
  collections (tr1 ++ tr2) = (collections tr1 + collections tr2)%nat.
Proof. unfold collections. by rewrite filter_app, length_app. Qed.

Lemma collections_snoc_other tr e :
  isCollect e = false → collections (tr ++ [e]) = collections tr.
Proof.
  intros H. unfold collections. rewrite filter_app, length_app. simpl.
  rewrite filter_cons_False by (rewrite H; discriminate). simpl. lia.
Qed.

Lemma collections_snoc_collect tr :
  collections (tr ++ [EvCollect]) = (collections tr + 1)%nat.
Proof.
  unfold collections. rewrite filter_app, length_app. reflexivity.
Qed.

(** *** Pushing a metric *)

(** C4.  A metric with an empty measurement name or an empty field set is
    dropped by [Push]: the pipeline comes back exactly as it was (so its
    buffer, and hence every later flush, is that of the pipeline before the
    call), the call does nothing but log the warning (no flush goroutine is
    launched, no backend is written to), and [Push] has no error result. *)
Theorem Push_drops_invalid (p : Pipeline) (m : Metric) (w : World) :
  Measurement m = "" ∨ size (Fields m) = 0%nat →
  ∃ w', Push p m w = (p, w') ∧
        trace w' = trace w ++ [EvLog LevelWarn "invalid metric dropped"] ∧
        waits w' = waits w ∧
        BufferLen (Push p m w).1 = BufferLen p ∧
        writeCalls (trace w') = writeCalls (trace w) ∧
        ∀ ctx w0, Flush (Push p m w).1 ctx w0 = Flush p ctx w0.
Proof.
  intros H.
  assert (Hv : ∃ e, MetricM.Validate m = Some e).
  { unfold MetricM.Validate. destruct H as [H|H].
    - rewrite decide_True by assumption. eauto.
    - destruct (decide (Measurement m = "")); [eauto|].
      rewrite decide_True by assumption. eauto. }
  destruct Hv as [e Hv].
  assert (HP : Push p m w
               = (p, mkWorld (waits w)
                             (trace w ++ [EvLog LevelWarn "invalid metric dropped"]))).
  { unfold Push. rewrite Hv. reflexivity. }
  eexists. split; [exact HP|]. rewrite HP. simpl.
  repeat split; try reflexivity.
  rewrite writeCalls_app. simpl. by rewrite app_nil_r.
Qed.

(** [NewMetric("cpu")] has no field. *)
Lemma Push_drops_invalid_witness :
  ∃ w', Push (NewPipeline DefaultPipelineConfig) (NewMetric "cpu" 0) initialWorld
        = (NewPipeline DefaultPipelineConfig, w').
Proof.
  destruct (Push_drops_invalid (NewPipeline DefaultPipelineConfig)
              (NewMetric "cpu" 0) initialWorld) as (w' & H & _).
  - right. vm_compute. reflexivity.
  - exists w'. exact H.
Defined.

(** A valid metric below the batch size is appended, nothing else. *)
Lemma Push_valid p m w :
  MetricM.Validate m = None →
  Z.of_nat (length (buffer p ++ [m])) < batchSize p →
  Push p m w = (setBuffer p (buffer p ++ [m]), w).
Proof.
  intros Hv Hlt. unfold Push. rewrite Hv. simpl.
  destruct (Z.of_nat (length (buffer p ++ [m])) >=? batchSize p) eqn:E; [lia|].
  reflexivity.
Qed.

(** *** The retry loop *)

Lemma attemptErr_0 ctx batch b : attemptErr ctx batch b 0 = (Write b ctx batch).2.
Proof. reflexivity. Qed.

Lemma attemptErr_S ctx batch b k :
  attemptErr ctx batch b (S k) = attemptErr ctx batch (Write b ctx batch).1 k.
Proof. reflexivity. Qed.

Lemma retryLoop_unfold p ctx i batch n attempt b lastErr w :
  retryLoop p ctx i batch (S n) attempt b lastErr w =
  let w1 := mkWorld (waits w) (trace w ++ [EvWrite i batch]) in
  match (Write b ctx batch).2 with
  | None => (((Write b ctx batch).1, None), w1)
  | Some e =>
      if attempt <? retryAttempts p then
        let w2 := mkWorld (waits w1) (trace w1 ++ [EvLog LevelWarn "write failed, retrying"]) in
        let w3 := mkWorld (S (waits w2)) (trace w2 ++ [EvWait (retryDelay p) (ctxDone ctx (waits w2))]) in
        if ctxDone ctx (waits w2) then (((Write b ctx batch).1, Some (ctxErr ctx)), w3)
        else retryLoop p ctx i batch n (attempt + 1) (Write b ctx batch).1 (Some e) w3
      else retryLoop p ctx i batch n (attempt + 1) (Write b ctx batch).1 (Some e) w1
  end.
Proof.
  simpl. run. destruct (Write b ctx batch) as [b' [e|]]; simpl; [|reflexivity].
  destruct (attempt <? retryAttempts p); [|reflexivity].
  run. destruct (ctxDone ctx (waits w)); reflexivity.
Qed.

(** Whatever happens, the loop writes to its backend only, with its batch,
    at least once and at most [n] times, and never moves the wait counter
    back. *)
Lemma retryLoop_calls p ctx i batch n :
  ∀ attempt b lastErr w,
  let r := retryLoop p ctx i batch n attempt b lastErr w in
  ∃ c, writeCalls (trace r.2) = writeCalls (trace w) ++ replicate c (i, batch) ∧
       (c ≤ n)%nat ∧ ((0 < n)%nat → (0 < c)%nat) ∧
       (waits w ≤ waits r.2)%nat.
Proof.
  induction n as [|n IH]; intros attempt b lastErr w r.
  - exists 0%nat. subst r. simpl. rewrite app_nil_r. repeat split; lia.
  - subst r. rewrite retryLoop_unfold.
    destruct (Write b ctx batch) as [b' [e|]]; simpl.
    + destruct (attempt <? retryAttempts p).
      * destruct (ctxDone ctx (waits w)); simpl.
        -- exists 1%nat. rewrite writeCalls_snoc_wait, writeCalls_snoc_log, writeCalls_snoc_write.
           repeat split; lia.
        -- edestruct IH as (c & -> & Hle & _ & Hw). simpl in *.
           exists (S c). rewrite writeCalls_snoc_wait, writeCalls_snoc_log, writeCalls_snoc_write.
           rewrite <- app_assoc. repeat split; lia.
      * edestruct IH as (c & -> & Hle & _ & Hw). simpl in *.
        exists (S c). rewrite writeCalls_snoc_write.
        rewrite <- app_assoc. repeat split; lia.
    + exists 1%nat. rewrite writeCalls_snoc_write. repeat split; lia.
Qed.

(** A backend that fails all along leaves the loop with an error, whether
    by exhaustion or by cancellation. *)
Lemma retryLoop_fail_err p ctx i batch n :
  ∀ attempt b lastErr w,
  (∀ k, (k < n)%nat → attemptErr ctx batch b k ≠ None) →
  ((0 < n)%nat ∨ lastErr ≠ None) →
  (retryLoop p ctx i batch n attempt b lastErr w).1.2 ≠ None.
Proof.
  induction n as [|n IH]; intros attempt b lastErr w Hfail Hn.
  - simpl. destruct Hn; [lia | assumption].
  - rewrite retryLoop_unfold.
    pose proof (Hfail 0%nat ltac:(lia)) as H0. rewrite attemptErr_0 in H0.
    assert (Hrest : ∀ k, (k < n)%nat → attemptErr ctx batch (Write b ctx batch).1 k ≠ None).
    { intros k Hk. rewrite <- attemptErr_S. apply Hfail. lia. }
    destruct (Write b ctx batch) as [b' [e|]]; simpl in *; [|done].
    destruct (attempt <? retryAttempts p).
    + destruct (ctxDone ctx (waits w)); simpl; [done|].
      apply IH; [assumption | right; done].
    + apply IH; [assumption | right; done].
Qed.

(** With no cancellation during its waits, the loop on a backend that fails
    [n] times in a row makes exactly [n] calls and returns the last
    error. *)
Lemma retryLoop_all_fail p ctx i batch n :
  ∀ attempt b lastErr w,
  notDoneDuring ctx (waits w) n →
  (∀ k, (k < n)%nat → attemptErr ctx batch b k ≠ None) →
  let r := retryLoop p ctx i batch n attempt b lastErr w in
  r.1.1 = afterWrites ctx batch n b ∧
  r.1.2 = match n with O => lastErr | S n' => attemptErr ctx batch b n' end ∧
  writeCalls (trace r.2) = writeCalls (trace w) ++ replicate n (i, batch).
Proof.
  induction n as [|n IH]; intros attempt b lastErr w Hctx Hfail r.
  - subst r. simpl. by rewrite app_nil_r.
  - subst r. rewrite retryLoop_unfold.
    pose proof (Hfail 0%nat ltac:(lia)) as H0. rewrite attemptErr_0 in H0.
    assert (Hrest : ∀ k, (k < n)%nat → attemptErr ctx batch (Write b ctx batch).1 k ≠ None).
    { intros k Hk. rewrite <- attemptErr_S. apply Hfail. lia. }
    assert (Hlast : match n with O => (Write b ctx batch).2
                    | S n' => attemptErr ctx batch (Write b ctx batch).1 n' end
                    = attemptErr ctx batch b n).
    { destruct n; reflexivity. }
    simpl afterWrites.
    destruct (Write b ctx batch) as [b' [e|]] eqn:HW; simpl in *; [|done].
    destruct (attempt <? retryAttempts p).
    + rewrite (Hctx (waits w)) by lia. simpl.
      edestruct (IH (attempt + 1) b' (Some e)) as (-> & -> & ->); [| exact Hrest |].
      { intros m Hm. apply Hctx. simpl in Hm. lia. }
      simpl. rewrite writeCalls_snoc_wait, writeCalls_snoc_log, writeCalls_snoc_write.
      rewrite <- app_assoc. split; [done|]. split; [|done].
      rewrite <- Hlast. by destruct n.
    + edestruct (IH (attempt + 1) b' (Some e)) as (-> & -> & ->); [| exact Hrest |].
      { intros m Hm. apply Hctx. simpl in Hm. lia. }
      simpl. rewrite writeCalls_snoc_write.
      rewrite <- app_assoc. split; [done|]. split; [|done].
      rewrite <- Hlast. by destruct n.
Qed.

(** With no cancellation during its waits, the loop on a backend that fails
    [k - 1] times and then succeeds, [k] within the attempts left, makes
    exactly [k] calls and returns no error. *)
Lemma retryLoop_succeeds p ctx i batch n :
  ∀ k attempt b lastErr w,
  notDoneDuring ctx (waits w) (k - 1) →
  succeedsAtAttempt ctx batch b k → (k ≤ n)%nat →
  let r := retryLoop p ctx i batch n attempt b lastErr w in
  r.1.1 = afterWrites ctx batch k b ∧ r.1.2 = None ∧
  writeCalls (trace r.2) = writeCalls (trace w) ++ replicate k (i, batch).
Proof.
  induction n as [|n IH]; intros k attempt b lastErr w Hctx (Hk & Hfail & Hok) Hkn r.
  - lia.
  - subst r. rewrite retryLoop_unfold.
    destruct k as [|k]; [lia|]. simpl in Hok, Hfail. rewrite Nat.sub_0_r in Hok, Hfail.
    destruct k as [|k].
    + rewrite attemptErr_0 in Hok. simpl afterWrites.
      destruct (Write b ctx batch) as [b' err]; simpl in *. subst err. simpl.
      by rewrite writeCalls_snoc_write.
    + pose proof (Hfail 0%nat ltac:(lia)) as H0. rewrite attemptErr_0 in H0.
      assert (Hs : succeedsAtAttempt ctx batch (Write b ctx batch).1 (S k)).
      { split; [lia|]. simpl. rewrite Nat.sub_0_r. split.
        - intros j Hj. rewrite <- attemptErr_S. apply Hfail. lia.
        - rewrite <- attemptErr_S. exact Hok. }
      simpl afterWrites.
      destruct (Write b ctx batch) as [b' [e|]]; simpl in *; [|done].
      destruct (attempt <? retryAttempts p).
      * rewrite (Hctx (waits w)) by lia. simpl.
        edestruct (IH (S k) (attempt + 1) b' (Some e)) as (-> & -> & ->); [| exact Hs | lia |].
        { intros m Hm. apply Hctx. simpl in Hm. lia. }
        simpl. rewrite writeCalls_snoc_wait, writeCalls_snoc_log, writeCalls_snoc_write.
        by rewrite <- app_assoc.
      * edestruct (IH (S k) (attempt + 1) b' (Some e)) as (-> & -> & ->); [| exact Hs | lia |].
        { intros m Hm. apply Hctx. simpl in Hm. lia. }
        simpl. rewrite writeCalls_snoc_write.
        by rewrite <- app_assoc.
Qed.

(** The outcome of the retry loop depends on the world only through the
    wait counter, and not on the backend's position. *)
Lemma retryLoop_indep p ctx batch n :
  ∀ i1 i2 attempt b lastErr w1 w2,
  waits w1 = waits w2 →
  (retryLoop p ctx i1 batch n attempt b lastErr w1).1
  = (retryLoop p ctx i2 batch n attempt b lastErr w2).1 ∧
  waits (retryLoop p ctx i1 batch n attempt b lastErr w1).2
  = waits (retryLoop p ctx i2 batch n attempt b lastErr w2).2.
Proof.
  induction n as [|n IH]; intros i1 i2 attempt b lastErr w1 w2 Hw; [done|].
  rewrite !retryLoop_unfold.
  destruct (Write b ctx batch) as [b' [e|]]; simpl; [|done].
  destruct (attempt <? retryAttempts p).
  - rewrite Hw. destruct (ctxDone ctx (waits w2)); simpl; [done|].
    apply IH. done.
  - apply IH. done.
Qed.

(** The loops read the pipeline's retry settings only. *)
Lemma retryLoop_params p q ctx i batch n :
  retryAttempts p = retryAttempts q → retryDelay p = retryDelay q →
  ∀ attempt b lastErr w,
  retryLoop p ctx i batch n attempt b lastErr w
  = retryLoop q ctx i batch n attempt b lastErr w.
Proof.
  intros Ha Hd. induction n as [|n IH]; intros attempt b lastErr w; [done|].
  rewrite !retryLoop_unfold. rewrite Ha, Hd.
  destruct (Write b ctx batch) as [b' [e|]]; simpl; [|done].
  destruct (attempt <? retryAttempts q).
  - destruct (ctxDone ctx (waits w)); simpl; [done|]. apply IH.
  - apply IH.
Qed.

Lemma writeWithRetry_attempts p ctx batch from i b w :
  (from ≤ waits w)%nat →
  let rw := writeWithRetry p ctx i b batch w in
  ∃ c, writeCalls (trace rw.2) = writeCalls (trace w) ++ replicate c (i, batch) ∧
       attemptsAsExpected p ctx batch from b c ∧ (waits w ≤ waits rw.2)%nat.
Proof.
  intros Hw rw. subst rw. unfold writeWithRetry.
  destruct (retryLoop_calls p ctx i batch (Z.to_nat (retryAttempts p)) 1 b None w)
    as (c & Hc & Hle & Hpos & Hmono).
  exists c. split; [exact Hc|]. split; [|exact Hmono].
  repeat split; try assumption.
  - intros Hctx Hfail.
    destruct (retryLoop_all_fail p ctx i batch (Z.to_nat (retryAttempts p)) 1 b None w)
      as (_ & _ & Hn); [|exact Hfail|].
    + intros m Hm. apply Hctx. lia.
    + rewrite Hc in Hn. by apply replicate_app_inv in Hn.
  - intros Hctx k Hk Hkn.
    destruct (retryLoop_succeeds p ctx i batch (Z.to_nat (retryAttempts p)) k 1 b None w)
      as (_ & _ & Hn); [|exact Hk|exact Hkn|].
    + intros m Hm. apply Hctx. lia.
    + rewrite Hc in Hn. by apply replicate_app_inv in Hn.
Qed.

(** *** The loop over the backends *)

Lemma flushBackends_nil p ctx batch i lastErr w :
  flushBackends p ctx batch i [] lastErr w = (([], lastErr), w).
Proof. reflexivity. Qed.

Lemma flushBackends_cons p ctx batch i b rest lastErr w :
  flushBackends p ctx batch i (b :: rest) lastErr w =
  if Healthy b then
    let rw := writeWithRetry p ctx i b batch w in
    match rw.1.2 with
    | Some e =>
        let w1 := mkWorld (waits rw.2)
                    (trace rw.2 ++ [EvLog LevelError "backend write failed"]) in
        let r := flushBackends p ctx batch (S i) rest (Some e) w1 in
        ((rw.1.1 :: r.1.1, r.1.2), r.2)
    | None =>
        let r := flushBackends p ctx batch (S i) rest lastErr rw.2 in
        ((rw.1.1 :: r.1.1, r.1.2), r.2)
    end
  else
    let w1 := mkWorld (waits w)
                (trace w ++ [EvLog LevelWarn "skipping unhealthy backend"]) in
    let r := flushBackends p ctx batch (S i) rest lastErr w1 in
    ((b :: r.1.1, r.1.2), r.2).
Proof.
  simpl. destruct (Healthy b); simpl.
  - run. destruct (writeWithRetry p ctx i b batch w) as [[b' [e|]] w']; simpl.
    + destruct (flushBackends _ _ _ _ _ _ _) as [[? ?] ?]. reflexivity.
    + destruct (flushBackends _ _ _ _ _ _ _) as [[? ?] ?]. reflexivity.
  - run. destruct (flushBackends _ _ _ _ _ _ _) as [[? ?] ?]. reflexivity.
Qed.

(** The calls of one flush, backend by backend: [Q b c] is what is known
    of the number [c] of calls a healthy backend [b] receives. *)
Lemma flushBackends_calls p ctx batch (Q : Backend → nat → Prop) (w0 : nat) :
  (∀ i b w, (w0 ≤ waits w)%nat → Healthy b = true →
     let rw := writeWithRetry p ctx i b batch w in
     ∃ c, writeCalls (trace rw.2) = writeCalls (trace w) ++ replicate c (i, batch) ∧
          Q b c ∧ (waits w ≤ waits rw.2)%nat) →
  ∀ bs i lastErr w, (w0 ≤ waits w)%nat →
  let r := flushBackends p ctx batch i bs lastErr w in
  ∃ calls, writeCalls (trace r.2) = writeCalls (trace w) ++ calls ∧
    Forall (λ c, (i ≤ c.1)%nat ∧ c.2 = batch) calls ∧
    StronglySorted (λ a c, (a.1 ≤ c.1)%nat) calls ∧
    (waits w ≤ waits r.2)%nat ∧
    ∀ j b, bs !! j = Some b →
      if Healthy b then Q b (callsTo (i + j) calls)
      else callsTo (i + j) calls = 0%nat.
Proof.
  intros HQ bs. induction bs as [|b rest IH]; intros i lastErr w Hw r.
  - exists []. subst r. simpl. rewrite app_nil_r.
    repeat split; [constructor | constructor | lia | intros j b Hj; inversion Hj].
  - subst r. rewrite flushBackends_cons.
    destruct (Healthy b) eqn:Hh.
    + destruct (HQ i b w Hw Hh) as (c & Hc & HQc & Hwc).
      destruct (writeWithRetry p ctx i b batch w) as [[b' err] w'] eqn:Hrw.
      set (rw := (b', err, w')) in *.
      assert (Hrest : ∀ lastErr' w1, waits w1 = waits rw.2 →
                writeCalls (trace w1) = writeCalls (trace rw.2) →
                let r := flushBackends p ctx batch (S i) rest lastErr' w1 in
                ∃ calls, writeCalls (trace r.2) = writeCalls (trace w) ++ calls ∧
                  Forall (λ c, (i ≤ c.1)%nat ∧ c.2 = batch) calls ∧
                  StronglySorted (λ a c, (a.1 ≤ c.1)%nat) calls ∧
                  (waits w ≤ waits r.2)%nat ∧
                  ∀ j b0, (b :: rest) !! j = Some b0 →
                    if Healthy b0 then Q b0 (callsTo (i + j) calls)
                    else callsTo (i + j) calls = 0%nat).
      { intros lastErr' w1 Hw1 Htr r.
        destruct (IH (S i) lastErr' w1 ltac:(lia)) as (calls & Hcalls & Hall & Hsort & Hwr & Hper).
        fold r in Hcalls, Hwr.
        assert (Hlo : Forall (λ x : nat * list Metric, (S i ≤ x.1)%nat) calls).
        { eapply Forall_impl; [exact Hall|]. simpl. tauto. }
        exists (replicate c (i, batch) ++ calls).
        split; [by rewrite Hcalls, Htr, Hc, app_assoc|].
        split.
        { apply Forall_app. split.
          - apply Forall_replicate. simpl. split; [lia|done].
          - eapply Forall_impl; [exact Hall|]. simpl. intros ? [? ?]. split; [lia|done]. }
        split; [by apply replicate_sorted_app|].
        split; [lia|].
        intros [|j] b0 Hj; simpl in Hj.
        - inversion Hj; subst b0. rewrite Hh.
          rewrite Nat.add_0_r, callsTo_app, callsTo_replicate_eq.
          rewrite (callsTo_below i (S i)) by (assumption || lia).
          by rewrite Nat.add_0_r.
        - specialize (Hper j b0 Hj).
          rewrite callsTo_app, callsTo_replicate_ne by lia.
          replace (i + S j)%nat with (S i + j)%nat by lia. exact Hper. }
      subst rw. cbn [fst snd] in *. destruct err as [e|]; cbv zeta; cbn [fst snd].
      * apply (Hrest (Some e)); simpl; [done | by rewrite writeCalls_snoc_log].
      * apply (Hrest lastErr); done.
    + simpl.
      destruct (IH (S i) lastErr
                  (mkWorld (waits w) (trace w ++ [EvLog LevelWarn "skipping unhealthy backend"]))
                  Hw) as (calls & Hcalls & Hall & Hsort & Hwr & Hper).
      simpl in *. rewrite writeCalls_snoc_log in Hcalls.
      exists calls. split; [exact Hcalls|].
      split.
      { eapply Forall_impl; [exact Hall|]. simpl. intros ? [? ?]. split; [lia|done]. }
      split; [exact Hsort|]. split; [exact Hwr|].
      intros [|j] b0 Hj; simpl in Hj.
      * inversion Hj; subst b0. rewrite Hh. rewrite Nat.add_0_r.
        apply (callsTo_below i (S i)); [|lia].
        eapply Forall_impl; [exact Hall|]. simpl. tauto.
      * specialize (Hper j b0 Hj).
        replace (i + S j)%nat with (S i + j)%nat by lia. exact Hper.
Qed.

Lemma flushBackends_err_sticky p ctx batch bs :
  ∀ i lastErr w, lastErr ≠ None →
  (flushBackends p ctx batch i bs lastErr w).1.2 ≠ None.
Proof.
  induction bs as [|b rest IH]; intros i lastErr w Hl; [exact Hl|].
  rewrite flushBackends_cons.
  destruct (Healthy b); cbv zeta.
  - destruct (writeWithRetry p ctx i b batch w) as [[b' [e|]] w']; cbn [fst snd];
      apply IH; done.
  - cbn [fst snd]. by apply IH.
Qed.

Lemma flushBackends_err_fail p ctx batch bs :
  ∀ j b i lastErr w,
  bs !! j = Some b → Healthy b = true →
  (0 < Z.to_nat (retryAttempts p))%nat →
  (∀ k, (k < Z.to_nat (retryAttempts p))%nat → attemptErr ctx batch b k ≠ None) →
  (flushBackends p ctx batch i bs lastErr w).1.2 ≠ None.
Proof.
  induction bs as [|b0 rest IH]; intros j b i lastErr w Hj Hh Hn Hfail;
    [inversion Hj|].
  rewrite flushBackends_cons.
  destruct j as [|j]; simpl in Hj.
  - inversion Hj; subst b0. rewrite Hh. cbv zeta.
    pose proof (retryLoop_fail_err p ctx i batch _ 1 b None w Hfail (or_introl Hn)) as He.
    fold (writeWithRetry p ctx i b batch w) in He.
    destruct (writeWithRetry p ctx i b batch w) as [[b' [e|]] w']; cbn [fst snd] in *;
      [|done].
    by apply flushBackends_err_sticky.
  - destruct (Healthy b0); cbv zeta.
    + destruct (writeWithRetry p ctx i b0 batch w) as [[b' [e|]] w']; cbn [fst snd];
        eapply IH; eassumption.
    + cbn [fst snd]. eapply IH; eassumption.
Qed.

(** Backends that succeed at their first attempt leave the error as it
    was. *)
Lemma flushBackends_err_pass p ctx batch bs :
  ∀ i lastErr w,
  (0 < Z.to_nat (retryAttempts p))%nat →
  (∀ j b, bs !! j = Some b → Healthy b = true → attemptErr ctx batch b 0 = None) →
  (flushBackends p ctx batch i bs lastErr w).1.2 = lastErr.
Proof.
  induction bs as [|b rest IH]; intros i lastErr w Hn Hok; [reflexivity|].
  rewrite flushBackends_cons.
  assert (Hrest : ∀ j b0, rest !! j = Some b0 → Healthy b0 = true →
                          attemptErr ctx batch b0 0 = None).
  { intros j b0 Hj. apply (Hok (S j)). exact Hj. }
  destruct (Healthy b) eqn:Hh; cbv zeta.
  - assert (Hs : succeedsAtAttempt ctx batch b 1).
    { split; [lia|]. split; [intros j Hj; simpl in Hj; lia|].
      simpl. by apply (Hok 0%nat). }
    destruct (retryLoop_succeeds p ctx i batch (Z.to_nat (retryAttempts p)) 1 1 b None w)
      as (_ & He & _); [|exact Hs|lia|].
    { intros m Hm. simpl in Hm. lia. }
    fold (writeWithRetry p ctx i b batch w) in He.
    destruct (writeWithRetry p ctx i b batch w) as [[b' err] w']; cbn [fst snd] in *.
    subst err. cbn [fst snd]. by apply IH.
  - cbn [fst snd]. by apply IH.
Qed.

(** The error of the last failing backend is the one returned. *)
Lemma flushBackends_err_last p ctx batch bs :
  ∀ j b i lastErr w,
  notDoneFrom ctx (waits w) →
  bs !! j = Some b → Healthy b = true →
  (0 < Z.to_nat (retryAttempts p))%nat →
  (∀ k, (k < Z.to_nat (retryAttempts p))%nat → attemptErr ctx batch b k ≠ None) →
  (∀ j' b', (j < j')%nat → bs !! j' = Some b' → Healthy b' = true →
            attemptErr ctx batch b' 0 = None) →
  (flushBackends p ctx batch i bs lastErr w).1.2
  = attemptErr ctx batch b (Z.to_nat (retryAttempts p) - 1).
Proof.
  induction bs as [|b0 rest IH]; intros j b i lastErr w Hctx Hj Hh Hn Hfail Hlater;
    [inversion Hj|].
  rewrite flushBackends_cons.
  destruct j as [|j]; simpl in Hj.
  - inversion Hj; subst b0. rewrite Hh. cbv zeta.
    destruct (retryLoop_all_fail p ctx i batch (Z.to_nat (retryAttempts p)) 1 b None w)
      as (_ & He & _); [|exact Hfail|].
    { intros m Hm. apply Hctx. lia. }
    fold (writeWithRetry p ctx i b batch w) in He.
    destruct (Z.to_nat (retryAttempts p)) as [|n] eqn:Hnn; [lia|].
    simpl. rewrite Nat.sub_0_r.
    pose proof (Hfail n ltac:(lia)) as Hne.
    destruct (writeWithRetry p ctx i b batch w) as [[b' err] w']; cbn [fst snd] in *.
    subst err. destruct (attemptErr ctx batch b n) as [e|] eqn:Hen; [|done].
    cbn [fst snd]. apply flushBackends_err_pass; [lia|].
    intros j' b0 Hj'. apply (Hlater (S j')); [lia|exact Hj'].
  - assert (Hlater' : ∀ j' b', (j < j')%nat → rest !! j' = Some b' →
                      Healthy b' = true → attemptErr ctx batch b' 0 = None).
    { intros j' b' Hlt Hj'. apply (Hlater (S j')); [lia|exact Hj']. }
    destruct (Healthy b0) eqn:Hh0; cbv zeta.
    + destruct (retryLoop_calls p ctx i batch (Z.to_nat (retryAttempts p)) 1 b0 None w)
        as (c & _ & _ & _ & Hmono).
      fold (writeWithRetry p ctx i b0 batch w) in Hmono.
      destruct (writeWithRetry p ctx i b0 batch w) as [[b' [e|]] w']; cbn [fst snd] in *.
      * eapply IH; try eassumption. intros m Hm. apply Hctx. simpl in Hm. lia.
      * eapply IH; try eassumption. intros m Hm. apply Hctx. lia.
    + cbn [fst snd]. eapply IH; try eassumption.
Qed.

Lemma flushBackends_unhealthy_kept p ctx batch bs :
  ∀ j b i lastErr w,
  bs !! j = Some b → Healthy b = false →
  (flushBackends p ctx batch i bs lastErr w).1.1 !! j = Some b.
Proof.
  induction bs as [|b0 rest IH]; intros j b i lastErr w Hj Hh; [inversion Hj|].
  rewrite flushBackends_cons.
  destruct j as [|j]; simpl in Hj.
  - inversion Hj; subst b0. rewrite Hh. reflexivity.
  - destruct (Healthy b0); cbv zeta.
    + destruct (writeWithRetry p ctx i b0 batch w) as [[b' [e|]] w']; cbn [fst snd];
        simpl; eapply IH; eassumption.
    + cbn [fst snd]. simpl. eapply IH; eassumption.
Qed.

Lemma flushBackends_indep p ctx batch bs :
  ∀ i1 i2 lastErr w1 w2,
  waits w1 = waits w2 →
  (flushBackends p ctx batch i1 bs lastErr w1).1
  = (flushBackends p ctx batch i2 bs lastErr w2).1 ∧
  waits (flushBackends p ctx batch i1 bs lastErr w1).2
  = waits (flushBackends p ctx batch i2 bs lastErr w2).2.
Proof.
  induction bs as [|b rest IH]; intros i1 i2 lastErr w1 w2 Hw; [done|].
  rewrite !flushBackends_cons.
  destruct (Healthy b); cbv zeta.
  - destruct (retryLoop_indep p ctx batch (Z.to_nat (retryAttempts p)) i1 i2 1 b None w1 w2 Hw)
      as [Hr Hwr].
    fold (writeWithRetry p ctx i1 b batch w1) in Hr, Hwr.
    fold (writeWithRetry p ctx i2 b batch w2) in Hr, Hwr.
    destruct (writeWithRetry p ctx i1 b batch w1) as [[b1 e1] w1'].
    destruct (writeWithRetry p ctx i2 b batch w2) as [[b2 e2] w2'].
    cbn [fst snd] in *. inversion Hr; subst b2 e2.
    destruct e1 as [e|]; cbn [fst snd].
    + edestruct (IH (S i1) (S i2) (Some e)) as [-> ->]; [|done]. done.
    + edestruct (IH (S i1) (S i2) lastErr w1' w2') as [-> ->]; done.
  - cbn [fst snd].
    edestruct (IH (S i1) (S i2) lastErr) as [-> ->]; [|done]. done.
Qed.

(** Removing an unhealthy backend from the list changes neither the error
    the loop returns nor the number of waits it goes through. *)
Lemma flushBackends_skip p ctx batch bs :
  ∀ j b i lastErr w,
  bs !! j = Some b → Healthy b = false →
  (flushBackends p ctx batch i bs lastErr w).1.2
  = (flushBackends p ctx batch i (delete j bs) lastErr w).1.2 ∧
  waits (flushBackends p ctx batch i bs lastErr w).2
  = waits (flushBackends p ctx batch i (delete j bs) lastErr w).2.
Proof.
  induction bs as [|b0 rest IH]; intros j b i lastErr w Hj Hh; [inversion Hj|].
  destruct j as [|j]; simpl in Hj.
  - inversion Hj; subst b0. rewrite flushBackends_cons, Hh. cbv zeta. cbn [fst snd].
    change (delete 0%nat (b :: rest)) with rest.
    edestruct (flushBackends_indep p ctx batch rest (S i) i lastErr) as [-> ->]; [|done].
    done.
  - change (delete (S j) (b0 :: rest)) with (b0 :: delete j rest).
    rewrite !flushBackends_cons.
    destruct (Healthy b0); cbv zeta.
    + destruct (writeWithRetry p ctx i b0 batch w) as [[b' [e|]] w']; cbn [fst snd];
        eapply IH; eassumption.
    + cbn [fst snd]. eapply IH; eassumption.
Qed.

Lemma flushBackends_params p q ctx batch bs :
  retryAttempts p = retryAttempts q → retryDelay p = retryDelay q →
  ∀ i lastErr w,
  flushBackends p ctx batch i bs lastErr w
  = flushBackends q ctx batch i bs lastErr w.
Proof.
  intros Ha Hd. induction bs as [|b rest IH]; intros i lastErr w; [done|].
  rewrite !flushBackends_cons. unfold writeWithRetry.
  rewrite (retryLoop_params p q) by assumption. rewrite Ha.
  destruct (Healthy b); cbv zeta.
  - destruct (retryLoop q ctx i batch _ 1 b None w) as [[b' [e|]] w']; cbn [fst snd];
      by rewrite IH.
  - by rewrite IH.
Qed.

(** *** Flush *)

Lemma Flush_empty p ctx w : buffer p = [] → Flush p ctx w = ((p, None), w).
Proof. intros H. unfold Flush. rewrite H. reflexivity. Qed.

Lemma Flush_nonempty p ctx w :
  buffer p ≠ [] →
  Flush p ctx w =
  let w1 := mkWorld (waits w) (trace w ++ [EvLog LevelDebug "flushing metrics"]) in
  let r := flushBackends (setBuffer p []) ctx (buffer p) 0 (backends p) None w1 in
  ((setBackends (setBuffer p []) r.1.1, r.1.2), r.2).
Proof.
  intros H. unfold Flush.
  destruct (decide (length (buffer p) = 0%nat)) as [Hl|_].
  - destruct (buffer p); [done | discriminate].
  - run. destruct (flushBackends _ _ _ _ _ _ _) as [[? ?] ?]. reflexivity.
Qed.

(** A [mockBackend] answers every write with its [writeErr]. *)
Lemma mock_attemptErr ctx batch k :
  ∀ st, attemptErr ctx batch (mkBackend mockBackend mockBackend_ops st) k = writeErr st.
Proof.
  induction k as [|k IH]; intros st; [reflexivity|].
  rewrite attemptErr_S. unfold Write. simpl. by rewrite IH.
Qed.

Lemma downMock_alwaysFails ctx batch : alwaysFails ctx batch downMock.
Proof. intros k. unfold downMock, newMock. by rewrite mock_attemptErr. Qed.

Lemma flaky_succeeds_third ctx batch : succeedsAtAttempt ctx batch flaky 3.
Proof.
  split; [lia|]. split.
  - intros j Hj. simpl in Hj.
    destruct j as [|[|j]]; [vm_compute; discriminate | vm_compute; discriminate | lia].
  - vm_compute. reflexivity.
Qed.

(** C2, as the code has it.  Take a pipeline with a positive retry count
    (every pipeline [NewPipeline] builds), a non-empty buffer, and at
    position [i] a healthy backend whose [Write] fails on every attempt.
    A flush writes to that backend at least once and at most
    [retryAttempts] times, and exactly [retryAttempts] times when the
    context is not done at any wait of the flush; [Flush] returns a non-nil
    error, and it is the error of that backend's last attempt when no
    later backend fails; every healthy backend, before or after the
    failing one, receives at least one [Write]; every call carries the
    flushed buffer, and the calls come in registration order. *)
Theorem Flush_failing_backend (p : Pipeline) (ctx : Context) (w : World)
    (i : nat) (b : Backend) :
  0 < retryAttempts p → buffer p ≠ [] →
  backends p !! i = Some b → Healthy b = true →
  alwaysFails ctx (buffer p) b →
  let r := Flush p ctx w in
  ∃ calls,
    writeCalls (trace r.2) = writeCalls (trace w) ++ calls ∧
    (1 ≤ callsTo i calls ≤ Z.to_nat (retryAttempts p))%nat ∧
    (notDoneFrom ctx (waits w) → Z.of_nat (callsTo i calls) = retryAttempts p) ∧
    r.1.2 ≠ None ∧
    (notDoneFrom ctx (waits w) →
     (∀ j b', (i < j)%nat → backends p !! j = Some b' → Healthy b' = true →
              attemptErr ctx (buffer p) b' 0 = None) →
     r.1.2 = attemptErr ctx (buffer p) b (Z.to_nat (retryAttempts p) - 1)) ∧
    (∀ j b', backends p !! j = Some b' → Healthy b' = true →
             (1 ≤ callsTo j calls)%nat) ∧
    Forall (λ c, c.2 = buffer p) calls ∧
    StronglySorted (λ a c, (a.1 ≤ c.1)%nat) calls.
Proof.
  intros Hn Hbuf Hi Hh Hfail r. subst r.
  rewrite (Flush_nonempty p ctx w Hbuf). cbv zeta. cbn [fst snd].
  set (p' := setBuffer p []).
  set (w1 := mkWorld (waits w) (trace w ++ [EvLog LevelDebug "flushing metrics"])).
  assert (Hn' : (0 < Z.to_nat (retryAttempts p'))%nat) by (simpl; lia).
  destruct (flushBackends_calls p' ctx (buffer p)
              (attemptsAsExpected p' ctx (buffer p) (waits w)) (waits w)
              (λ i0 b0 w0 Hw0 _, writeWithRetry_attempts p' ctx (buffer p) (waits w) i0 b0 w0 Hw0)
              (backends p) 0%nat None w1 (Nat.le_refl _))
    as (calls & Hcalls & Hall & Hsort & Hmono & Hper).
  exists calls. subst w1. simpl in Hcalls. rewrite writeCalls_snoc_log in Hcalls.
  split; [exact Hcalls|].
  pose proof (Hper i b Hi) as Hb. rewrite Hh in Hb. simpl in Hb.
  destruct Hb as (Hle & Hpos & Hall_fail & _).
  split; [simpl in *; lia|].
  split.
  { intros Hctx. rewrite Hall_fail; [simpl; lia | exact Hctx |].
    intros k _. apply Hfail. }
  split.
  { eapply flushBackends_err_fail; try eassumption. intros k _. apply Hfail. }
  split.
  { intros Hctx Hlater.
    eapply (flushBackends_err_last p' ctx (buffer p) (backends p) i b); try eassumption.
    intros k _. apply Hfail. }
  split.
  { intros j b' Hj Hh'. pose proof (Hper j b' Hj) as Hb'. rewrite Hh' in Hb'.
    simpl in Hb'. destruct Hb' as (_ & Hpos' & _). lia. }
  split; [|exact Hsort].
  eapply Forall_impl; [exact Hall|]. simpl. tauto.
Qed.

(** A failing and a working mock behind the default pipeline, under
    [context.Background()]. *)
Lemma Flush_failing_backend_witness :
  (Flush (pipelineOf [downMock; upMock]) Background initialWorld).1.2 ≠ None.
Proof.
  destruct (Flush_failing_backend (pipelineOf [downMock; upMock]) Background
              initialWorld 0 downMock) as (calls & _ & _ & _ & H & _).
  - vm_compute. reflexivity.
  - vm_compute. discriminate.
  - reflexivity.
  - reflexivity.
  - apply downMock_alwaysFails.
  - exact H.
Defined.

(** C2 as stated fails.  Under a context that is already done, the failing
    backend of a pipeline with 3 retry attempts is written to once; and an
    unhealthy backend registered after the failing one receives no
    [Write]. *)
Lemma Flush_cancelled_or_unhealthy :
  (let p := pipelineOf [downMock; upMock] in
   buffer p ≠ [] ∧ backends p !! 0%nat = Some downMock ∧
   Healthy downMock = true ∧ alwaysFails cancelled (buffer p) downMock ∧
   retryAttempts p = 3 ∧
   callsTo 0 (writeCalls (trace (Flush p cancelled initialWorld).2)) = 1%nat) ∧
  (let p := pipelineOf [downMock; sickMock] in
   buffer p ≠ [] ∧ backends p !! 0%nat = Some downMock ∧
   alwaysFails Background (buffer p) downMock ∧
   backends p !! 1%nat = Some sickMock ∧
   callsTo 1 (writeCalls (trace (Flush p Background initialWorld).2)) = 0%nat).
Proof.
  split.
  - split; [vm_compute; discriminate|].
    split; [reflexivity|].
    split; [reflexivity|].
    split; [apply downMock_alwaysFails|].
    split; vm_compute; reflexivity.
  - split; [vm_compute; discriminate|].
    split; [reflexivity|].
    split; [apply downMock_alwaysFails|].
    split; vm_compute; reflexivity.
Qed.

(** C3, as the code has it.  For a backend whose [Write] fails on the
    first [k - 1] attempts and succeeds on attempt [k], with [k] at most
    [retryAttempts], and a context that is not done during the [k - 1]
    waits between those attempts: [writeWithRetry] returns no error after
    exactly [k] calls of the backend's [Write]; and so does a flush of a
    non-empty buffer over that backend alone, when it is healthy. *)
Theorem writeWithRetry_succeeds_at_attempt (p : Pipeline) (ctx : Context)
    (w : World) (i : nat) (b : Backend) (batch : list Metric) (k : nat) :
  succeedsAtAttempt ctx batch b k → Z.of_nat k ≤ retryAttempts p →
  notDoneDuring ctx (waits w) (k - 1) →
  let r := writeWithRetry p ctx i b batch w in
  r.1.2 = None ∧
  writeCalls (trace r.2) = writeCalls (trace w) ++ replicate k (i, batch) ∧
  (backends p = [b] → Healthy b = true → buffer p = batch → batch ≠ [] →
   let f := Flush p ctx w in
   f.1.2 = None ∧
   writeCalls (trace f.2) = writeCalls (trace w) ++ replicate k (0%nat, batch)).
Proof.
  intros Hk Hkn Hctx r. subst r.
  assert (Hkn' : (k ≤ Z.to_nat (retryAttempts p))%nat) by lia.
  destruct (retryLoop_succeeds p ctx i batch (Z.to_nat (retryAttempts p)) k 1 b None w
              Hctx Hk Hkn') as (_ & He & Hc).
  split; [exact He|]. split; [exact Hc|].
  intros Hbs Hh Hbuf Hne f. subst f.
  rewrite Flush_nonempty by (rewrite Hbuf; exact Hne).
  cbv zeta. cbn [fst snd]. rewrite Hbs, Hbuf.
  rewrite flushBackends_cons.
  assert (Hk1 : succeedsAtAttempt ctx batch b k) by exact Hk.
  set (w1 := mkWorld (waits w) (trace w ++ [EvLog LevelDebug "flushing metrics"])).
  destruct (retryLoop_succeeds (setBuffer p []) ctx 0 batch
              (Z.to_nat (retryAttempts p)) k 1 b None w1 Hctx Hk Hkn')
    as (_ & He1 & Hc1).
  change (retryLoop (setBuffer p []) ctx 0 batch (Z.to_nat (retryAttempts p)) 1 b None w1)
    with (writeWithRetry (setBuffer p []) ctx 0 b batch w1) in He1, Hc1.
  rewrite Hh. cbv zeta.
  destruct (writeWithRetry (setBuffer p []) ctx 0 b batch w1) as [[b' err] w'].
  cbn [fst snd] in *. subst err. cbn [fst snd]. simpl.
  split; [reflexivity|]. rewrite Hc1. subst w1. simpl.
  by rewrite writeCalls_snoc_log.
Qed.

(** The backend of [TestPipelineRetry], which succeeds at its third call. *)
Lemma writeWithRetry_succeeds_at_attempt_witness :
  (writeWithRetry (NewPipeline DefaultPipelineConfig) Background 0 flaky [cpu]
                  initialWorld).1.2 = None.
Proof.
  destruct (writeWithRetry_succeeds_at_attempt (NewPipeline DefaultPipelineConfig)
              Background initialWorld 0 flaky [cpu] 3) as (H & _).
  - apply flaky_succeeds_third.
  - vm_compute. discriminate.
  - intros m Hm. reflexivity.
  - exact H.
Defined.

(** C3 as stated fails.  Under a context that is already done, the backend
    that would succeed at its third attempt is written to once and the
    cancellation error is returned; and a flush over that backend alone
    makes no call at all when the backend is unhealthy or the buffer
    empty. *)
Lemma writeWithRetry_cancelled_or_skipped :
  (let p := NewPipeline DefaultPipelineConfig in
   let r := writeWithRetry p cancelled 0 flaky [cpu] initialWorld in
   succeedsAtAttempt cancelled [cpu] flaky 3 ∧ 3 ≤ retryAttempts p ∧
   r.1.2 = Some Canceled ∧ callsTo 0 (writeCalls (trace r.2)) = 1%nat) ∧
  (let p := pipelineOf [flakySick] in
   succeedsAtAttempt Background (buffer p) flakySick 3 ∧ 3 ≤ retryAttempts p ∧
   backends p = [flakySick] ∧
   callsTo 0 (writeCalls (trace (Flush p Background initialWorld).2)) = 0%nat) ∧
  (let p := AddBackend (NewPipeline DefaultPipelineConfig) flaky in
   succeedsAtAttempt Background (buffer p) flaky 3 ∧ 3 ≤ retryAttempts p ∧
   backends p = [flaky] ∧
   callsTo 0 (writeCalls (trace (Flush p Background initialWorld).2)) = 0%nat).
Proof.
  split; [|split].
  - split; [apply flaky_succeeds_third|].
    split; [vm_compute; discriminate|].
    split; vm_compute; reflexivity.
  - split.
    { split; [lia|]. split.
      - intros j Hj. simpl in Hj.
        destruct j as [|[|j]];
          [vm_compute; discriminate | vm_compute; discriminate | lia].
      - vm_compute. reflexivity. }
    split; [vm_compute; discriminate|].
    split; vm_compute; reflexivity.
  - split; [apply flaky_succeeds_third|].
    split; [vm_compute; discriminate|].
    split; vm_compute; reflexivity.
Qed.

(** C5.  In any flush, whatever the buffer, the context and the other
    backends, a backend at position [i] whose [Healthy] reports false
    receives no [Write] call and is left as it was; the error the flush
    returns and the number of retry waits it goes through are those of the
    same flush over the pipeline without that backend. *)
Theorem Flush_skips_unhealthy (p : Pipeline) (ctx : Context) (w : World)
    (i : nat) (b : Backend) :
  backends p !! i = Some b → Healthy b = false →
  let r := Flush p ctx w in
  let without := Flush (setBackends p (delete i (backends p))) ctx w in
  ∃ calls,
    writeCalls (trace r.2) = writeCalls (trace w) ++ calls ∧
    callsTo i calls = 0%nat ∧
    backends r.1.1 !! i = Some b ∧
    r.1.2 = without.1.2 ∧
    waits r.2 = waits without.2.
Proof.
  intros Hi Hh r without. subst r without.
  destruct (decide (buffer p = [])) as [He|Hne].
  - rewrite !Flush_empty by (simpl; exact He). cbn [fst snd].
    exists []. rewrite app_nil_r. done.
  - rewrite (Flush_nonempty p ctx w Hne).
    rewrite (Flush_nonempty (setBackends p (delete i (backends p))) ctx w)
      by (simpl; exact Hne).
    cbv zeta. cbn [fst snd].
    set (p' := setBuffer p []).
    set (w1 := mkWorld (waits w) (trace w ++ [EvLog LevelDebug "flushing metrics"])).
    destruct (flushBackends_calls p' ctx (buffer p)
                (attemptsAsExpected p' ctx (buffer p) (waits w)) (waits w)
                (λ i0 b0 w0 Hw0 _, writeWithRetry_attempts p' ctx (buffer p) (waits w) i0 b0 w0 Hw0)
                (backends p) 0%nat None w1 (Nat.le_refl _))
      as (calls & Hcalls & Hall & Hsort & Hmono & Hper).
    exists calls. simpl in Hcalls. rewrite writeCalls_snoc_log in Hcalls.
    split; [exact Hcalls|].
    pose proof (Hper i b Hi) as Hb. rewrite Hh in Hb. simpl in Hb.
    split; [exact Hb|].
    split; [simpl; by apply flushBackends_unhealthy_kept|].
    simpl buffer. simpl backends.
    destruct (flushBackends_skip p' ctx (buffer p) (backends p) i b 0 None w1 Hi Hh)
      as [He Hw].
    rewrite (flushBackends_params
               (setBuffer (setBackends p (delete i (backends p))) []) p')
      by reflexivity.
    split; [exact He | exact Hw].
Qed.

(** An unhealthy mock registered before a working one. *)
Lemma Flush_skips_unhealthy_witness :
  ∃ calls,
    writeCalls (trace (Flush (pipelineOf [sickMock; upMock]) Background
                             initialWorld).2) = calls ∧
    callsTo 0 calls = 0%nat.
Proof.
  destruct (Flush_skips_unhealthy (pipelineOf [sickMock; upMock]) Background
              initialWorld 0 sickMock) as (calls & Hc & H0 & _).
  - reflexivity.
  - reflexivity.
  - exists calls. split; [exact Hc | exact H0].
Defined.

(** *** Reload *)



(** *** Construction and start-up *)




(** *** Run-once *)

(** Closing the backends neither writes nor collects. *)
Lemma closeBackends_calls bs :
  ∀ i lastErr w,
  writeCalls (trace (closeBackends i bs lastErr w).2) = writeCalls (trace w) ∧
  collections (trace (closeBackends i bs lastErr w).2) = collections (trace w).
Proof.
  induction bs as [|b rest IH]; intros i lastErr w; [done|].
  simpl. run. destruct (Close b) as [b' [e|]]; run.
  - destruct (closeBackends (S i) rest (Some e) _) as [[? ?] w'] eqn:E.
    simpl. specialize (IH (S i) (Some e)
      (mkWorld (waits w) ((trace w ++ [EvClose i]) ++ [EvLog LevelError "backend close failed"]))).
    rewrite E in IH. simpl in IH. destruct IH as [-> ->].
    unfold collections. rewrite !writeCalls_app, !filter_app. simpl.
    rewrite !app_nil_r. done.
  - destruct (closeBackends (S i) rest lastErr _) as [[? ?] w'] eqn:E.
    simpl. specialize (IH (S i) lastErr (mkWorld (waits w) (trace w ++ [EvClose i]))).
    rewrite E in IH. simpl in IH. destruct IH as [-> ->].
    unfold collections. rewrite !writeCalls_app, !filter_app. simpl.
    rewrite !app_nil_r. done.
Qed.

(** Starting a pipeline whose one backend initialises. *)
Lemma Start_single p ctx w b b1 :
  backends p = [b] → Initialize b ctx = (b1, None) →
  Start p ctx w
  = ((setBackends p [b1], None),
     mkWorld (waits w)
       (trace w ++ [EvInitialize 0; EvLog LevelInfo "backend initialized";
                    EvGo GoFlushLoop])).
Proof.
  intros Hb HI. unfold Start. rewrite Hb. simpl. run. rewrite HI. run.
  by rewrite <- !app_assoc.
Qed.

(** One collection of two valid metrics into an empty buffer. *)
Lemma collect_two m ctx w p l c' m1 m2 elapsed :
  Monitor.pipeline m = Some p → Monitor.logger m = Some l →
  callCollector (Monitor.collector m) ctx
    = (c', mkOutcome [m1; m2] None elapsed) →
  MetricM.Validate m1 = None → MetricM.Validate m2 = None →
  buffer p = [] → 2 < batchSize p →
  collect m ctx w
  = (Ok (Monitor.setPipeline
           (Monitor.setStats (Monitor.setCollector m c')
              (recordPoll (Monitor.stats m) true 2 elapsed))
           (Some (setBuffer p [m1; m2]))),
     mkWorld (waits w)
       (trace w ++ [EvCollect; EvLog LevelInfo "poll completed"])).
Proof.
  intros Hp Hl Hcol Hv1 Hv2 Hbuf Hsz.
  unfold collect. run. rewrite Hcol. simpl. rewrite Hp, Hl. run.
  rewrite (Push_valid p m1) by (rewrite ?Hbuf; simpl; assumption || lia).
  rewrite (Push_valid _ m2) by (simpl; rewrite ?Hbuf; simpl; assumption || lia).
  simpl. rewrite Hbuf. simpl. by rewrite <- !app_assoc.
Qed.

(** Stopping a pipeline whose one healthy backend accepts the buffer. *)
Lemma Stop_single p ctx w b1 batch :
  backends p = [b1] → buffer p = batch → batch ≠ [] →
  Healthy b1 = true → (Write b1 ctx batch).2 = None →
  0 < retryAttempts p →
  ∃ p' err w',
    Stop p ctx w = ((p', err), w') ∧
    writeCalls (trace w') = writeCalls (trace w) ++ [(0%nat, batch)] ∧
    collections (trace w') = collections (trace w).
Proof.
  intros Hb Hbuf Hne Hh Hwr Hn.
  unfold Stop. unfold bind at 1.
  rewrite Flush_nonempty by (simpl; rewrite Hbuf; exact Hne).
  cbv zeta. simpl buffer. simpl backends. rewrite Hb, Hbuf.
  rewrite flushBackends_cons, Hh. cbv zeta.
  unfold writeWithRetry. simpl retryAttempts.
  destruct (Z.to_nat (retryAttempts p)) as [|n] eqn:En; [lia|].
  rewrite retryLoop_unfold. cbv zeta.
  destruct (Write b1 ctx batch) as [b2 e]. simpl in Hwr. subst e.
  cbn [fst snd]. rewrite flushBackends_nil. cbn [fst snd].
  cbv beta iota zeta delta [bind ret log emit fst snd].
  match goal with
  | |- context [closeBackends ?i ?bs ?e ?w0] =>
      pose proof (closeBackends_calls bs i e w0) as Hcl;
      destruct (closeBackends i bs e w0) as [[bs' e'] w']
  end.
  eexists _, _, _. split; [reflexivity|].
  cbn [fst snd] in Hcl. destruct Hcl as [-> ->]. simpl.
  rewrite writeCalls_snoc_write, writeCalls_snoc_log.
  split; [done|].
  rewrite !collections_snoc_other by reflexivity. done.
Qed.

Lemma pipeline_setPipeline m p : Monitor.pipeline (Monitor.setPipeline m p) = p.
Proof. reflexivity. Qed.

(** Run-once: one collection, then the return. *)
Lemma runStarted_once (ToLower : string → string)
    (ReadFile : string → string * error)
    (Unmarshal : string → Config → Config * error)
    env m w p l c' m1 m2 elapsed :
  Monitor.pipeline m = Some p → Monitor.logger m = Some l →
  Monitor.runOnce m = true →
  callCollector (Monitor.collector m) (sigCtx env)
    = (c', mkOutcome [m1; m2] None elapsed) →
  MetricM.Validate m1 = None → MetricM.Validate m2 = None →
  buffer p = [] → 2 < batchSize p →
  runStarted ToLower ReadFile Unmarshal env m w
  = ((Monitor.setPipeline
        (Monitor.setStats
           (Monitor.setCollector
              (Monitor.setSignals m (Some (NewSignalHandler (Monitor.logger m))))
              c')
           (recordPoll (Monitor.stats m) true 2 elapsed))
        (Some (setBuffer p [m1; m2])),
      Returned None),
     mkWorld (waits w)
       (trace w ++ [EvGo GoSignals; EvCollect; EvLog LevelInfo "poll completed"])).
Proof.
  intros Hp Hl Hro Hcol Hv1 Hv2 Hbuf Hsz.
  unfold runStarted.
  cbv beta iota zeta delta [bind ret log emit].
  rewrite (collect_two _ (sigCtx env) _ p l c' m1 m2 elapsed);
    try assumption.
  simpl. rewrite Hro. by rewrite <- !app_assoc.
Qed.

(** The whole of a run-once [Run] up to the deferred stop. *)
Lemma Run_once_unfolded (ToLower : string → string)
    (ToLineProtocol : Metric → string)
    (ReadFile : string → string * error)
    (Unmarshal : string → Config → Config * error)
    (m : Monitor.t) (ctx : Context) (env : RunEnv) (w : World)
    (l : Logger) (cfg : Config) (b b1 : Backend) (c' : Collector)
    (m1 m2 : Metric) (elapsed : Z) :
  Monitor.logger m = Some l → Monitor.cfg m = Some cfg →
  GlobalConfig.BatchSize (Global cfg) = 10 →
  Monitor.runOnce m = true → Monitor.echoMode m = false →
  Monitor.backends m = [b] →
  callCollector (Monitor.collector m) (sigCtx env)
    = (c', mkOutcome [m1; m2] None elapsed) →
  MetricM.Validate m1 = None → MetricM.Validate m2 = None →
  Initialize b ctx = (b1, None) →
  ∃ p mC,
    backends p = [b1] ∧ buffer p = [m1; m2] ∧ 0 < retryAttempts p ∧
    Monitor.pipeline mC = Some p ∧
    Monitor.stats mC = recordPoll (Monitor.stats m) true 2 elapsed ∧
    ∀ events,
    Run ToLower ToLineProtocol ReadFile Unmarshal m ctx (withEvents env events) w
    = let (m', w') :=
        deferredStop env mC
          (mkWorld (waits w)
             (trace w ++ [EvLog LevelInfo "starting monitor"; EvInitialize 0;
                          EvLog LevelInfo "backend initialized";
                          EvGo GoFlushLoop; EvGo GoSignals; EvCollect;
                          EvLog LevelInfo "poll completed"])) in
      ((m', Returned None), w').
Proof.
  intros Hl Hc Hbs Hro He Hb Hcol Hv1 Hv2 HI.
  set (p0 := NewPipeline
               {| PipelineConfig.BatchSize := GlobalConfig.BatchSize (Global cfg);
                  PipelineConfig.FlushInterval := GlobalConfig.PollInterval (Global cfg);
                  PipelineConfig.RetryAttempts := GlobalConfig.RetryAttempts (Global cfg);
                  PipelineConfig.RetryDelay := GlobalConfig.RetryDelay (Global cfg);
                  PipelineConfig.Logger := Some l |}).
  set (p1 := setBackends (AddBackend p0 b) [b1]).
  set (mA := Monitor.setPipeline
               (Monitor.setPipeline (Monitor.setPipeline m (Some p0))
                  (Some (AddBackend p0 b))) (Some p1)).
  exists (setBuffer p1 [m1; m2]).
  exists (Monitor.setPipeline
            (Monitor.setStats
               (Monitor.setCollector
                  (Monitor.setSignals mA (Some (NewSignalHandler (Monitor.logger mA))))
                  c')
               (recordPoll (Monitor.stats mA) true 2 elapsed))
            (Some (setBuffer p1 [m1; m2]))).
  assert (Hpos : 0 < retryAttempts p0) by apply NewPipeline_positive.
  assert (Hsz : batchSize p0 = 10).
  { subst p0. unfold NewPipeline. simpl. rewrite Hbs. reflexivity. }
  split; [reflexivity|]. split; [reflexivity|]. split; [exact Hpos|].
  split; [reflexivity|]. split; [reflexivity|].
  intros events.
  unfold Run. rewrite Hl, Hc. fold p0.
  cbv beta iota zeta delta [bind ret log emit].
  assert (HA : addBackends ToLineProtocol (Monitor.setPipeline m (Some p0))
               = Ok (Monitor.setPipeline (Monitor.setPipeline m (Some p0))
                       (Some (AddBackend p0 b)), None)).
  { unfold addBackends. simpl Monitor.pipeline. simpl Monitor.backends.
    simpl Monitor.echoMode. rewrite Hb, He. simpl fold_left.
    unfold BackendCount, AddBackend at 1. simpl. reflexivity. }
  rewrite HA, pipeline_setPipeline. cbv beta iota.
  rewrite (Start_single (AddBackend p0 b) ctx _ b b1) by (reflexivity || exact HI).
  cbv beta iota. fold p1. fold mA.
  rewrite (runStarted_once ToLower ReadFile Unmarshal (withEvents env events) mA _ p1 l c' m1 m2 elapsed);
    try assumption; try reflexivity.
  - cbv beta iota. unfold deferredStop.
    change (stopCtx (withEvents env events)) with (stopCtx env).
    cbn [waits trace]. rewrite <- !app_assoc. reflexivity.
  - change (batchSize p1) with (batchSize p0). rewrite Hsz. lia.
Qed.

(** C7.  Run-once mode, batch size 10, a collector whose call returns two
    valid points, and a single backend that initialises, reports healthy
    and accepts the write.  [Run] returns nil; the collector is invoked
    exactly once; the backend's [Write] is called exactly once, with the
    batch of the two points; [Stats] then reports 1 poll, 1 successful
    poll, no failed poll and 2 metrics; and the outcome does not depend on
    what the polling loop would have received, the loop being never
    entered.  (The periodic flush goroutine is launched but its ticker is
    not part of this sequential model.) *)
Theorem Run_once_two_points (ToLower : string → string)
    (ToLineProtocol : Metric → string)
    (ReadFile : string → string * error)
    (Unmarshal : string → Config → Config * error)
    (m : Monitor.t) (ctx : Context) (env : RunEnv) (w : World)
    (l : Logger) (cfg : Config) (b : Backend) (c' : Collector)
    (m1 m2 : Metric) (elapsed : Z) :
  Monitor.logger m = Some l → Monitor.cfg m = Some cfg →
  GlobalConfig.BatchSize (Global cfg) = 10 →
  Monitor.runOnce m = true → Monitor.echoMode m = false →
  Monitor.backends m = [b] → Monitor.stats m = zeroStats →
  callCollector (Monitor.collector m) (sigCtx env)
    = (c', mkOutcome [m1; m2] None elapsed) →
  MetricM.Validate m1 = None → MetricM.Validate m2 = None →
  serves b ctx (stopCtx env) [m1; m2] →
  let r := Run ToLower ToLineProtocol ReadFile Unmarshal m ctx env w in
  r.1.2 = Returned None ∧
  collections (trace r.2) = (collections (trace w) + 1)%nat ∧
  writeCalls (trace r.2) = writeCalls (trace w) ++ [(0%nat, [m1; m2])] ∧
  Stats r.1.1 = mkPollStats 1 1 0 2 elapsed ∧
  ∀ events,
    Run ToLower ToLineProtocol ReadFile Unmarshal m ctx (withEvents env events) w = r.
Proof.
  intros Hl Hc Hbs Hro He Hb Hst Hcol Hv1 Hv2 (Hinit & Hh & Hwr) r.
  destruct (Initialize b ctx) as [b1 ie] eqn:HI. simpl in Hinit, Hh, Hwr. subst ie.
  destruct (Run_once_unfolded ToLower ToLineProtocol ReadFile Unmarshal m ctx env w
              l cfg b b1 c' m1 m2 elapsed Hl Hc Hbs Hro He Hb Hcol Hv1 Hv2 HI)
    as (p & mC & Hpb & Hpbuf & Hpos & HpC & HstC & HR).
  assert (Henv : withEvents env (loopEvents env) = env) by (by destruct env).
  assert (Hr : ∀ events,
            Run ToLower ToLineProtocol ReadFile Unmarshal m ctx
                (withEvents env events) w = r).
  { intros events. subst r. rewrite <- Henv at 2. by rewrite !HR. }
  split; [|split; [|split; [|split; [|exact Hr]]]];
    subst r; rewrite <- Henv, HR; unfold deferredStop; rewrite HpC;
    cbv beta iota zeta delta [bind ret log emit];
    match goal with
    | |- context [Stop p (stopCtx env) ?w0] =>
        destruct (Stop_single p (stopCtx env) w0 b1 [m1; m2])
          as (p' & err & w' & HS & Hcalls & Hcoll);
        [assumption | assumption | discriminate | assumption | assumption
        | assumption |]
    end;
    rewrite HS; cbn [fst snd waits trace] in *.
  - by destruct err.
  - destruct err; cbn [fst snd waits trace];
      rewrite ?collections_snoc_other by reflexivity; rewrite Hcoll;
      rewrite collections_app; reflexivity.
  - destruct err; cbn [fst snd waits trace];
      rewrite ?writeCalls_snoc_log; rewrite Hcalls;
      rewrite writeCalls_app; simpl; by rewrite app_nil_r.
  - destruct err; cbn [fst snd waits trace]; unfold Stats, snapshot; simpl;
      rewrite HstC, Hst; reflexivity.
Qed.

(** The end-to-end example: temperature and humidity, one mock backend. *)
Lemma Run_once_two_points_witness :
  let r := Run asciiLower nameOnly noFile keepConfig exampleMonitor Background
               quietEnv initialWorld in
  r.1.2 = Returned None ∧
  writeCalls (trace r.2) = [(0%nat, [temperature; humidity])] ∧
  Stats r.1.1 = mkPollStats 1 1 0 2 5.
Proof.
  destruct (Run_once_two_points asciiLower nameOnly noFile keepConfig
              exampleMonitor Background quietEnv initialWorld StderrTextLogger
              DefaultConfig upMock officeCollector temperature humidity 5)
    as (H1 & _ & H3 & H4 & _).
  - reflexivity.
  - reflexivity.
  - reflexivity.
  - reflexivity.
  - reflexivity.
  - reflexivity.
  - reflexivity.
  - reflexivity.
  - vm_compute. reflexivity.
  - vm_compute. reflexivity.
  - repeat split.
  - intros r. split; [exact H1|]. split; [exact H3 | exact H4].
Defined.

(** *** Projections of a trace *)

Lemma Push_unfold p m w :
  Push p m w =
  if isValid m then
    let q := setBuffer p (buffer p ++ [m]) in
    if Z.of_nat (length (buffer p ++ [m])) >=? batchSize p
    then (q, mkWorld (waits w) (trace w ++ [EvGo GoBatchFlush]))
    else (q, w)
  else (p, mkWorld (waits w) (trace w ++ [EvLog LevelWarn "invalid metric dropped"])).
Proof.
  unfold Push, isValid. destruct (MetricM.Validate m); [reflexivity|].
  simpl. destruct (_ >=? _); reflexivity.
Qed.

Lemma launches_app tr1 tr2 : launches (tr1 ++ tr2) = launches tr1 ++ launches tr2.
Proof. apply omap_app. Qed.

Lemma waitsOf_app tr1 tr2 : waitsOf (tr1 ++ tr2) = waitsOf tr1 ++ waitsOf tr2.
Proof. apply omap_app. Qed.

Lemma initCalls_app tr1 tr2 : initCalls (tr1 ++ tr2) = initCalls tr1 ++ initCalls tr2.
Proof. apply omap_app. Qed.

Lemma closeCalls_app tr1 tr2 : closeCalls (tr1 ++ tr2) = closeCalls tr1 ++ closeCalls tr2.
Proof. apply omap_app. Qed.

(** *** What a flush leaves behind *)

Lemma retryLoop_waits_mono p ctx i batch n attempt b lastErr w :
  (waits w ≤ waits (retryLoop p ctx i batch n attempt b lastErr w).2)%nat.
Proof.
  destruct (retryLoop_calls p ctx i batch n attempt b lastErr w) as (c & _ & _ & _ & H).
  exact H.
Qed.

Lemma flushBackends_length p ctx batch bs :
  ∀ i lastErr w,
  length (flushBackends p ctx batch i bs lastErr w).1.1 = length bs.
Proof.
  induction bs as [|b rest IH]; intros i lastErr w; [reflexivity|].
  rewrite flushBackends_cons.
  destruct (Healthy b); cbv zeta.
  - destruct (writeWithRetry p ctx i b batch w) as [[b' [e|]] w']; cbn [fst snd];
      simpl; by rewrite IH.
  - cbn [fst snd]. simpl. by rewrite IH.
Qed.


(** X1.  Whatever the backends answer, [Flush] leaves an empty buffer, the
    same number of backends and the settings as they were; every write it
    makes carries the whole buffer it found; and a second [Flush] right
    after it, under any context, does nothing: no log line, no write, nil. *)
Theorem Flush_drains (p : Pipeline) (ctx ctx' : Context) (w : World) :
  let r := Flush p ctx w in
  buffer r.1.1 = [] ∧
  length (backends r.1.1) = length (backends p) ∧
  sameSettings r.1.1 p ∧
  (∃ calls, writeCalls (trace r.2) = writeCalls (trace w) ++ calls ∧
            Forall (λ c, c.2 = buffer p) calls) ∧
  Flush r.1.1 ctx' r.2 = ((r.1.1, None), r.2).
Proof.
  intros r. subst r.
  destruct (decide (buffer p = [])) as [He|Hne].
  - rewrite !Flush_empty by exact He. cbn [fst snd].
    repeat split; try assumption.
    exists []. by rewrite app_nil_r.
  - rewrite (Flush_nonempty p ctx w Hne). cbv zeta. cbn [fst snd].
    set (p' := setBuffer p []).
    set (w1 := mkWorld (waits w) (trace w ++ [EvLog LevelDebug "flushing metrics"])).
    destruct (flushBackends_calls p' ctx (buffer p)
                (attemptsAsExpected p' ctx (buffer p) (waits w)) (waits w)
                (λ i0 b0 w0 Hw0 _, writeWithRetry_attempts p' ctx (buffer p) (waits w) i0 b0 w0 Hw0)
                (backends p) 0%nat None w1 (Nat.le_refl _))
      as (calls & Hcalls & Hall & _).
    split; [reflexivity|].
    split; [simpl; apply flushBackends_length|].
    split; [repeat split|].
    split.
    + exists calls. simpl in Hcalls. rewrite writeCalls_snoc_log in Hcalls.
      split; [exact Hcalls|].
      eapply Forall_impl; [exact Hall|]. simpl. tauto.
    + by rewrite Flush_empty.
Qed.

(** *** A flush in which every backend accepts the batch *)

Lemma healthyPositions_calls p ctx batch bs :
  ∀ i lastErr w,
  (0 < Z.to_nat (retryAttempts p))%nat →
  (∀ j b, bs !! j = Some b → Healthy b = true → attemptErr ctx batch b 0 = None) →
  let r := flushBackends p ctx batch i bs lastErr w in
  r.1.2 = lastErr ∧
  r.1.1 = map (λ b, if Healthy b then (Write b ctx batch).1 else b) bs ∧
  waits r.2 = waits w ∧
  waitsOf (trace r.2) = waitsOf (trace w) ∧
  writeCalls (trace r.2)
  = writeCalls (trace w) ++ map (λ j, (j, batch)) (healthyPositions i bs).
Proof.
  induction bs as [|b rest IH]; intros i lastErr w Hn Hok r.
  - subst r. simpl. by rewrite app_nil_r.
  - subst r. rewrite flushBackends_cons.
    assert (Hrest : ∀ j b0, rest !! j = Some b0 → Healthy b0 = true →
                            attemptErr ctx batch b0 0 = None).
    { intros j b0 Hj. apply (Hok (S j)). exact Hj. }
    cbn [healthyPositions map].
    destruct (Healthy b) eqn:Hh; cbv zeta.
    + pose proof (Hok 0%nat b eq_refl Hh) as H0. rewrite attemptErr_0 in H0.
      unfold writeWithRetry.
      destruct (Z.to_nat (retryAttempts p)) as [|n] eqn:En; [lia|].
      rewrite retryLoop_unfold. cbv zeta.
      destruct (Write b ctx batch) as [b' e]. simpl in H0. subst e.
      cbn [fst snd].
      destruct (IH (S i) lastErr (mkWorld (waits w) (trace w ++ [EvWrite i batch]))
                  ltac:(lia) Hrest) as (He & Hbs & Hw & Hwt & Hc).
      cbn [fst snd] in *. rewrite He, Hbs, Hw, Hwt, Hc.
      simpl. rewrite writeCalls_snoc_write, <- app_assoc.
      rewrite waitsOf_app. simpl. rewrite app_nil_r. done.
    + cbn [fst snd].
      destruct (IH (S i) lastErr
                  (mkWorld (waits w)
                     (trace w ++ [EvLog LevelWarn "skipping unhealthy backend"]))
                  Hn Hrest) as (He & Hbs & Hw & Hwt & Hc).
      cbn [fst snd] in *. rewrite He, Hbs, Hw, Hwt, Hc.
      simpl. rewrite writeCalls_snoc_log.
      rewrite waitsOf_app. simpl. rewrite app_nil_r. done.
Qed.

(** X2.  A pipeline with a positive retry count and a non-empty buffer,
    each of whose healthy backends accepts the batch at the first call:
    [Flush] returns nil, writes the batch exactly once to each healthy
    backend, in the order of registration, never waits, and leaves the
    unhealthy backends as they were. *)
Theorem Flush_all_accept (p : Pipeline) (ctx : Context) (w : World) :
  0 < retryAttempts p → buffer p ≠ [] →
  (∀ j b, backends p !! j = Some b → Healthy b = true →
          attemptErr ctx (buffer p) b 0 = None) →
  let r := Flush p ctx w in
  r.1.2 = None ∧
  writeCalls (trace r.2)
  = writeCalls (trace w)
    ++ map (λ j, (j, buffer p)) (healthyPositions 0 (backends p)) ∧
  waitsOf (trace r.2) = waitsOf (trace w) ∧
  waits r.2 = waits w ∧
  backends r.1.1
  = map (λ b, if Healthy b then (Write b ctx (buffer p)).1 else b) (backends p).
Proof.
  intros Hn Hne Hok r. subst r.
  rewrite (Flush_nonempty p ctx w Hne). cbv zeta. cbn [fst snd].
  destruct (healthyPositions_calls (setBuffer p []) ctx (buffer p) (backends p) 0 None
              (mkWorld (waits w) (trace w ++ [EvLog LevelDebug "flushing metrics"])))
    as (He & Hbs & Hw & Hwt & Hc); [simpl; lia | exact Hok |].
  cbn [fst snd] in *.
  split; [exact He|].
  split; [rewrite Hc; simpl; by rewrite writeCalls_snoc_log|].
  split; [|split; [exact Hw | simpl; exact Hbs]].
  rewrite Hwt. simpl. rewrite waitsOf_app. simpl. by rewrite app_nil_r.
Qed.

(** Two working mocks around an unhealthy one. *)
Lemma Flush_all_accept_witness :
  let r := Flush (pipelineOf [upMock; sickMock; upMock]) Background initialWorld in
  r.1.2 = None ∧
  writeCalls (trace r.2) = [(0%nat, [cpu]); (2%nat, [cpu])] ∧
  waitsOf (trace r.2) = [].
Proof.
  destruct (Flush_all_accept (pipelineOf [upMock; sickMock; upMock]) Background
              initialWorld)
    as (H1 & H2 & H3 & _).
  - vm_compute. reflexivity.
  - vm_compute. discriminate.
  - intros j b Hj Hh.
    destruct j as [|[|[|j]]]; vm_compute in Hj; try discriminate;
      injection Hj as <-; reflexivity.
  - split; [exact H1|]. split; [exact H2 | exact H3].
Defined.

(** *** Waits and cancellation in the retry loop *)

Lemma waitsOf_snoc_write tr i batch : waitsOf (tr ++ [EvWrite i batch]) = waitsOf tr.
Proof. rewrite waitsOf_app. simpl. by rewrite app_nil_r. Qed.

Lemma waitsOf_snoc_log tr l s : waitsOf (tr ++ [EvLog l s]) = waitsOf tr.
Proof. rewrite waitsOf_app. simpl. by rewrite app_nil_r. Qed.

Lemma waitsOf_snoc_wait tr d c : waitsOf (tr ++ [EvWait d c]) = waitsOf tr ++ [(d, c)].
Proof. by rewrite waitsOf_app. Qed.

Lemma retryLoop_waits p ctx i batch n :
  ∀ attempt b lastErr w,
  attempt + Z.of_nat n = retryAttempts p + 1 →
  let r := retryLoop p ctx i batch n attempt b lastErr w in
  ∃ (c : nat) (cancelled : bool),
    writeCalls (trace r.2) = writeCalls (trace w) ++ replicate c (i, batch) ∧
    waitsOf (trace r.2)
    = waitsOf (trace w) ++ replicate (c - 1) (retryDelay p, false)
      ++ (if cancelled then [(retryDelay p, true)] else []) ∧
    waits r.2 = (waits w + (c - 1) + (if cancelled then 1 else 0))%nat ∧
    ((0 < n)%nat → (1 ≤ c)%nat) ∧ (c ≤ n)%nat ∧
    (cancelled = true → r.1.2 = Some (ctxErr ctx) ∧ (c < n)%nat).
Proof.
  induction n as [|n IH]; intros attempt b lastErr w Hinv r.
  - exists 0%nat, false. subst r. simpl. rewrite !app_nil_r.
    repeat split; try lia; discriminate.
  - subst r. rewrite retryLoop_unfold. cbv zeta.
    destruct (Write b ctx batch) as [b' [e|]]; cbn [fst snd].
    + destruct (attempt <? retryAttempts p) eqn:Hlt.
      * apply Z.ltb_lt in Hlt. cbn [waits trace].
        destruct (ctxDone ctx (waits w)) eqn:Hd.
        -- exists 1%nat, true. cbn [fst snd waits trace].
           rewrite writeCalls_snoc_wait, writeCalls_snoc_log, writeCalls_snoc_write.
           rewrite waitsOf_snoc_wait, waitsOf_snoc_log, waitsOf_snoc_write.
           simpl. repeat split; try lia.
        -- match goal with
           | |- context [retryLoop p ctx i batch n ?a ?b0 ?l ?w0] =>
               destruct (IH a b0 l w0 ltac:(lia))
                 as (c & cancelled & Hc & Hw & Hn & Hpos & Hle & Hcan)
           end.
           assert (Hc1 : (1 ≤ c)%nat) by (apply Hpos; lia).
           exists (S c), cancelled.
           split.
           { rewrite Hc. cbn [waits trace].
             rewrite writeCalls_snoc_wait, writeCalls_snoc_log, writeCalls_snoc_write.
             by rewrite <- app_assoc. }
           split.
           { rewrite Hw. cbn [waits trace].
             rewrite waitsOf_snoc_wait, waitsOf_snoc_log, waitsOf_snoc_write.
             rewrite <- !app_assoc.
             replace (S c - 1)%nat with (S (c - 1)) by lia. reflexivity. }
           split; [rewrite Hn; cbn [waits]; lia|].
           split; [lia|]. split; [lia|].
           intros Ht. destruct (Hcan Ht). split; [assumption | lia].
      * apply Z.ltb_ge in Hlt.
        assert (n = 0%nat) by lia. subst n. simpl.
        exists 1%nat, false. rewrite writeCalls_snoc_write, waitsOf_snoc_write.
        simpl. rewrite app_nil_r. repeat split; try lia; discriminate.
    + exists 1%nat, false. cbn [fst snd waits trace].
      rewrite writeCalls_snoc_write, waitsOf_snoc_write.
      simpl. rewrite app_nil_r. repeat split; try lia; discriminate.
Qed.

(** X3.  [writeWithRetry] writes [c] times, at most [retryAttempts] times
    and at least once when that is positive, and waits [retryDelay] between
    two attempts only: [c - 1] waits that ran their time, then at most one
    that the context cut short.  When a wait is cut short the result is
    [ctx.Err()] and fewer than [retryAttempts] writes were made.  There is
    no wait after the last attempt. *)
Theorem writeWithRetry_waits_between_attempts (p : Pipeline) (ctx : Context)
    (i : nat) (b : Backend) (batch : list Metric) (w : World) :
  let r := writeWithRetry p ctx i b batch w in
  ∃ (c : nat) (cancelled : bool),
    writeCalls (trace r.2) = writeCalls (trace w) ++ replicate c (i, batch) ∧
    waitsOf (trace r.2)
    = waitsOf (trace w) ++ replicate (c - 1) (retryDelay p, false)
      ++ (if cancelled then [(retryDelay p, true)] else []) ∧
    Z.of_nat c ≤ Z.max 0 (retryAttempts p) ∧
    (0 < retryAttempts p → (1 ≤ c)%nat) ∧
    (cancelled = true →
     r.1.2 = Some (ctxErr ctx) ∧ Z.of_nat c < retryAttempts p).
Proof.
  intros r. subst r. unfold writeWithRetry.
  destruct (Z_lt_le_dec 0 (retryAttempts p)) as [Hpos|Hneg].
  - destruct (retryLoop_waits p ctx i batch (Z.to_nat (retryAttempts p)) 1 b None w)
      as (c & cancelled & Hc & Hw & _ & Hp & Hle & Hcan); [lia|].
    exists c, cancelled. split; [exact Hc|]. split; [exact Hw|].
    split; [lia|]. split; [intros _; apply Hp; lia|].
    intros Ht. destruct (Hcan Ht). split; [assumption | lia].
  - replace (Z.to_nat (retryAttempts p)) with 0%nat by lia.
    exists 0%nat, false. simpl. rewrite !app_nil_r.
    repeat split; try lia; discriminate.
Qed.

Lemma retryLoop_cancelled p ctx i batch n :
  ∀ j attempt b lastErr w,
  (1 ≤ j ≤ n)%nat → attempt + Z.of_nat j ≤ retryAttempts p →
  (∀ k, (k < j)%nat → attemptErr ctx batch b k ≠ None) →
  notDoneDuring ctx (waits w) (j - 1) →
  ctxDone ctx (waits w + (j - 1)) = true →
  let r := retryLoop p ctx i batch n attempt b lastErr w in
  r.1.1 = afterWrites ctx batch j b ∧ r.1.2 = Some (ctxErr ctx) ∧
  writeCalls (trace r.2) = writeCalls (trace w) ++ replicate j (i, batch) ∧
  waits r.2 = (waits w + j)%nat.
Proof.
  induction n as [|n IH]; intros j attempt b lastErr w Hj Hatt Hfail Hnd Hd r; [lia|].
  subst r. rewrite retryLoop_unfold. cbv zeta.
  pose proof (Hfail 0%nat ltac:(lia)) as H0. rewrite attemptErr_0 in H0.
  destruct j as [|j]; [lia|]. simpl afterWrites.
  assert (Hrest : ∀ k, (k < j)%nat → attemptErr ctx batch (Write b ctx batch).1 k ≠ None).
  { intros k Hk. rewrite <- attemptErr_S. apply Hfail. lia. }
  destruct (Write b ctx batch) as [b' [e|]]; cbn [fst snd] in *; [|done].
  destruct (attempt <? retryAttempts p) eqn:Hlt; [|apply Z.ltb_ge in Hlt; lia].
  cbn [waits trace].
  destruct j as [|j].
  - simpl in Hd. rewrite Nat.add_0_r in Hd. rewrite Hd. cbn [fst snd waits trace].
    rewrite writeCalls_snoc_wait, writeCalls_snoc_log, writeCalls_snoc_write.
    repeat split; try done. lia.
  - rewrite (Hnd (waits w)) by lia.
    edestruct (IH (S j) (attempt + 1) b' (Some e)) as (-> & -> & -> & ->);
      [lia | lia | exact Hrest | | |].
    + intros m Hm. apply Hnd. cbn [waits] in Hm. lia.
    + cbn [waits]. rewrite <- Hd. f_equal. lia.
    + cbn [waits trace].
      rewrite writeCalls_snoc_wait, writeCalls_snoc_log, writeCalls_snoc_write.
      rewrite <- app_assoc. repeat split; try done. lia.
Qed.

(** X4.  If the first [j] writes fail, [j] being below the retry count, and
    the context is done during the wait that follows the [j]-th of them but
    not during the waits before, [writeWithRetry] returns [ctx.Err()], not
    the error of the write, after exactly [j] calls. *)
Theorem writeWithRetry_cancelled_during_wait (p : Pipeline) (ctx : Context)
    (i : nat) (b : Backend) (batch : list Metric) (w : World) (j : nat) :
  (1 ≤ j)%nat → Z.of_nat j < retryAttempts p →
  (∀ k, (k < j)%nat → attemptErr ctx batch b k ≠ None) →
  notDoneDuring ctx (waits w) (j - 1) →
  ctxDone ctx (waits w + (j - 1)) = true →
  let r := writeWithRetry p ctx i b batch w in
  r.1.2 = Some (ctxErr ctx) ∧
  r.1.1 = afterWrites ctx batch j b ∧
  writeCalls (trace r.2) = writeCalls (trace w) ++ replicate j (i, batch).
Proof.
  intros Hj Hlt Hfail Hnd Hd r. subst r. unfold writeWithRetry.
  destruct (retryLoop_cancelled p ctx i batch (Z.to_nat (retryAttempts p)) j 1 b None w)
    as (Hb & He & Hc & _); try assumption; try lia.
  done.
Qed.

(** A backend that is down, a deadline that passes during the second wait. *)
Lemma writeWithRetry_cancelled_during_wait_witness :
  let r := writeWithRetry (pipelineOf [downMock]) expiring 0 downMock [cpu]
             initialWorld in
  r.1.2 = Some DeadlineExceeded ∧
  writeCalls (trace r.2) = [(0%nat, [cpu]); (0%nat, [cpu])].
Proof.
  destruct (writeWithRetry_cancelled_during_wait (pipelineOf [downMock]) expiring
              0 downMock [cpu] initialWorld 2)
    as (H1 & _ & H3).
  - lia.
  - vm_compute. reflexivity.
  - intros k _. apply downMock_alwaysFails.
  - intros m Hm. simpl in Hm. assert (m = 0%nat) as -> by lia. reflexivity.
  - reflexivity.
  - split; [exact H1 | exact H3].
Defined.

(** *** Trace extensions *)

Lemma extendsBy_refl ok tr : extendsBy ok tr tr.
Proof. exists []. by rewrite app_nil_r. Qed.

Lemma extendsBy_trans ok tr1 tr2 tr3 :
  extendsBy ok tr1 tr2 → extendsBy ok tr2 tr3 → extendsBy ok tr1 tr3.
Proof.
  intros (e1 & -> & H1) (e2 & -> & H2). exists (e1 ++ e2).
  rewrite app_assoc. split; [done|]. by apply Forall_app.
Qed.

Lemma extendsBy_snoc ok tr e : ok e = true → extendsBy ok tr (tr ++ [e]).
Proof. intros H. exists [e]. split; [done|]. by constructor. Qed.

Lemma extendsBy_weaken (ok ok' : Event → bool) tr tr' :
  (∀ e, ok e = true → ok' e = true) → extendsBy ok tr tr' → extendsBy ok' tr tr'.
Proof.
  intros H (evs & -> & Hf). exists evs. split; [done|].
  eapply Forall_impl; [exact Hf|]. exact H.
Qed.

Lemma omap_none {A B} (f : A → option B) (l : list A) :
  Forall (λ a, f a = None) l → omap f l = [].
Proof. induction 1 as [|a l Ha _ IH]; simpl; [done|]. by rewrite Ha. Qed.

Lemma extendsBy_initCalls ok tr tr' :
  (∀ i, ok (EvInitialize i) = false) →
  extendsBy ok tr tr' → initCalls tr' = initCalls tr.
Proof.
  intros Hok (evs & -> & Hf). rewrite initCalls_app.
  unfold initCalls at 2. rewrite omap_none; [by rewrite app_nil_r|].
  eapply Forall_impl; [exact Hf|]. intros [] He; try done.
  by rewrite Hok in He.
Qed.

Lemma extendsBy_closeCalls ok tr tr' :
  (∀ i, ok (EvClose i) = false) →
  extendsBy ok tr tr' → closeCalls tr' = closeCalls tr.
Proof.
  intros Hok (evs & -> & Hf). rewrite closeCalls_app.
  unfold closeCalls at 2. rewrite omap_none; [by rewrite app_nil_r|].
  eapply Forall_impl; [exact Hf|]. intros [] He; try done.
  by rewrite Hok in He.
Qed.

Lemma extendsBy_launches ok tr tr' :
  (∀ g, ok (EvGo g) = false) →
  extendsBy ok tr tr' → launches tr' = launches tr.
Proof.
  intros Hok (evs & -> & Hf). rewrite launches_app.
  unfold launches at 2. rewrite omap_none; [by rewrite app_nil_r|].
  eapply Forall_impl; [exact Hf|]. intros [] He; try done.
  by rewrite Hok in He.
Qed.

Lemma extendsBy_writeCalls ok tr tr' :
  (∀ i b, ok (EvWrite i b) = false) →
  extendsBy ok tr tr' → writeCalls tr' = writeCalls tr.
Proof.
  intros Hok (evs & -> & Hf). rewrite writeCalls_app.
  unfold writeCalls at 2. rewrite omap_none; [by rewrite app_nil_r|].
  eapply Forall_impl; [exact Hf|]. intros [] He; try done.
  by rewrite Hok in He.
Qed.

Lemma extendsBy_collections ok tr tr' :
  ok EvCollect = false →
  extendsBy ok tr tr' → collections tr' = collections tr.
Proof.
  intros Hok (evs & -> & Hf). rewrite collections_app.
  assert (collections evs = 0%nat) as ->; [|lia].
  unfold collections. induction Hf as [|e evs He _ IH]; [done|].
  destruct e; simpl in *; try exact IH. by rewrite Hok in He.
Qed.

(** *** Deliveries only log, write and wait *)

Lemma retryLoop_delivers p ctx i batch n :
  ∀ attempt b lastErr w,
  extendsBy isDelivery (trace w)
    (trace (retryLoop p ctx i batch n attempt b lastErr w).2).
Proof.
  induction n as [|n IH]; intros attempt b lastErr w.
  - apply extendsBy_refl.
  - rewrite retryLoop_unfold. cbv zeta.
    destruct (Write b ctx batch) as [b' [e|]]; cbn [fst snd].
    + destruct (attempt <? retryAttempts p).
      * cbn [waits trace]. destruct (ctxDone ctx (waits w)).
        -- cbn [snd trace].
           repeat (eapply extendsBy_trans; [|by apply extendsBy_snoc]).
           apply extendsBy_refl.
        -- eapply extendsBy_trans; [|apply IH]. cbn [trace].
           repeat (eapply extendsBy_trans; [|by apply extendsBy_snoc]).
           apply extendsBy_refl.
      * eapply extendsBy_trans; [|apply IH]. cbn [trace].
        by apply extendsBy_snoc.
    + cbn [snd trace]. by apply extendsBy_snoc.
Qed.

Lemma flushBackends_delivers p ctx batch bs :
  ∀ i lastErr w,
  extendsBy isDelivery (trace w)
    (trace (flushBackends p ctx batch i bs lastErr w).2).
Proof.
  induction bs as [|b rest IH]; intros i lastErr w.
  - apply extendsBy_refl.
  - rewrite flushBackends_cons. destruct (Healthy b); cbv zeta.
    + pose proof (retryLoop_delivers p ctx i batch (Z.to_nat (retryAttempts p))
                    1 b None w) as Hr.
      fold (writeWithRetry p ctx i b batch w) in Hr.
      destruct (writeWithRetry p ctx i b batch w) as [[b' [e|]] w'];
        cbn [fst snd] in *.
      * eapply extendsBy_trans; [exact Hr|].
        eapply extendsBy_trans; [|apply IH]. cbn [trace].
        by apply extendsBy_snoc.
      * eapply extendsBy_trans; [exact Hr|]. apply IH.
    + cbn [snd]. eapply extendsBy_trans; [|apply IH]. cbn [trace].
      by apply extendsBy_snoc.
Qed.

Lemma Flush_delivers p ctx w :
  extendsBy isDelivery (trace w) (trace (Flush p ctx w).2).
Proof.
  destruct (decide (buffer p = [])) as [He|Hne].
  - rewrite Flush_empty by exact He. apply extendsBy_refl.
  - rewrite (Flush_nonempty p ctx w Hne). cbv zeta. cbn [snd].
    eapply extendsBy_trans; [|apply flushBackends_delivers]. cbn [trace].
    by apply extendsBy_snoc.
Qed.

(** What a flush leaves of the pipeline. *)
Lemma Flush_shape p ctx w :
  let r := Flush p ctx w in
  buffer r.1.1 = [] ∧ done r.1.1 = done p ∧
  length (backends r.1.1) = length (backends p) ∧ sameSettings r.1.1 p.
Proof.
  intros r. subst r.
  destruct (decide (buffer p = [])) as [He|Hne].
  - rewrite Flush_empty by exact He. cbn [fst]. done.
  - rewrite (Flush_nonempty p ctx w Hne). cbv zeta. cbn [fst snd].
    split; [reflexivity|]. split; [reflexivity|].
    split; [simpl; apply flushBackends_length | done].
Qed.

(** *** Start *)

Lemma world_eta w : mkWorld (waits w) (trace w) = w.
Proof. by destruct w. Qed.

Lemma initEvents_S i n :
  initEvents i (S n)
  = EvInitialize i :: EvLog LevelInfo "backend initialized" :: initEvents (S i) n.
Proof. reflexivity. Qed.

Lemma initBackends_ok ctx bs :
  ∀ i w,
  Forall (λ b, (Initialize b ctx).2 = None) bs →
  initBackends ctx i bs w
  = ((map (λ b, (Initialize b ctx).1) bs, None),
     mkWorld (waits w) (trace w ++ initEvents i (length bs))).
Proof.
  induction bs as [|b rest IH]; intros i w Hok.
  - simpl. unfold ret, initEvents. simpl. by rewrite app_nil_r, world_eta.
  - apply Forall_cons in Hok as [Hb Hrest].
    cbn [initBackends length map].
    cbv beta iota zeta delta [bind ret log emit fst snd].
    destruct (Initialize b ctx) as [b' e]. simpl in Hb. subst e.
    rewrite IH by exact Hrest. cbn [fst snd waits trace].
    rewrite initEvents_S, <- !app_assoc. reflexivity.
Qed.

Lemma initBackends_fail ctx pre :
  ∀ i w b e post,
  Forall (λ b, (Initialize b ctx).2 = None) pre →
  (Initialize b ctx).2 = Some e →
  initBackends ctx i (pre ++ b :: post) w
  = ((map (λ b, (Initialize b ctx).1) pre ++ (Initialize b ctx).1 :: post, Some e),
     mkWorld (waits w)
       (trace w ++ initEvents i (length pre)
                ++ [EvInitialize (i + length pre)])).
Proof.
  induction pre as [|a pre IH]; intros i w b e post Hok Hb.
  - cbn [app initBackends length map].
    cbv beta iota zeta delta [bind ret log emit fst snd].
    destruct (Initialize b ctx) as [b' e']. simpl in Hb. subst e'.
    rewrite Nat.add_0_r. reflexivity.
  - apply Forall_cons in Hok as [Ha Hrest].
    cbn [app initBackends length map].
    cbv beta iota zeta delta [bind ret log emit fst snd].
    destruct (Initialize a ctx) as [a' ea]. simpl in Ha. subst ea.
    rewrite (IH _ _ b e post Hrest Hb). cbn [fst snd waits trace].
    rewrite initEvents_S, <- !app_assoc.
    replace (S i + length pre)%nat with (i + S (length pre))%nat by lia.
    reflexivity.
Qed.

Lemma initEvents_launches i n : launches (initEvents i n) = [].
Proof.
  revert i. induction n as [|n IH]; intros i; [done|].
  rewrite initEvents_S. simpl. apply IH.
Qed.

Lemma initEvents_initCalls i n : initCalls (initEvents i n) = seq i n.
Proof.
  revert i. induction n as [|n IH]; intros i; [done|].
  rewrite initEvents_S. simpl. f_equal. apply IH.
Qed.


Lemma Start_failure p ctx w pre b post e :
  backends p = pre ++ b :: post →
  Forall (λ b, (Initialize b ctx).2 = None) pre →
  (Initialize b ctx).2 = Some e →
  Start p ctx w
  = ((setBackends p (map (λ b, (Initialize b ctx).1) pre
                     ++ (Initialize b ctx).1 :: post), Some e),
     mkWorld (waits w)
       (trace w ++ initEvents 0 (length pre) ++ [EvInitialize (length pre)])).
Proof.
  intros Hbs Hpre Hb. unfold Start, bind.
  by rewrite Hbs, (initBackends_fail ctx pre 0 w b e post Hpre Hb).
Qed.

Lemma Start_success p ctx w :
  Forall (λ b, (Initialize b ctx).2 = None) (backends p) →
  Start p ctx w
  = ((setBackends p (map (λ b, (Initialize b ctx).1) (backends p)), None),
     mkWorld (waits w)
       (trace w ++ initEvents 0 (length (backends p)) ++ [EvGo GoFlushLoop])).
Proof.
  intros Hok. unfold Start, bind.
  rewrite (initBackends_ok ctx (backends p) 0 w Hok).
  cbv beta iota zeta delta [bind ret log emit fst snd]. cbn [fst snd waits trace].
  by rewrite <- app_assoc.
Qed.

(** X5.  If the backends before [b] initialise and [b] does not, [Start]
    returns the error of [b] at once: the backends after [b] are not
    touched, the flush loop is not launched, the success of [b] is not
    logged, and buffer and [done] stay as they were. *)
Theorem Start_stops_at_first_failure (p : Pipeline) (ctx : Context) (w : World)
    (pre : list Backend) (b : Backend) (post : list Backend) (e : Error) :
  backends p = pre ++ b :: post →
  Forall (λ b, (Initialize b ctx).2 = None) pre →
  (Initialize b ctx).2 = Some e →
  let r := Start p ctx w in
  r.1.2 = Some e ∧
  backends r.1.1
  = map (λ b, (Initialize b ctx).1) pre ++ (Initialize b ctx).1 :: post ∧
  trace r.2
  = trace w ++ initEvents 0 (length pre) ++ [EvInitialize (length pre)] ∧
  launches (trace r.2) = launches (trace w) ∧
  buffer r.1.1 = buffer p ∧ done r.1.1 = done p.
Proof.
  intros Hbs Hpre Hb r. subst r.
  rewrite (Start_failure p ctx w pre b post e Hbs Hpre Hb).
  cbn [fst snd trace].
  repeat split.
  rewrite !launches_app, initEvents_launches. simpl. by rewrite app_nil_r.
Qed.

(** A broken mock between two others. *)
Lemma Start_stops_at_first_failure_witness :
  let r := Start (fold_left AddBackend [upMock; brokenMock; downMock]
                    (NewPipeline DefaultPipelineConfig))
                 Background initialWorld in
  r.1.2 = Some (Errorf "connection refused") ∧
  trace r.2 = [EvInitialize 0; EvLog LevelInfo "backend initialized";
               EvInitialize 1].
Proof.
  destruct (Start_stops_at_first_failure
              (fold_left AddBackend [upMock; brokenMock; downMock]
                 (NewPipeline DefaultPipelineConfig))
              Background initialWorld [upMock] brokenMock [downMock]
              (Errorf "connection refused"))
    as (H1 & _ & H3 & _).
  - reflexivity.
  - repeat constructor.
  - reflexivity.
  - split; [exact H1 | exact H3].
Defined.

(** X6.  If every backend initialises, [Start] returns nil after
    initialising each of them once, in the order of registration, logging
    each success, and launching the flush loop last. *)
Theorem Start_initialises_in_order (p : Pipeline) (ctx : Context) (w : World) :
  Forall (λ b, (Initialize b ctx).2 = None) (backends p) →
  let r := Start p ctx w in
  r.1.2 = None ∧
  backends r.1.1 = map (λ b, (Initialize b ctx).1) (backends p) ∧
  trace r.2
  = trace w ++ initEvents 0 (length (backends p)) ++ [EvGo GoFlushLoop] ∧
  initCalls (trace r.2) = initCalls (trace w) ++ seq 0 (length (backends p)) ∧
  launches (trace r.2) = launches (trace w) ++ [GoFlushLoop] ∧
  buffer r.1.1 = buffer p ∧ done r.1.1 = done p.
Proof.
  intros Hok r. subst r. rewrite (Start_success p ctx w Hok).
  cbn [fst snd trace].
  repeat split.
  - rewrite !initCalls_app, initEvents_initCalls. simpl. by rewrite app_nil_r.
  - rewrite !launches_app, initEvents_launches. reflexivity.
Qed.

(** Two mocks. *)
Lemma Start_initialises_in_order_witness :
  let r := Start (fold_left AddBackend [upMock; downMock]
                    (NewPipeline DefaultPipelineConfig))
                 Background initialWorld in
  r.1.2 = None ∧ initCalls (trace r.2) = [0; 1]%nat ∧
  launches (trace r.2) = [GoFlushLoop].
Proof.
  destruct (Start_initialises_in_order
              (fold_left AddBackend [upMock; downMock]
                 (NewPipeline DefaultPipelineConfig))
              Background initialWorld)
    as (H1 & _ & _ & H4 & H5 & _).
  - repeat constructor.
  - split; [exact H1|]. split; [exact H4 | exact H5].
Defined.

(** *** Stop *)

Lemma closeBackends_spec bs :
  ∀ i lastErr w,
  let r := closeBackends i bs lastErr w in
  r.1 = (map (λ b, (Close b).1) bs, lastError (map (λ b, (Close b).2) bs) lastErr) ∧
  waits r.2 = waits w ∧
  closeCalls (trace r.2) = closeCalls (trace w) ++ seq i (length bs) ∧
  initCalls (trace r.2) = initCalls (trace w) ∧
  launches (trace r.2) = launches (trace w).
Proof.
  induction bs as [|b rest IH]; intros i lastErr w r.
  - subst r. simpl. by rewrite app_nil_r.
  - subst r. cbn [closeBackends length map seq lastError].
    cbv beta iota zeta delta [bind ret log emit fst snd].
    destruct (Close b) as [b' [e|]]; cbn [fst snd lastError].
    + match goal with
      | |- context [closeBackends ?j rest ?l ?w0] =>
          destruct (IH j l w0) as (H1 & H2 & H3 & H4 & H5);
          destruct (closeBackends j rest l w0) as [[bs' e'] w']
      end.
      cbn [fst snd waits trace] in *. inversion H1; subst.
      rewrite H2, H3, H4, H5.
      rewrite !closeCalls_app, !initCalls_app, !launches_app. simpl.
      rewrite !app_nil_r, <- app_assoc. done.
    + match goal with
      | |- context [closeBackends ?j rest ?l ?w0] =>
          destruct (IH j l w0) as (H1 & H2 & H3 & H4 & H5);
          destruct (closeBackends j rest l w0) as [[bs' e'] w']
      end.
      cbn [fst snd waits trace] in *. inversion H1; subst.
      rewrite H2, H3, H4, H5.
      rewrite !closeCalls_app, !initCalls_app, !launches_app. simpl.
      rewrite !app_nil_r, <- app_assoc. done.
Qed.

Lemma Stop_unfold p ctx w :
  Stop p ctx w =
  let f := Flush (setDone p true) ctx w in
  let w2 := match f.1.2 with
            | Some _ => mkWorld (waits f.2)
                          (trace f.2 ++ [EvLog LevelError "final flush failed"])
            | None => f.2
            end in
  let c := closeBackends 0 (backends f.1.1) None w2 in
  ((setBackends f.1.1 c.1.1, c.1.2), c.2).
Proof.
  unfold Stop, bind.
  destruct (Flush (setDone p true) ctx w) as [[p1 [e1|]] w1]; simpl;
    destruct (closeBackends _ _ _ _) as [[? ?] ?]; reflexivity.
Qed.

(** The whole of [Stop] in terms of the final flush. *)
Lemma Stop_spec p ctx w :
  let f := Flush (setDone p true) ctx w in
  let r := Stop p ctx w in
  r.1.1 = setBackends f.1.1 (map (λ b, (Close b).1) (backends f.1.1)) ∧
  r.1.2 = lastError (map (λ b, (Close b).2) (backends f.1.1)) None ∧
  waits r.2 = waits f.2 ∧
  closeCalls (trace r.2) = closeCalls (trace w) ++ seq 0 (length (backends p)) ∧
  initCalls (trace r.2) = initCalls (trace w) ∧
  launches (trace r.2) = launches (trace w) ∧
  writeCalls (trace r.2) = writeCalls (trace f.2) ∧
  collections (trace r.2) = collections (trace w).
Proof.
  intros f r. subst f r. rewrite Stop_unfold. cbv zeta.
  pose proof (Flush_delivers (setDone p true) ctx w) as Hd.
  pose proof (Flush_shape (setDone p true) ctx w) as (_ & _ & Hlen & _).
  destruct (Flush (setDone p true) ctx w) as [[p1 e1] w1].
  cbn [fst snd] in *.
  set (w2 := match e1 with
             | Some _ => mkWorld (waits w1)
                           (trace w1 ++ [EvLog LevelError "final flush failed"])
             | None => w1
             end).
  assert (Hw2 : extendsBy isDelivery (trace w1) (trace w2)).
  { subst w2. destruct e1; [by apply extendsBy_snoc | apply extendsBy_refl]. }
  assert (Hwt : waits w2 = waits w1) by (subst w2; by destruct e1).
  destruct (closeBackends_spec (backends p1) 0 None w2) as (H1 & H2 & H3 & H4 & H5).
  pose proof (closeBackends_calls (backends p1) 0 None w2) as (H6 & H7).
  rewrite H1. cbn [fst snd].
  assert (Hall : extendsBy isDelivery (trace w) (trace w2))
    by (eapply extendsBy_trans; eassumption).
  split; [reflexivity|]. split; [reflexivity|].
  split; [by rewrite H2|].
  split; [rewrite H3, (extendsBy_closeCalls _ _ _ (λ _, eq_refl) Hall);
          simpl in Hlen; by rewrite Hlen|].
  split; [rewrite H4; exact (extendsBy_initCalls _ _ _ (λ _, eq_refl) Hall)|].
  split; [rewrite H5; exact (extendsBy_launches _ _ _ (λ _, eq_refl) Hall)|].
  split.
  - rewrite H6. subst w2. destruct e1; simpl; [apply writeCalls_snoc_log | done].
  - rewrite H7. exact (extendsBy_collections _ _ _ eq_refl Hall).
Qed.

(** X7.  [Stop] on a pipeline that is not stopped yet: [done] is closed,
    the buffer ends empty, the settings stay, and after the final flush
    every backend is closed exactly once, in the order of registration,
    whether an earlier [Close] failed or not.  The error returned is that of
    the last [Close] that failed, nil when none did: a failure of the final
    flush is logged and not returned.  No write is made after that flush. *)
Theorem Stop_closes_every_backend (p : Pipeline) (ctx : Context) (w : World) :
  done p = false →
  let f := Flush (setDone p true) ctx w in
  let r := Stop p ctx w in
  done r.1.1 = true ∧ buffer r.1.1 = [] ∧ sameSettings r.1.1 p ∧
  closeCalls (trace r.2) = closeCalls (trace w) ++ seq 0 (length (backends p)) ∧
  backends r.1.1 = map (λ b, (Close b).1) (backends f.1.1) ∧
  r.1.2 = lastError (map (λ b, (Close b).2) (backends f.1.1)) None ∧
  writeCalls (trace r.2) = writeCalls (trace f.2).
Proof.
  intros _ f r.
  destruct (Stop_spec p ctx w) as (H1 & H2 & _ & H3 & _ & _ & H6 & _).
  destruct (Flush_shape (setDone p true) ctx w) as (Hb & Hd & _ & Hs).
  fold f in H1, H2, H6, Hb, Hd, Hs. fold r in H1, H2, H3, H6.
  rewrite H1. cbn [done buffer setBackends backends].
  split; [by rewrite Hd|]. split; [exact Hb|].
  split; [|done].
  destruct Hs as (? & ? & ? & ? & ?). repeat split; simpl; assumption.
Qed.

(** Three mocks, the second of which cannot be closed and the third of
    which is unhealthy. *)
Lemma Stop_closes_every_backend_witness :
  let r := Stop (pipelineOf [upMock; stuckMock; sickMock]) Background
                initialWorld in
  closeCalls (trace r.2) = [0; 1; 2]%nat ∧
  r.1.2 = Some (Errorf "close failed") ∧
  writeCalls (trace r.2) = [(0%nat, [cpu]); (1%nat, [cpu])].
Proof.
  destruct (Stop_closes_every_backend (pipelineOf [upMock; stuckMock; sickMock])
              Background initialWorld)
    as (_ & _ & _ & H4 & _ & H6 & H7).
  - reflexivity.
  - split; [exact H4|]. split; [exact H6 | exact H7].
Defined.

(** *** Pushing a slice *)

Lemma pushAll_spec ms :
  ∀ p w,
  let r := pushAll p ms w in
  buffer r.1 = buffer p ++ filter (λ m, isValid m = true) ms ∧
  backends r.1 = backends p ∧ sameSettings r.1 p ∧ done r.1 = done p ∧
  waits r.2 = waits w ∧
  extendsBy isPoll (trace w) (trace r.2) ∧
  collections (trace r.2) = collections (trace w) ∧
  (Z.of_nat (length (buffer r.1)) < batchSize p →
   launches (trace r.2) = launches (trace w)).
Proof.
  induction ms as [|m ms IH]; intros p w r.
  - subst r. simpl. rewrite app_nil_r.
    repeat split; try reflexivity. apply extendsBy_refl.
  - subst r. cbn [pushAll]. unfold bind. rewrite Push_unfold.
    destruct (isValid m) eqn:Hv.
    + rewrite filter_cons_True by exact Hv.
      cbv zeta.
      destruct (Z.of_nat (length (buffer p ++ [m])) >=? batchSize p) eqn:Hge.
      * destruct (IH (setBuffer p (buffer p ++ [m]))
                    (mkWorld (waits w) (trace w ++ [EvGo GoBatchFlush])))
          as (Hb & Hbs & Hs & Hd & Hw & He & Hc & Hl).
        simpl in *. rewrite Hb, Hbs, Hd, Hw, Hc, <- app_assoc.
        rewrite collections_snoc_other by reflexivity.
        repeat split; try reflexivity; try apply Hs.
        -- eapply extendsBy_trans; [|exact He]. by apply extendsBy_snoc.
        -- intros Hlt. exfalso. apply Z.geb_le in Hge.
           rewrite !length_app in *. simpl in *. lia.
      * destruct (IH (setBuffer p (buffer p ++ [m])) w)
          as (Hb & Hbs & Hs & Hd & Hw & He & Hc & Hl).
        simpl in *. rewrite Hb, Hbs, Hd, Hw, Hc, <- app_assoc.
        repeat split; try reflexivity; try apply Hs; try exact He.
        intros Hlt. apply Hl. rewrite Hb, <- app_assoc. exact Hlt.
    + rewrite filter_cons_False by (rewrite Hv; discriminate).
      destruct (IH p (mkWorld (waits w)
                        (trace w ++ [EvLog LevelWarn "invalid metric dropped"])))
        as (Hb & Hbs & Hs & Hd & Hw & He & Hc & Hl).
      simpl in *. rewrite Hb, Hbs, Hd, Hw, Hc.
      rewrite collections_snoc_other by reflexivity.
      repeat split; try reflexivity; try apply Hs.
      * eapply extendsBy_trans; [|exact He]. by apply extendsBy_snoc.
      * intros Hlt. rewrite Hl by (rewrite Hb; exact Hlt).
        rewrite launches_app. simpl. by rewrite app_nil_r.
Qed.

(** X8.  Pushing a slice of metrics appends exactly its valid metrics to
    the buffer, in their order; the invalid ones are dropped.  Backends and
    settings stay as they were, nothing is written and nothing waits; and
    as long as the buffer stays below the batch size no flush is launched. *)
Theorem pushAll_keeps_valid (p : Pipeline) (ms : list Metric) (w : World) :
  let r := pushAll p ms w in
  buffer r.1 = buffer p ++ filter (λ m, isValid m = true) ms ∧
  backends r.1 = backends p ∧ sameSettings r.1 p ∧
  writeCalls (trace r.2) = writeCalls (trace w) ∧
  waits r.2 = waits w ∧
  (Z.of_nat (length (buffer r.1)) < batchSize p →
   launches (trace r.2) = launches (trace w)).
Proof.
  intros r.
  destruct (pushAll_spec ms p w) as (Hb & Hbs & Hs & _ & Hw & He & _ & Hl).
  fold r in Hb, Hbs, Hs, Hw, He, Hl.
  repeat split; try assumption; try apply Hs.
  exact (extendsBy_writeCalls _ _ _ (λ _ _, eq_refl) He).
Qed.

(** *** One poll *)

Lemma setPipeline_same m p :
  Monitor.pipeline m = Some p → Monitor.setPipeline m (Some p) = m.
Proof. destruct m. simpl. by intros ->. Qed.

Lemma collect_spec m ctx w p l :
  Monitor.pipeline m = Some p → Monitor.logger m = Some l →
  let co := callCollector (Monitor.collector m) ctx in
  let r := collect m ctx w in
  ∃ p',
    r.1 = Ok (Monitor.setPipeline
                (Monitor.setStats (Monitor.setCollector m co.1)
                   (recordPoll (Monitor.stats m) (succeeded co.2)
                      (Z.of_nat (length (taken co.2))) (coElapsed co.2)))
                (Some p')) ∧
    buffer p' = buffer p ++ filter (λ m, isValid m = true) (taken co.2) ∧
    backends p' = backends p ∧ sameSettings p' p ∧ done p' = done p ∧
    waits r.2 = waits w ∧
    extendsBy isPoll (trace w) (trace r.2) ∧
    collections (trace r.2) = S (collections (trace w)).
Proof.
  intros Hp Hl co r. subst co r. unfold collect, taken, succeeded.
  cbv beta iota zeta delta [bind ret log emit fst snd].
  destruct (callCollector (Monitor.collector m) ctx) as [c' out].
  cbn [fst snd].
  destruct m as [nm col pl sg lg lv cf cp em ro rf bs st].
  simpl in Hp, Hl. subst pl lg.
  destruct (coErr out) as [e|].
  - cbn [Monitor.pipeline Monitor.logger Monitor.setStats Monitor.setCollector
         Monitor.stats Monitor.name Monitor.collector Monitor.signals
         Monitor.levelVar Monitor.cfg Monitor.cfgPath Monitor.echoMode
         Monitor.runOnce Monitor.reloadFn Monitor.backends Monitor.setPipeline
         fst snd waits trace length filter].
    exists p.
    split; [reflexivity|]. rewrite app_nil_r.
    repeat split.
    + eapply extendsBy_trans; [|by apply extendsBy_snoc].
      by apply extendsBy_snoc.
    + rewrite collections_snoc_other by reflexivity.
      rewrite collections_snoc_collect; lia.
  - cbn [Monitor.pipeline Monitor.logger Monitor.setStats Monitor.setCollector
         Monitor.stats Monitor.name Monitor.collector Monitor.signals
         Monitor.levelVar Monitor.cfg Monitor.cfgPath Monitor.echoMode
         Monitor.runOnce Monitor.reloadFn Monitor.backends].
    destruct (pushAll_spec (coMetrics out) p
                (mkWorld (waits w) (trace w ++ [EvCollect])))
      as (Hb & Hbs & Hs & Hd & Hw & He & Hc & _).
    destruct (pushAll p (coMetrics out) _) as [p' w'].
    cbn [fst snd waits trace] in *.
    exists p'. split; [reflexivity|].
    split; [exact Hb|]. split; [exact Hbs|]. split; [exact Hs|].
    split; [exact Hd|]. split; [exact Hw|].
    split.
    + eapply extendsBy_trans; [|by apply extendsBy_snoc].
      eapply extendsBy_trans; [|exact He]. by apply extendsBy_snoc.
    + rewrite collections_snoc_other by reflexivity.
      rewrite Hc, collections_snoc_collect; lia.
Qed.

(** X9.  One [collect] on a monitor with a pipeline and a logger returns
    normally, invokes the collector once and writes nothing.  It records
    one poll: failed, with no metrics, when the collector returned an
    error (whatever slice came with it), else successful with the length
    of the slice, invalid metrics included.  The buffer takes the valid
    metrics of a successful poll only; configuration and logger stay. *)
Theorem collect_records_and_buffers (m : Monitor.t) (ctx : Context) (w : World)
    (p : Pipeline) (l : Logger) :
  Monitor.pipeline m = Some p → Monitor.logger m = Some l →
  let out := (callCollector (Monitor.collector m) ctx).2 in
  let r := collect m ctx w in
  ∃ m' p',
    r.1 = Ok m' ∧ Monitor.pipeline m' = Some p' ∧
    Stats m' = recordPoll (Monitor.stats m) (succeeded out)
                 (if succeeded out then Z.of_nat (length (coMetrics out)) else 0)
                 (coElapsed out) ∧
    buffer p' = buffer p
                ++ (if succeeded out
                    then filter (λ m, isValid m = true) (coMetrics out) else []) ∧
    backends p' = backends p ∧
    collections (trace r.2) = S (collections (trace w)) ∧
    writeCalls (trace r.2) = writeCalls (trace w) ∧
    Monitor.cfg m' = Monitor.cfg m ∧ Monitor.logger m' = Monitor.logger m.
Proof.
  intros Hp Hl out r.
  destruct (collect_spec m ctx w p l Hp Hl)
    as (p' & Hr & Hb & Hbs & _ & _ & _ & He & Hc).
  fold r in Hr, He, Hc. fold out in Hr, Hb.
  eexists _, p'. split; [exact Hr|]. split; [reflexivity|].
  unfold taken in *.
  split; [unfold Stats, snapshot; simpl; by destruct (succeeded out)|].
  split; [rewrite Hb; by destruct (succeeded out)|].
  split; [exact Hbs|]. split; [exact Hc|].
  split; [exact (extendsBy_writeCalls _ _ _ (λ _ _, eq_refl) He)|].
  done.
Qed.

(** Two valid points around one without fields: three metrics counted, two
    buffered. *)
Lemma collect_records_and_buffers_witness :
  let m := Monitor.setPipeline (Monitor.setCollector exampleMonitor sloppyCollector)
             (Some (NewPipeline DefaultPipelineConfig)) in
  ∃ m' p',
    (collect m Background initialWorld).1 = Ok m' ∧
    Monitor.pipeline m' = Some p' ∧
    Stats m' = mkPollStats 1 1 0 3 5 ∧
    buffer p' = [temperature; humidity].
Proof.
  destruct (collect_records_and_buffers
              (Monitor.setPipeline
                 (Monitor.setCollector exampleMonitor sloppyCollector)
                 (Some (NewPipeline DefaultPipelineConfig)))
              Background initialWorld (NewPipeline DefaultPipelineConfig)
              StderrTextLogger)
    as (m' & p' & H1 & H2 & H3 & H4 & _).
  - reflexivity.
  - reflexivity.
  - exists m', p'. split; [exact H1|]. split; [exact H2|].
    split; [exact H3 | exact H4].
Defined.

(** *** The polling loop *)

Section Loop.

Variable ToLower : string → string.
Variable ReadFile : string → string * error.
Variable Unmarshal : string → Config → Config * error.

Lemma recordAll_cons c calls s :
  recordAll (c :: calls) s = recordAll calls (record s c).
Proof. reflexivity. Qed.

Lemma ticks_reload evs : ticks (ReloadSignal :: evs) = ticks evs.
Proof. unfold ticks. by rewrite filter_cons_False. Qed.

Lemma ticks_tick evs : ticks (TickerFired :: evs) = S (ticks evs).
Proof. unfold ticks. by rewrite filter_cons_True. Qed.

Lemma pollLoop_spec env ticker evs :
  ∀ m w p l tail,
  Monitor.pipeline m = Some p → Monitor.logger m = Some l →
  Monitor.reloadFn m = None → Monitor.cfgPath m = "" →
  Forall (λ e, e ≠ CtxDone) evs →
  (tail = [] ∨ ∃ rest, tail = CtxDone :: rest) →
  let r := pollLoop ToLower ReadFile Unmarshal env m ticker (evs ++ tail) w in
  let n := (ticks evs + (if tail is [] then 0 else 1))%nat in
  r.1.2 = (if tail is [] then Blocked else Returned None) ∧
  collections (trace r.2) = (collections (trace w) + n)%nat ∧
  writeCalls (trace r.2) = writeCalls (trace w) ∧
  waits r.2 = waits w ∧
  (∃ calls, length calls = n ∧
            Monitor.stats r.1.1 = recordAll calls (Monitor.stats m)) ∧
  Monitor.cfg r.1.1 = Monitor.cfg m ∧
  (∃ p', Monitor.pipeline r.1.1 = Some p' ∧ backends p' = backends p ∧
         done p' = done p).
Proof.
  induction evs as [|ev evs IH]; intros m w p l tail Hp Hl Hfn Hpath Hnd Htail r n.
  - subst r n. change (ticks []) with 0%nat. cbn [app Nat.add].
    destruct Htail as [->|(rest & ->)].
    + simpl. repeat split; try done; try lia.
      * by exists [].
      * by exists p.
    + cbn [pollLoop].
      cbv beta iota zeta delta [bind ret log emit fst snd].
      match goal with
      | |- context [collect m (finalCtx env) ?w0] =>
          destruct (collect_spec m (finalCtx env) w0 p l Hp Hl)
            as (p' & Hr & Hb & Hbs & _ & Hd & Hw & He & Hc);
          destruct (collect m (finalCtx env) w0) as [r0 w1]
      end.
      cbn [fst snd waits trace] in *. subst r0. cbn [fst snd waits trace].
      split; [reflexivity|].
      split; [rewrite collections_snoc_other by reflexivity;
              rewrite Hc, collections_snoc_other by reflexivity; lia|].
      split; [rewrite writeCalls_snoc_log,
                (extendsBy_writeCalls _ _ _ (λ _ _, eq_refl) He);
              apply writeCalls_snoc_log|].
      split; [exact Hw|].
      split; [eexists [mkPollCall _ _ _]; split; reflexivity|].
      split; [reflexivity|]. exists p'. done.
  - apply Forall_cons in Hnd as [Hev Hnd].
    subst r n. destruct ev; [done| |].
    + (* ReloadSignal *)
      assert (Hsrc : reloadSource ToLower ReadFile Unmarshal m = None).
      { unfold reloadSource. rewrite Hfn, Hpath. reflexivity. }
      set (w0 := mkWorld (waits w)
                   (trace w ++ [EvLog LevelInfo "reloading configuration";
                                EvLog LevelWarn
                                  "no config path or reload function, ignoring reload signal"])).
      assert (Hh : handleReload ToLower ReadFile Unmarshal m ticker w
                   = (Ok (m, ticker), w0)).
      { unfold handleReload. rewrite Hl, Hsrc.
        cbv beta iota zeta delta [bind ret log emit fst snd].
        subst w0. cbn [waits trace]. by rewrite <- app_assoc. }
      assert (Heq : pollLoop ToLower ReadFile Unmarshal env m ticker
                      ((ReloadSignal :: evs) ++ tail) w
                    = pollLoop ToLower ReadFile Unmarshal env m ticker
                        (evs ++ tail) w0).
      { cbn [app pollLoop]. unfold bind. by rewrite Hh. }
      rewrite Heq.
      destruct (IH m w0 p l tail Hp Hl Hfn Hpath Hnd Htail)
        as (H1 & H2 & H3 & H4 & H5 & H6 & H7).
      subst w0. cbn [waits trace] in *.
      split; [exact H1|].
      split.
      { rewrite H2, ticks_reload, collections_app.
        match goal with
        | |- context [collections [?a; ?b]] =>
            change (collections [a; b]) with 0%nat
        end. lia. }
      split; [rewrite H3, writeCalls_app; simpl; by rewrite app_nil_r|].
      split; [exact H4|]. split; [exact H5|]. split; [exact H6 | exact H7].
    + (* TickerFired *)
      destruct (collect_spec m (sigCtx env) w p l Hp Hl)
        as (p' & Hr & Hb & Hbs & _ & Hd & Hw & He & Hc).
      match type of Hr with _ = Ok ?m' => set (m1 := m') in * end.
      assert (Heq : pollLoop ToLower ReadFile Unmarshal env m ticker
                      ((TickerFired :: evs) ++ tail) w
                    = pollLoop ToLower ReadFile Unmarshal env m1 ticker
                        (evs ++ tail) (collect m (sigCtx env) w).2).
      { cbn [app pollLoop]. unfold bind.
        destruct (collect m (sigCtx env) w) as [r0 w1].
        cbn [fst snd] in *. by subst r0. }
      rewrite Heq.
      destruct (IH m1 (collect m (sigCtx env) w).2 p' l tail eq_refl Hl Hfn Hpath Hnd Htail)
        as (H1 & H2 & H3 & H4 & (calls & Hlen & H5) & H6 & (p'' & H7 & H8 & H9)).
      split; [exact H1|].
      split; [rewrite H2, Hc, ticks_tick; lia|].
      split; [rewrite H3; exact (extendsBy_writeCalls _ _ _ (λ _ _, eq_refl) He)|].
      split; [by rewrite H4|].
      split.
      { eexists (mkPollCall _ _ _ :: calls). split.
        - rewrite ticks_tick. simpl. by rewrite Hlen.
        - rewrite H5. reflexivity. }
      split; [exact H6|].
      exists p''. split; [exact H7|]. split; [by rewrite H8 | by rewrite H9].
Qed.

End Loop.

(** X10.  A monitor with pipeline and logger but neither reload function
    nor configuration path, and events before the cancellation that are
    ticks and reload signals: the loop returns nil at the cancellation,
    having invoked the collector once per tick and once more for the final
    collection; reload signals add nothing; the statistics are those of
    that many polls; the loop itself never writes; and what follows the
    cancellation is not looked at.  Without the cancellation the loop is
    still blocked when the events run out. *)
Theorem pollLoop_polls_per_tick (ToLower : string → string)
    (ReadFile : string → string * error)
    (Unmarshal : string → Config → Config * error)
    (env : RunEnv) (m : Monitor.t) (ticker : Z) (w : World)
    (events rest : list LoopEvent) (p : Pipeline) (l : Logger) :
  Monitor.pipeline m = Some p → Monitor.logger m = Some l →
  Monitor.reloadFn m = None → Monitor.cfgPath m = "" →
  Forall (λ e, e ≠ CtxDone) events →
  let r := pollLoop ToLower ReadFile Unmarshal env m ticker
             (events ++ CtxDone :: rest) w in
  r.1.2 = Returned None ∧
  collections (trace r.2) = (collections (trace w) + ticks events + 1)%nat ∧
  writeCalls (trace r.2) = writeCalls (trace w) ∧
  (∃ calls, length calls = (ticks events + 1)%nat ∧
            Stats r.1.1 = recordAll calls (Monitor.stats m)) ∧
  (pollLoop ToLower ReadFile Unmarshal env m ticker events w).1.2 = Blocked.
Proof.
  intros Hp Hl Hfn Hpath Hnd r.
  destruct (pollLoop_spec ToLower ReadFile Unmarshal env ticker events m w p l
              (CtxDone :: rest) Hp Hl Hfn Hpath Hnd)
    as (H1 & H2 & H3 & _ & H5 & _); [right; by exists rest|].
  destruct (pollLoop_spec ToLower ReadFile Unmarshal env ticker events m w p l
              [] Hp Hl Hfn Hpath Hnd)
    as (H1' & _); [by left|].
  rewrite app_nil_r in H1'.
  fold r in H1, H2, H3, H5.
  split; [exact H1|]. split; [rewrite H2; lia|]. split; [exact H3|].
  split; [exact H5 | exact H1'].
Qed.

(** Two ticks around a reload signal, then the cancellation. *)
Lemma pollLoop_polls_per_tick_witness :
  let m := Monitor.setPipeline exampleMonitor
             (Some (NewPipeline DefaultPipelineConfig)) in
  let r := pollLoop asciiLower noFile keepConfig quietEnv m (10 * Second)
             [TickerFired; ReloadSignal; TickerFired; CtxDone; TickerFired]
             initialWorld in
  r.1.2 = Returned None ∧ collections (trace r.2) = 3%nat.
Proof.
  destruct (pollLoop_polls_per_tick asciiLower noFile keepConfig quietEnv
              (Monitor.setPipeline exampleMonitor
                 (Some (NewPipeline DefaultPipelineConfig)))
              (10 * Second) initialWorld
              [TickerFired; ReloadSignal; TickerFired] [TickerFired]
              (NewPipeline DefaultPipelineConfig) StderrTextLogger)
    as (H1 & H2 & _).
  - reflexivity.
  - reflexivity.
  - reflexivity.
  - reflexivity.
  - repeat constructor; discriminate.
  - split; [exact H1 | exact H2].
Defined.

(** *** The stages of a run *)

Section Running.

Variable ToLower : string → string.
Variable ToLineProtocol : Metric → string.
Variable ReadFile : string → string * error.
Variable Unmarshal : string → Config → Config * error.

Lemma fold_AddBackend bs :
  ∀ p, fold_left AddBackend bs p = setBackends p (backends p ++ bs).
Proof.
  induction bs as [|b bs IH]; intros p.
  - simpl. rewrite app_nil_r. by destruct p.
  - simpl. rewrite IH. unfold AddBackend, setBackends. simpl.
    by rewrite <- app_assoc.
Qed.

Lemma addBackends_spec m p :
  Monitor.pipeline m = Some p →
  let bs := backends p ++ registered ToLineProtocol m in
  addBackends ToLineProtocol m
  = Ok (Monitor.setPipeline m (Some (setBackends p bs)),
        if decide (bs = []) then
          Some (Errorf
            "no backends configured (use WithBackend, WithEcho, or enable backends in config)")
        else None).
Proof.
  intros Hp bs. subst bs. unfold addBackends, registered. rewrite Hp.
  rewrite fold_AddBackend.
  destruct (Monitor.echoMode m).
  - unfold AddBackend, BackendCount, setBackends.
    cbn [backends batchSize flushInterval retryAttempts retryDelay buffer done
         logger].
    rewrite <- app_assoc.
    destruct (decide (_ = [])) as [He|Hne].
    + apply (f_equal length) in He. rewrite !length_app in He. simpl in He. lia.
    + destruct (Z.of_nat _ =? 0) eqn:Hz; [|reflexivity].
      apply Z.eqb_eq in Hz. rewrite !length_app in Hz. simpl in Hz. lia.
  - rewrite app_nil_r. unfold BackendCount. cbn [backends setBackends].
    destruct (decide (_ = [])) as [He|Hne].
    + rewrite He. reflexivity.
    + destruct (Z.of_nat _ =? 0) eqn:Hz; [|reflexivity].
      apply Z.eqb_eq in Hz. destruct (backends p ++ Monitor.backends m); [done|].
      simpl in Hz. lia.
Qed.




End Running.

(** *** Registering the backends *)

(** X11.  [addBackends] appends to the pipeline the backends given with
    [WithBackend], in the order given, and after them the echo backend when
    echo mode is on; buffer and settings stay.  It returns the error
    exactly when the pipeline then has no backend. *)
Theorem addBackends_registers_in_order (ToLineProtocol : Metric → string)
    (m : Monitor.t) (p : Pipeline) :
  Monitor.pipeline m = Some p →
  ∃ m' p',
    addBackends ToLineProtocol m
    = Ok (m', if decide (backends p' = []) then
                Some (Errorf
                  "no backends configured (use WithBackend, WithEcho, or enable backends in config)")
              else None) ∧
    Monitor.pipeline m' = Some p' ∧
    backends p'
    = backends p ++ Monitor.backends m
      ++ (if Monitor.echoMode m
          then [echoBackend ToLineProtocol (NewEchoStdout (Monitor.logger m))]
          else []) ∧
    buffer p' = buffer p ∧ sameSettings p' p ∧
    BackendCount p'
    = BackendCount p + Z.of_nat (length (Monitor.backends m))
      + (if Monitor.echoMode m then 1 else 0).
Proof.
  intros Hp.
  exists (Monitor.setPipeline m
            (Some (setBackends p (backends p ++ registered ToLineProtocol m)))),
         (setBackends p (backends p ++ registered ToLineProtocol m)).
  split; [exact (addBackends_spec ToLineProtocol m p Hp)|].
  split; [reflexivity|]. split; [reflexivity|]. split; [reflexivity|].
  split; [done|].
  unfold BackendCount, registered. cbn [backends setBackends].
  rewrite !length_app. destruct (Monitor.echoMode m); simpl; lia.
Qed.

(** The example monitor with a second backend and echo mode. *)
Lemma addBackends_registers_in_order_witness :
  ∃ m' p',
    addBackends nameOnly
      (Monitor.setPipeline
         (WithEcho true (WithBackend downMock exampleMonitor))
         (Some (NewPipeline DefaultPipelineConfig)))
    = Ok (m', None) ∧
    Monitor.pipeline m' = Some p' ∧
    map Name (backends p') = ["up"; "down"; "echo"].
Proof.
  destruct (addBackends_registers_in_order nameOnly
              (Monitor.setPipeline
                 (WithEcho true (WithBackend downMock exampleMonitor))
                 (Some (NewPipeline DefaultPipelineConfig)))
              (NewPipeline DefaultPipelineConfig))
    as (m' & p' & H1 & H2 & H3 & _).
  - reflexivity.
  - exists m', p'. rewrite H3 in *. split; [exact H1|]. split; [exact H2|].
    reflexivity.
Defined.

(** *** A run whose start fails *)



(** *** Run-once, whatever the collector and the backends answer *)



(** *** What validation accepts *)

Lemma validLevels_names s :
  default false (validLevels !! s) = true ↔ s ∈ levelNames.
Proof.
  unfold validLevels, levelNames.
  destruct (decide (s = "debug")) as [->|H1];
    [split; [intros _; repeat constructor | done]|].
  rewrite lookup_insert_ne by done.
  destruct (decide (s = "info")) as [->|H2];
    [split; [intros _; repeat constructor | done]|].
  rewrite lookup_insert_ne by done.
  destruct (decide (s = "warn")) as [->|H3];
    [split; [intros _; repeat constructor | done]|].
  rewrite lookup_insert_ne by done.
  destruct (decide (s = "error")) as [->|H4];
    [split; [intros _; repeat constructor | done]|].
  rewrite lookup_insert_ne by done.
  rewrite lookup_empty. simpl. split; [done|].
  intros H. repeat (apply elem_of_cons in H as [?|H]; [done|]).
  by apply elem_of_nil in H.
Qed.

Lemma validateGlobal_nil (ToLower : string → string) c :
  validateGlobal ToLower c = [] ↔
  0 < GlobalConfig.PollInterval (Global c) ∧
  0 < GlobalConfig.BatchSize (Global c) ∧
  ToLower (GlobalConfig.LogLevel (Global c)) ∈ levelNames.
Proof.
  unfold validateGlobal. rewrite <- validLevels_names.
  destruct (GlobalConfig.PollInterval (Global c) <=? 0) eqn:H1;
    destruct (GlobalConfig.BatchSize (Global c) <=? 0) eqn:H2;
    destruct (default false _) eqn:H3; simpl;
    rewrite ?Z.leb_le, ?Z.leb_gt in *;
    (split; [try discriminate; intros _; repeat split; (lia || done)
            | try reflexivity; intros (? & ? & ?); (lia || discriminate)]).
Qed.

Lemma validateInfluxDB_nil c :
  validateInfluxDB c = [] ↔
  (InfluxDBConfig.Enabled (InfluxDB c) = true →
   InfluxDBConfig.URL (InfluxDB c) ≠ "" ∧ InfluxDBConfig.Token (InfluxDB c) ≠ "" ∧
   InfluxDBConfig.Org (InfluxDB c) ≠ "" ∧ InfluxDBConfig.Bucket (InfluxDB c) ≠ "").
Proof.
  unfold validateInfluxDB.
  destruct (InfluxDBConfig.Enabled (InfluxDB c)); simpl; [|split; done].
  destruct (decide (InfluxDBConfig.URL (InfluxDB c) = ""));
    destruct (decide (InfluxDBConfig.Token (InfluxDB c) = ""));
    destruct (decide (InfluxDBConfig.Org (InfluxDB c) = ""));
    destruct (decide (InfluxDBConfig.Bucket (InfluxDB c) = "")); simpl;
    (split; [try discriminate; done | try reflexivity; intros H;
             destruct (H eq_refl) as (? & ? & ? & ?); done]).
Qed.

Lemma validatePrometheus_nil c :
  validatePrometheus c = [] ↔
  (PrometheusConfig.Enabled (Prometheus c) = true →
   1 ≤ PrometheusConfig.Port (Prometheus c) ≤ 65535 ∧
   String.prefix "/" (PrometheusConfig.Path (Prometheus c)) = true).
Proof.
  unfold validatePrometheus.
  destruct (PrometheusConfig.Enabled (Prometheus c)); simpl; [|split; done].
  destruct (PrometheusConfig.Port (Prometheus c) <=? 0) eqn:H1;
    destruct (PrometheusConfig.Port (Prometheus c) >? 65535) eqn:H2;
    destruct (decide (PrometheusConfig.Path (Prometheus c) = "")) as [H3|H3];
    rewrite ?H3; simpl;
    try rewrite (bool_decide_eq_false_2 _ H3); simpl;
    destruct (String.prefix "/" (PrometheusConfig.Path (Prometheus c))) eqn:H4;
    simpl;
    rewrite ?Z.leb_le, ?Z.leb_gt, ?Z.gtb_ltb, ?Z.ltb_lt, ?Z.ltb_ge in *;
    (split; [try discriminate; intros _ _; split; (lia || done)
            | try reflexivity; intros H; destruct (H eq_refl) as ([? ?] & ?);
              (lia || discriminate)]).
Qed.

Lemma Validate_None (ToLower : string → string) c : Validate ToLower c = None ↔ wellFormed ToLower c.
Proof.
  assert (H : Validate ToLower c = None ↔
              validateGlobal ToLower c = [] ∧ validateInfluxDB c = [] ∧
              validatePrometheus c = []).
  { unfold Validate. rewrite app_nil_l.
    destruct (validateGlobal ToLower c) as [|e errs]; simpl.
    - destruct (validateInfluxDB c) as [|e errs]; simpl.
      + destruct (validatePrometheus c) as [|e errs]; simpl.
        * split; done.
        * split; [discriminate | intros (_ & _ & ?); discriminate].
      + split; [discriminate | intros (_ & ? & _); discriminate].
    - split; [discriminate | intros (? & _); discriminate]. }
  rewrite H, validateGlobal_nil, validateInfluxDB_nil, validatePrometheus_nil.
  unfold wellFormed. tauto.
Qed.

Lemma Validate_Some (ToLower : string → string) c e :
  Validate ToLower c = Some e → ∃ errs, e = ErrValidation errs ∧ errs ≠ [].
Proof.
  unfold Validate. destruct (decide _) as [H|H]; [|discriminate].
  intros [= <-]. eexists. split; [reflexivity|].
  intros E. apply (f_equal length) in E. simpl in E, H. lia.
Qed.

Lemma LoadConfig_cases (ToLower : string → string)
    (ReadFile : string → string * error)
    (Unmarshal : string → Config → Config * error) path :
  let r := LoadConfig ToLower ReadFile Unmarshal path in
  (∃ c, r = (Some c, None) ∧ (ReadFile path).2 = None ∧
        Unmarshal (ReadFile path).1 DefaultConfig = (c, None) ∧
        wellFormed ToLower c) ∨
  (∃ msg cause, r = (None, Some (Wrapf msg cause))).
Proof.
  intros r. subst r. unfold LoadConfig.
  destruct (ReadFile path) as [data [e|]]; [right; eauto|].
  destruct (Unmarshal data DefaultConfig) as [c [e|]] eqn:HU; [right; eauto|].
  destruct (Validate ToLower c) as [e|] eqn:HV; [right; eauto|].
  left. exists c. split; [reflexivity|]. split; [reflexivity|].
  split; [exact HU|]. by apply Validate_None.
Qed.

(** X14.  [Config.Validate] returns nil exactly for the configurations
    with a positive poll interval, a positive batch size, a log level that
    is, in lower case, one of debug, info, warn, error, all four InfluxDB
    settings non-empty when InfluxDB is enabled, and a port between 1 and
    65535 and a path starting with a slash when Prometheus is enabled.
    Otherwise it returns a list of validation errors that is not empty. *)
Theorem Validate_accepts_exactly_wellFormed (ToLower : string → string)
    (c : Config) :
  (Validate ToLower c = None ↔ wellFormed ToLower c) ∧
  (∀ e, Validate ToLower c = Some e →
        ∃ errs, e = ErrValidation errs ∧ errs ≠ []).
Proof.
  split; [exact (Validate_None ToLower c) | exact (Validate_Some ToLower c)].
Qed.

(** X15.  [LoadConfig] returns either a configuration and nil or no
    configuration and a wrapped error, never neither or both.  A
    configuration it returns is the file parsed over the defaults and is
    well-formed.  When the file can be read, it returns the configuration
    that [LoadConfigFromString] returns on the file's contents, and fails
    exactly when that does. *)
Theorem LoadConfig_valid_or_error (ToLower : string → string)
    (ReadFile : string → string * error)
    (Unmarshal : string → Config → Config * error) (path : string) :
  let r := LoadConfig ToLower ReadFile Unmarshal path in
  (r.1 = None ↔ r.2 ≠ None) ∧
  (∀ c, r.1 = Some c →
        wellFormed ToLower c ∧ (ReadFile path).2 = None ∧
        Unmarshal (ReadFile path).1 DefaultConfig = (c, None)) ∧
  (∀ e, r.2 = Some e → ∃ msg cause, e = Wrapf msg cause) ∧
  ((ReadFile path).2 = None →
   r.1 = (LoadConfigFromString ToLower Unmarshal (ReadFile path).1).1 ∧
   (r.2 = None ↔
    (LoadConfigFromString ToLower Unmarshal (ReadFile path).1).2 = None)).
Proof.
  intros r.
  split; [|split; [|split]].
  - destruct (LoadConfig_cases ToLower ReadFile Unmarshal path)
      as [(c & Hr & _)|(msg & cause & Hr)]; fold r in Hr; rewrite Hr; simpl.
    + split; [discriminate | done].
    + split; [discriminate | done].
  - intros c Hc.
    destruct (LoadConfig_cases ToLower ReadFile Unmarshal path)
      as [(c' & Hr & H1 & H2 & H3)|(msg & cause & Hr)]; fold r in Hr;
      rewrite Hr in Hc; simpl in Hc; [|discriminate].
    injection Hc as <-. done.
  - intros e He.
    destruct (LoadConfig_cases ToLower ReadFile Unmarshal path)
      as [(c' & Hr & _)|(msg & cause & Hr)]; fold r in Hr;
      rewrite Hr in He; simpl in He; [discriminate|].
    injection He as <-. eauto.
  - intros Hf. subst r. unfold LoadConfig, LoadConfigFromString.
    destruct (ReadFile path) as [data e]. simpl in Hf. subst e. simpl.
    destruct (Unmarshal data DefaultConfig) as [c [e|]]; [done|].
    destruct (Validate ToLower c); done.
Qed.

(** *** Reload *)

Section Reload.

Variable ToLower : string → string.
Variable ReadFile : string → string * error.
Variable Unmarshal : string → Config → Config * error.

(** The ticker period and the log level after a successful reload. *)
Lemma handleReload_success m ticker w l old new :
  Monitor.logger m = Some l → Monitor.cfg m = Some old →
  reloadSource ToLower ReadFile Unmarshal m = Some (Some new, None) →
  0 < GlobalConfig.PollInterval (Global new) →
  let r := handleReload ToLower ReadFile Unmarshal m ticker w in
  ∃ m',
    r.1 = Ok (m', if decide (GlobalConfig.PollInterval (Global new)
                             = GlobalConfig.PollInterval (Global old))
                  then ticker else GlobalConfig.PollInterval (Global new)) ∧
    Monitor.cfg m' = Some new ∧
    Monitor.levelVar m'
    = (match Monitor.levelVar m with
       | Some v =>
           if decide (GlobalConfig.LogLevel (Global new)
                      = GlobalConfig.LogLevel (Global old))
           then Some v
           else Some (ParseLogLevel ToLower (GlobalConfig.LogLevel (Global new)))
       | None => None
       end) ∧
    sameRuntime m m' ∧
    waits r.2 = waits w ∧
    extendsBy (λ e, match e with EvLog _ _ => true | _ => false end)
              (trace w) (trace r.2).
Proof.
  intros Hl Hc Hs Hpos r. subst r. unfold handleReload.
  rewrite Hl, Hs, Hc.
  cbv beta iota zeta delta [bind ret log emit fst snd].
  cbn [waits trace].
  destruct (decide (GlobalConfig.PollInterval (Global new)
                    = GlobalConfig.PollInterval (Global old))) as [Hi|Hi].
  - destruct (Monitor.levelVar m) as [v|] eqn:Hv.
    + destruct (decide (GlobalConfig.LogLevel (Global new)
                        = GlobalConfig.LogLevel (Global old))) as [Hlv|Hlv].
      * eexists. split; [reflexivity|]. mcbn. rewrite Hv.
        repeat split. by apply extendsBy_snoc.
      * eexists. split; [reflexivity|]. mcbn.
        repeat split.
        eapply extendsBy_trans; by apply extendsBy_snoc.
    + eexists. split; [reflexivity|]. mcbn. rewrite Hv.
      repeat split. by apply extendsBy_snoc.
  - destruct (GlobalConfig.PollInterval (Global new) <=? 0) eqn:Hle;
      [apply Z.leb_le in Hle; lia|].
    cbn [waits trace].
    destruct (Monitor.levelVar m) as [v|] eqn:Hv.
    + destruct (decide (GlobalConfig.LogLevel (Global new)
                        = GlobalConfig.LogLevel (Global old))) as [Hlv|Hlv].
      * eexists. split; [reflexivity|]. mcbn. rewrite Hv.
        repeat split.
        eapply extendsBy_trans; by apply extendsBy_snoc.
      * eexists. split; [reflexivity|]. mcbn.
        repeat split.
        eapply extendsBy_trans; [|by apply extendsBy_snoc].
        eapply extendsBy_trans; by apply extendsBy_snoc.
    + eexists. split; [reflexivity|]. mcbn. rewrite Hv.
      repeat split.
      eapply extendsBy_trans; by apply extendsBy_snoc.
Qed.

Lemma handleReload_kept m ticker w l :
  Monitor.logger m = Some l →
  (reloadSource ToLower ReadFile Unmarshal m = None ∨
   ∃ c e, reloadSource ToLower ReadFile Unmarshal m = Some (c, Some e)) →
  (handleReload ToLower ReadFile Unmarshal m ticker w).1 = Ok (m, ticker).
Proof.
  intros Hl Hs. unfold handleReload. rewrite Hl.
  destruct Hs as [->|(c & e & ->)]; [reflexivity|].
  by destruct c.
Qed.

End Reload.

(** X16.  [handleReload] with a reload source that gives a configuration
    with a positive poll interval: the call returns normally, the new
    configuration replaces the old, a ticker that ran at the old interval
    runs at the new one, the level variable (when the monitor built its
    own logger) takes the new level if the level string changed.  Nothing
    else of the monitor changes, the pipeline in particular keeps the
    settings it was built with; nothing is written, collected or waited
    for. *)
Theorem handleReload_applies_new_config (ToLower : string → string)
    (ReadFile : string → string * error)
    (Unmarshal : string → Config → Config * error)
    (m : Monitor.t) (ticker : Z) (w : World) (l : Logger) (old new : Config) :
  Monitor.logger m = Some l → Monitor.cfg m = Some old →
  reloadSource ToLower ReadFile Unmarshal m = Some (Some new, None) →
  0 < GlobalConfig.PollInterval (Global new) →
  let r := handleReload ToLower ReadFile Unmarshal m ticker w in
  ∃ m' ticker',
    r.1 = Ok (m', ticker') ∧
    Monitor.cfg m' = Some new ∧
    (ticker = GlobalConfig.PollInterval (Global old) →
     ticker' = GlobalConfig.PollInterval (Global new)) ∧
    Monitor.levelVar m'
    = (match Monitor.levelVar m with
       | Some v =>
           if decide (GlobalConfig.LogLevel (Global new)
                      = GlobalConfig.LogLevel (Global old))
           then Some v
           else Some (ParseLogLevel ToLower (GlobalConfig.LogLevel (Global new)))
       | None => None
       end) ∧
    sameRuntime m m' ∧
    waits r.2 = waits w ∧
    writeCalls (trace r.2) = writeCalls (trace w) ∧
    collections (trace r.2) = collections (trace w).
Proof.
  intros Hl Hc Hs Hpos r.
  destruct (handleReload_success ToLower ReadFile Unmarshal m ticker w l old new
              Hl Hc Hs Hpos) as (m' & Hr & H1 & H2 & H3 & H4 & H5).
  fold r in Hr, H4, H5.
  eexists m', _. split; [exact Hr|]. split; [exact H1|].
  split; [intros ->; by destruct (decide _)|].
  split; [exact H2|]. split; [exact H3|]. split; [exact H4|].
  split; [exact (extendsBy_writeCalls _ _ _ (λ _ _, eq_refl) H5)
         | exact (extendsBy_collections _ _ _ eq_refl H5)].
Qed.

(** A reload function that switches to five seconds and debug. *)
Lemma handleReload_applies_new_config_witness :
  let m := Monitor.setPipeline (WithReloadFunc (Some reloadFast) bareMonitor)
             (Some (pipelineFor StderrTextLogger DefaultConfig)) in
  ∃ m',
    (handleReload asciiLower noFile keepConfig m (10 * Second) initialWorld).1
    = Ok (m', 5 * Second) ∧
    Monitor.cfg m' = Some fastConfig ∧
    Monitor.levelVar m' = Some LevelDebug ∧
    Monitor.pipeline m' = Some (pipelineFor StderrTextLogger DefaultConfig).
Proof.
  destruct (handleReload_applies_new_config asciiLower noFile keepConfig
              (Monitor.setPipeline (WithReloadFunc (Some reloadFast) bareMonitor)
                 (Some (pipelineFor StderrTextLogger DefaultConfig)))
              (10 * Second) initialWorld StderrTextLogger DefaultConfig fastConfig)
    as (m' & t' & H1 & H2 & H3 & H4 & H5 & _).
  - reflexivity.
  - reflexivity.
  - reflexivity.
  - reflexivity.
  - exists m'. rewrite (H3 eq_refl) in H1.
    split; [exact H1|]. split; [exact H2|]. split; [exact H4|].
    destruct H5 as (_ & _ & -> & _). reflexivity.
Defined.

(** X17.  Without a reload function, [handleReload] on a monitor with
    logger and configuration always returns normally: the configuration
    it ends with is the old one or a well-formed one read from the file, a
    positive ticker period stays positive, and the pipeline is the same. *)
Theorem handleReload_from_file_never_panics (ToLower : string → string)
    (ReadFile : string → string * error)
    (Unmarshal : string → Config → Config * error)
    (m : Monitor.t) (ticker : Z) (w : World) (l : Logger) (old : Config) :
  Monitor.logger m = Some l → Monitor.cfg m = Some old →
  Monitor.reloadFn m = None →
  let r := handleReload ToLower ReadFile Unmarshal m ticker w in
  ∃ m' ticker',
    r.1 = Ok (m', ticker') ∧
    (0 < ticker → 0 < ticker') ∧
    (∃ c, Monitor.cfg m' = Some c ∧ (c = old ∨ wellFormed ToLower c)) ∧
    Monitor.pipeline m' = Monitor.pipeline m.
Proof.
  intros Hl Hc Hfn r.
  destruct (reloadSource ToLower ReadFile Unmarshal m) as [[oc oe]|] eqn:Hs.
  - unfold reloadSource in Hs. rewrite Hfn in Hs.
    destruct (decide (Monitor.cfgPath m = "")); [discriminate|].
    injection Hs as Hs.
    destruct (LoadConfig_cases ToLower ReadFile Unmarshal (Monitor.cfgPath m))
      as [(c & Hr & _ & _ & Hwf)|(msg & cause & Hr)]; rewrite Hs in Hr;
      injection Hr as -> ->.
    + assert (Hs' : reloadSource ToLower ReadFile Unmarshal m = Some (Some c, None)).
      { unfold reloadSource. rewrite Hfn.
        destruct (decide (Monitor.cfgPath m = "")); [done|]. by rewrite Hs. }
      assert (Hpos : 0 < GlobalConfig.PollInterval (Global c)) by apply Hwf.
      destruct (handleReload_success ToLower ReadFile Unmarshal m ticker w l old c
                  Hl Hc Hs' Hpos) as (m' & Hr & H1 & _ & H3 & _).
      fold r in Hr. eexists m', _. split; [exact Hr|].
      split; [intros ?; by destruct (decide _)|].
      split; [exists c; split; [exact H1 | by right]|].
      apply H3.
    + assert (Hs' : reloadSource ToLower ReadFile Unmarshal m
                    = Some (None, Some (Wrapf msg cause))).
      { unfold reloadSource. rewrite Hfn.
        destruct (decide (Monitor.cfgPath m = "")); [done|]. by rewrite Hs. }
      exists m, ticker. subst r.
      rewrite (handleReload_kept ToLower ReadFile Unmarshal m ticker w l Hl)
        by (right; eauto).
      split; [reflexivity|]. split; [done|].
      split; [exists old; split; [exact Hc | by left]|]. reflexivity.
  - exists m, ticker. subst r.
    rewrite (handleReload_kept ToLower ReadFile Unmarshal m ticker w l Hl)
      by (by left).
    split; [reflexivity|]. split; [done|].
    split; [exists old; split; [exact Hc | by left]|]. reflexivity.
Qed.

(** A configuration file that leaves the defaults as they are. *)
Lemma handleReload_from_file_never_panics_witness :
  ∃ m',
    (handleReload asciiLower emptyFile keepConfig
       (WithConfigFile "monitor.toml" bareMonitor) (10 * Second)
       initialWorld).1
    = Ok (m', 10 * Second).
Proof.
  destruct (handleReload_from_file_never_panics asciiLower emptyFile keepConfig
              (WithConfigFile "monitor.toml" bareMonitor) (10 * Second)
              initialWorld StderrTextLogger DefaultConfig)
    as (m' & t' & H1 & _).
  - reflexivity.
  - reflexivity.
  - reflexivity.
  - exists m'. rewrite H1. vm_compute in H1. injection H1 as _ <-. reflexivity.
Defined.

(** *** Log levels *)

(** X18.  On the level names validation accepts, [ParseLogLevel] maps
    different names (in lower case) to different levels; every name
    validation rejects is read as info; and the level variable [NewLogger]
    returns holds the parsed level. *)
Theorem ParseLogLevel_agrees_with_validation (ToLower : string → string)
    (a b : string) :
  (ToLower a ∈ levelNames → ToLower b ∈ levelNames →
   ParseLogLevel ToLower a = ParseLogLevel ToLower b → ToLower a = ToLower b) ∧
  (ToLower a ∉ levelNames → ParseLogLevel ToLower a = LevelInfo) ∧
  (NewLogger ToLower a).2 = ParseLogLevel ToLower a.
Proof.
  unfold ParseLogLevel, levelNames, NewLogger.
  split; [|split; [|reflexivity]].
  - intros Ha Hb.
    repeat (apply elem_of_cons in Ha as [->|Ha]);
      repeat (apply elem_of_cons in Hb as [->|Hb]);
      try (by apply elem_of_nil in Ha); try (by apply elem_of_nil in Hb);
      simpl; done.
  - intros Ha.
    destruct (decide (ToLower a = "debug")) as [E|_];
      [rewrite E in Ha; exfalso; apply Ha; repeat constructor|].
    destruct (decide (ToLower a = "warn")) as [E|_];
      [rewrite E in Ha; exfalso; apply Ha; repeat constructor|].
    destruct (decide (ToLower a = "error")) as [E|_];
      [rewrite E in Ha; exfalso; apply Ha; repeat constructor|].
    reflexivity.
Qed.

(** *** Metric builders *)

Lemma tagEach_fields order :
  ∀ m, Measurement (tagEach order m) = Measurement m ∧
       Fields (tagEach order m) = Fields m ∧
       Timestamp (tagEach order m) = Timestamp m.
Proof.
  induction order as [|kv order IH]; intros m; [done|].
  simpl. destruct (IH (WithTag m kv.1 kv.2)) as (-> & -> & ->). done.
Qed.

Lemma tagEach_tags order :
  NoDup order.*1 →
  ∀ m, Tags (tagEach order m) = list_to_map order ∪ Tags m.
Proof.
  induction order as [|[k v] order IH]; intros Hnd m.
  - simpl. by rewrite (left_id_L ∅ (∪)).
  - rewrite fmap_cons in Hnd. apply NoDup_cons in Hnd as [Hk Hnd].
    change (tagEach ((k, v) :: order) m) with (tagEach order (WithTag m k v)).
    rewrite (IH Hnd). cbn [Tags WithTag]. rewrite list_to_map_cons.
    rewrite <- insert_union_l. symmetry.
    apply insert_union_r. by apply not_elem_of_list_to_map_1.
Qed.

Lemma fieldEach_rest order :
  ∀ m, Measurement (fieldEach order m) = Measurement m ∧
       Tags (fieldEach order m) = Tags m ∧
       Timestamp (fieldEach order m) = Timestamp m.
Proof.
  induction order as [|kv order IH]; intros m; [done|].
  simpl. destruct (IH (WithField m kv.1 kv.2)) as (-> & -> & ->). done.
Qed.

Lemma fieldEach_fields order :
  NoDup order.*1 →
  ∀ m, Fields (fieldEach order m) = list_to_map order ∪ Fields m.
Proof.
  induction order as [|[k v] order IH]; intros Hnd m.
  - simpl. by rewrite (left_id_L ∅ (∪)).
  - rewrite fmap_cons in Hnd. apply NoDup_cons in Hnd as [Hk Hnd].
    change (fieldEach ((k, v) :: order) m) with (fieldEach order (WithField m k v)).
    rewrite (IH Hnd). cbn [Fields WithField]. rewrite list_to_map_cons.
    rewrite <- insert_union_l. symmetry.
    apply insert_union_r. by apply not_elem_of_list_to_map_1.
Qed.

Lemma Metric_eq (m m' : Metric) :
  Measurement m = Measurement m' → Tags m = Tags m' → Fields m = Fields m' →
  Timestamp m = Timestamp m' → m = m'.
Proof. destruct m, m'. simpl. by intros -> -> -> ->. Qed.

(** X19.  [WithTags] and [WithFields] give the same metric in whatever
    order the range visits the entries of the map: the tags (fields) of
    the result are those of the argument, plus those the metric had under
    other keys; the rest of the metric is untouched. *)
Theorem WithTags_any_order (m : Metric) (tags : gmap string string)
    (fields : gmap string FieldValue)
    (tagOrder : list (string * string))
    (fieldOrder : list (string * FieldValue)) :
  tagOrder ≡ₚ map_to_list tags → fieldOrder ≡ₚ map_to_list fields →
  tagEach tagOrder m = WithTags m tags ∧
  fieldEach fieldOrder m = WithFields m fields ∧
  Tags (WithTags m tags) = tags ∪ Tags m ∧
  Fields (WithTags m tags) = Fields m ∧
  Fields (WithFields m fields) = fields ∪ Fields m ∧
  Tags (WithFields m fields) = Tags m.
Proof.
  intros Ht Hf.
  assert (Hndt : NoDup tagOrder.*1).
  { rewrite Ht. apply NoDup_fst_map_to_list. }
  assert (Hndf : NoDup fieldOrder.*1).
  { rewrite Hf. apply NoDup_fst_map_to_list. }
  assert (HT : ∀ order, order ≡ₚ map_to_list tags →
                        Tags (tagEach order m) = tags ∪ Tags m).
  { intros order Ho. rewrite tagEach_tags.
    - f_equal. rewrite <- (list_to_map_to_list tags).
      apply list_to_map_proper; [|exact Ho].
      rewrite Ho. apply NoDup_fst_map_to_list.
    - rewrite Ho. apply NoDup_fst_map_to_list. }
  assert (HF : ∀ order, order ≡ₚ map_to_list fields →
                        Fields (fieldEach order m) = fields ∪ Fields m).
  { intros order Ho. rewrite fieldEach_fields.
    - f_equal. rewrite <- (list_to_map_to_list fields).
      apply list_to_map_proper; [|exact Ho].
      rewrite Ho. apply NoDup_fst_map_to_list.
    - rewrite Ho. apply NoDup_fst_map_to_list. }
  unfold WithTags, WithFields.
  split; [|split; [|split; [|split; [|split]]]].
  - destruct (tagEach_fields tagOrder m) as (H1 & H2 & H3).
    destruct (tagEach_fields (map_to_list tags) m) as (H1' & H2' & H3').
    apply Metric_eq; [congruence | | congruence | congruence].
    rewrite (HT _ Ht), (HT _ (reflexivity _)). done.
  - destruct (fieldEach_rest fieldOrder m) as (H1 & H2 & H3).
    destruct (fieldEach_rest (map_to_list fields) m) as (H1' & H2' & H3').
    apply Metric_eq; [congruence | congruence | | congruence].
    rewrite (HF _ Hf), (HF _ (reflexivity _)). done.
  - apply HT. reflexivity.
  - apply tagEach_fields.
  - apply HF. reflexivity.
  - apply fieldEach_rest.
Qed.

(** Two tags, visited in either order. *)
Lemma WithTags_any_order_witness :
  tagEach [("rack", "r1"); ("location", "lab")] temperature
  = WithTags temperature
      (<["location" := "lab"]> (<["rack" := "r1"]> ∅)) ∧
  Tags (WithTags temperature (<["location" := "lab"]> (<["rack" := "r1"]> ∅)))
  !! "location" = Some "lab".
Proof.
  destruct (WithTags_any_order temperature
              (<["location" := "lab"]> (<["rack" := "r1"]> ∅)) ∅
              [("rack", "r1"); ("location", "lab")] [])
    as (H1 & _ & H3 & _).
  - vm_compute. apply Permutation_refl || apply perm_swap.
  - vm_compute. constructor.
  - split; [exact H1|]. rewrite H3. reflexivity.
Defined.

(** X20.  [Metric.Validate] returns nil exactly when the measurement name
    is not empty and there is at least one field.  So a metric fresh from
    [NewMetric] is never valid, [WithField] makes valid every metric with a
    name, [WithFields] does so when the metric has a field or the argument
    is not empty, and [WithTag], [WithTags] and [WithTimestamp] never change
    the verdict. *)
Theorem Validate_after_builders (m : Metric) (k v : string) (f : FieldValue)
    (tags : gmap string string) (fields : gmap string FieldValue) (now t : Z) :
  (MetricM.Validate m = None ↔ Measurement m ≠ "" ∧ Fields m ≠ ∅) ∧
  MetricM.Validate (NewMetric k now) ≠ None ∧
  (MetricM.Validate (WithField m k f) = None ↔ Measurement m ≠ "") ∧
  MetricM.Validate (WithTag m k v) = MetricM.Validate m ∧
  MetricM.Validate (WithTags m tags) = MetricM.Validate m ∧
  MetricM.Validate (WithTimestamp m t) = MetricM.Validate m ∧
  (MetricM.Validate (WithFields m fields) = None ↔
   Measurement m ≠ "" ∧ (Fields m ≠ ∅ ∨ fields ≠ ∅)).
Proof.
  assert (HV : ∀ x, MetricM.Validate x = None ↔ Measurement x ≠ "" ∧ Fields x ≠ ∅).
  { intros x. unfold MetricM.Validate.
    destruct (decide (Measurement x = "")) as [H|H]; [split; [done | tauto]|].
    destruct (decide (size (Fields x) = 0%nat)) as [H0|H0].
    - apply map_size_empty_iff in H0. split; [done | tauto].
    - split; [|done]. intros _. split; [done|].
      intros E. apply H0. by apply map_size_empty_iff. }
  split; [apply HV|].
  split.
  { unfold MetricM.Validate, NewMetric. simpl.
    destruct (decide (k = "")); [done|]. rewrite map_size_empty. simpl. done. }
  split.
  { rewrite HV. simpl. split; [tauto|]. intros H. split; [done|].
    apply insert_non_empty. }
  split; [reflexivity|].
  split.
  { unfold MetricM.Validate, WithTags.
    destruct (tagEach_fields (map_to_list tags) m) as (-> & -> & _). done. }
  split; [reflexivity|].
  rewrite HV. unfold WithFields.
  destruct (fieldEach_rest (map_to_list fields) m) as (-> & _ & _).
  rewrite fieldEach_fields by apply NoDup_fst_map_to_list.
  rewrite list_to_map_to_list.
  split.
  - intros [H1 H2]. split; [done|].
    destruct (decide (Fields m = ∅)) as [E|E]; [|by left]. right.
    intros E'. apply H2. rewrite E, E'. by rewrite (left_id_L ∅ (∪)).
  - intros [H1 H2]. split; [done|]. intros E.
    apply map_positive_l in E as E1.
    rewrite E1, (left_id_L ∅ (∪)) in E. tauto.
Qed.

(** *** Escaping *)

Lemma append_assoc (s t u : string) :
  ((s ++ t) ++ u)%string = (s ++ (t ++ u))%string.
Proof.
  induction s as [|c s IH]; [done|].
  change (String c ((s ++ t) ++ u)%string = String c (s ++ (t ++ u))%string).
  by rewrite IH.
Qed.

Lemma replaceByte_app old new s t :
  replaceByte old new (s ++ t)%string
  = (replaceByte old new s ++ replaceByte old new t)%string.
Proof.
  induction s as [|c s IH]; simpl; [done|].
  destruct (Ascii.eqb c old); simpl; rewrite IH; [|done].
  by rewrite append_assoc.
Qed.

Lemma escapeKey_cons c s :
  escapeKey (String c s)
  = if isSeparator c then String "\"%char (String c (escapeKey s))
    else String c (escapeKey s).
Proof.
  unfold escapeKey, isSeparator. cbn [replaceByte].
  destruct (Ascii.eqb c ","%char) eqn:E1.
  - apply Ascii.eqb_eq in E1. subst c. reflexivity.
  - destruct (Ascii.eqb c "="%char) eqn:E2.
    + apply Ascii.eqb_eq in E2. subst c. reflexivity.
    + cbn [replaceByte]. rewrite E2. cbn [replaceByte].
      destruct (Ascii.eqb c " "%char) eqn:E3.
      * apply Ascii.eqb_eq in E3. subst c. reflexivity.
      * reflexivity.
Qed.

Lemma escapeKey_backslashed s : escapeKey s = backslashed s.
Proof.
  induction s as [|c s IH]; [reflexivity|].
  rewrite escapeKey_cons. simpl. by rewrite IH.
Qed.

Lemma backslashed_app s t :
  backslashed (s ++ t)%string = (backslashed s ++ backslashed t)%string.
Proof.
  induction s as [|c s IH]; simpl; [done|].
  destruct (isSeparator c); simpl; by rewrite IH.
Qed.

(** X21.  The three replacement passes of [escapeKey] do not interfere:
    the result is the string with a backslash put before each comma, equals
    sign and space, and nothing else changed.  [escapeTagValue] is the same
    function; escaping commutes with concatenation; the result is longer by
    the number of separators.  A backslash is copied as it is, so a key
    that ends in a backslash, followed by a comma, reads as the key that
    ends in a comma. *)
Theorem escapeKey_backslashes_separators (s t : string) :
  escapeKey s = backslashed s ∧
  escapeTagValue s = escapeKey s ∧
  escapeKey (s ++ t)%string = (escapeKey s ++ escapeKey t)%string ∧
  String.length (escapeKey s) = (String.length s + separators s)%nat ∧
  (escapeKey (s ++ "\") ++ ",")%string = escapeKey (s ++ ",")%string.
Proof.
  split; [apply escapeKey_backslashed|]. split; [reflexivity|].
  split; [rewrite !escapeKey_backslashed; apply backslashed_app|].
  split.
  - rewrite escapeKey_backslashed.
    induction s as [|c s IH]; simpl; [done|].
    destruct (isSeparator c); simpl; rewrite IH; lia.
  - rewrite !escapeKey_backslashed, !backslashed_app. simpl.
    by rewrite append_assoc.
Qed.

(** *** The echo backend *)

Section EchoFacts.

Variable ToLineProtocol : Metric → string.

Lemma echoLines_accepts batch :
  ∀ out,
  echoLines ToLineProtocol (mkWriter out None) batch
  = (mkWriter (out ++ map ToLineProtocol batch) None, None).
Proof.
  induction batch as [|m batch IH]; intros out.
  - simpl. by rewrite app_nil_r.
  - simpl. rewrite IH. by rewrite <- app_assoc.
Qed.

End EchoFacts.

(** X22.  An echo backend whose writer accepts: [Write] returns nil and
    appends one line per metric, in the order of the batch, whether the
    backend is healthy or not, and leaves the health flag alone.  [Close]
    returns nil and makes it unhealthy, [Initialize] makes it healthy
    again. *)
Theorem Echo_writes_one_line_per_metric (ToLineProtocol : Metric → string)
    (e : Echo) (w : Writer) (ctx : Context) (batch : list Metric) :
  writer e = Some w → refuses w = None →
  let r := Write (echoBackend ToLineProtocol e) ctx batch in
  r.2 = None ∧
  r.1 = echoBackend ToLineProtocol
          (mkEcho (Some (mkWriter (output w ++ map ToLineProtocol batch) None))
                  (echoLogger e) (healthy e)) ∧
  Healthy r.1 = healthy e ∧
  Healthy (Close r.1).1 = false ∧ (Close r.1).2 = None ∧
  Healthy (Initialize (Close r.1).1 ctx).1 = true ∧
  Name r.1 = "echo".
Proof.
  intros Hw Hr r. subst r.
  unfold Write, echoBackend. cbn [bops bst bstate opWrite Echo_ops].
  rewrite Hw. destruct w as [out rf]. simpl in Hr. subst rf.
  rewrite echoLines_accepts. cbn [output]. done.
Qed.

(** Two points on standard output. *)
Lemma Echo_writes_one_line_per_metric_witness :
  let r := Write (echoBackend nameOnly (NewEchoStdout None)) Background
                 [temperature; humidity] in
  r.2 = None ∧
  r.1 = echoBackend nameOnly
          (mkEcho (Some (mkWriter ["temperature"; "humidity"] None))
                  DefaultLogger true).
Proof.
  destruct (Echo_writes_one_line_per_metric nameOnly (NewEchoStdout None) Stdout
              Background [temperature; humidity])
    as (H1 & H2 & _).
  - reflexivity.
  - reflexivity.
  - split; [exact H1 | exact H2].
Defined.

(** X23.  An echo backend whose writer refuses: [Write] on a non-empty
    batch returns the writer's error wrapped and writes nothing; on an
    empty batch it returns nil.  Without a writer it fails as not
    initialised. *)
Theorem Echo_reports_refused_write (ToLineProtocol : Metric → string)
    (e : Echo) (w : Writer) (err : Error) (ctx : Context) (batch : list Metric) :
  writer e = Some w → refuses w = Some err →
  let r := Write (echoBackend ToLineProtocol e) ctx batch in
  r.1 = echoBackend ToLineProtocol
          (mkEcho (Some w) (echoLogger e) (healthy e)) ∧
  r.2 = (if batch is [] then None
         else Some (Wrapf "failed to write metric" err)) ∧
  (Write (echoBackend ToLineProtocol (mkEcho None (echoLogger e) (healthy e)))
         ctx batch).2
  = Some (Errorf "echo backend not initialized").
Proof.
  intros Hw Hr r. subst r.
  unfold Write, echoBackend. cbn [bops bst bstate opWrite Echo_ops].
  rewrite Hw. destruct w as [out rf]. simpl in Hr. subst rf.
  destruct batch as [|m batch]; simpl; done.
Qed.

(** A broken pipe. *)
Lemma Echo_reports_refused_write_witness :
  (Write (echoBackend nameOnly (mkEcho (Some brokenPipe) DefaultLogger true))
         Background [cpu]).2
  = Some (Wrapf "failed to write metric" (Errorf "broken pipe")).
Proof.
  destruct (Echo_reports_refused_write nameOnly
              (mkEcho (Some brokenPipe) DefaultLogger true) brokenPipe
              (Errorf "broken pipe") Background [cpu])
    as (_ & H2 & _).
  - reflexivity.
  - reflexivity.
  - exact H2.
Defined.

(** *** MultiBackend *)

Lemma writeEach_spec ctx batch bs :
  ∀ lastErr,
  MultiBackend.writeEach ctx batch bs lastErr
  = (map (λ b, (Write b ctx batch).1) bs,
     lastError (map (λ b, (Write b ctx batch).2) bs) lastErr).
Proof.
  induction bs as [|b bs IH]; intros lastErr; [reflexivity|].
  simpl. destruct (Write b ctx batch) as [b' [e|]]; rewrite IH; reflexivity.
Qed.

Lemma closeEach_spec bs :
  ∀ lastErr,
  MultiBackend.closeEach bs lastErr
  = (map (λ b, (Close b).1) bs, lastError (map (λ b, (Close b).2) bs) lastErr).
Proof.
  induction bs as [|b bs IH]; intros lastErr; [reflexivity|].
  simpl. destruct (Close b) as [b' [e|]]; rewrite IH; reflexivity.
Qed.

Lemma initEach_ok ctx bs :
  Forall (λ b, (Initialize b ctx).2 = None) bs →
  MultiBackend.initEach ctx bs = (map (λ b, (Initialize b ctx).1) bs, None).
Proof.
  induction 1 as [|b bs Hb _ IH]; [reflexivity|].
  simpl. destruct (Initialize b ctx) as [b' e]. simpl in Hb. subst e.
  by rewrite IH.
Qed.

Lemma initEach_fail ctx pre b post e :
  Forall (λ b, (Initialize b ctx).2 = None) pre →
  (Initialize b ctx).2 = Some e →
  MultiBackend.initEach ctx (pre ++ b :: post)
  = (map (λ b, (Initialize b ctx).1) pre ++ (Initialize b ctx).1 :: post, Some e).
Proof.
  intros Hpre Hb. induction Hpre as [|a pre Ha _ IH].
  - simpl. destruct (Initialize b ctx) as [b' e']. simpl in Hb. by subst e'.
  - simpl. destruct (Initialize a ctx) as [a' ea]. simpl in Ha. subst ea.
    by rewrite IH.
Qed.

Lemma lastError_Some errs :
  ∀ e, lastError errs (Some e) ≠ None.
Proof.
  induction errs as [|[x|] errs IH]; intros e; simpl; [done | apply IH | apply IH].
Qed.

Lemma lastError_None errs :
  lastError errs None = None ↔ Forall (λ e, e = None) errs.
Proof.
  induction errs as [|[x|] errs IH]; simpl.
  - split; [constructor | done].
  - split; [intros E; by apply lastError_Some in E | intros E; by inversion E].
  - rewrite IH. split; [by constructor | intros E; by inversion E].
Qed.

Lemma allHealthy_Forall bs :
  MultiBackend.allHealthy bs = true ↔ Forall (λ b, Healthy b = true) bs.
Proof.
  induction bs as [|b bs IH]; simpl; [split; [constructor | done]|].
  destruct (Healthy b) eqn:Hb; simpl.
  - rewrite IH. split; [by constructor | intros E; by inversion E].
  - split; [done | intros E; inversion E; congruence].
Qed.

(** X24.  [MultiBackend.Write] calls [Write] on every wrapped backend, once
    each, healthy or not, and returns the last error, so nil exactly when
    every write succeeded; [Close] likewise; [Healthy] holds exactly when
    every wrapped backend is healthy; [Initialize] stops at the first
    backend that fails and leaves the ones after it untouched. *)
Theorem MultiBackend_write_reaches_all (bs : list Backend) (ctx : Context)
    (batch : list Metric) :
  let m := NewMultiBackend bs in
  MultiBackend.backends (opWrite m ctx batch).1
  = map (λ b, (Write b ctx batch).1) bs ∧
  (opWrite m ctx batch).2 = lastError (map (λ b, (Write b ctx batch).2) bs) None ∧
  ((opWrite m ctx batch).2 = None ↔
   Forall (λ b, (Write b ctx batch).2 = None) bs) ∧
  MultiBackend.backends (opClose m).1 = map (λ b, (Close b).1) bs ∧
  ((opClose m).2 = None ↔ Forall (λ b, (Close b).2 = None) bs) ∧
  (opHealthy m = true ↔ Forall (λ b, Healthy b = true) bs) ∧
  (∀ pre b post e,
     bs = pre ++ b :: post →
     Forall (λ b, (Initialize b ctx).2 = None) pre →
     (Initialize b ctx).2 = Some e →
     (opInitialize m ctx).2 = Some e ∧
     MultiBackend.backends (opInitialize m ctx).1
     = map (λ b, (Initialize b ctx).1) pre ++ (Initialize b ctx).1 :: post).
Proof.
  intros m. subst m.
  cbn [opWrite opClose opHealthy opInitialize MultiBackend_ops].
  unfold MultiBackend.Write, MultiBackend.Close, MultiBackend.Healthy,
    MultiBackend.Initialize, NewMultiBackend.
  cbn [MultiBackend.backends].
  rewrite writeEach_spec, closeEach_spec. cbn [fst snd MultiBackend.backends].
  split; [reflexivity|]. split; [reflexivity|].
  split; [rewrite lastError_None, Forall_fmap; reflexivity|].
  split; [reflexivity|].
  split; [rewrite lastError_None, Forall_fmap; reflexivity|].
  split; [apply allHealthy_Forall|].
  intros pre b post e -> Hpre Hb.
  rewrite (initEach_fail ctx pre b post e Hpre Hb). done.
Qed.

(** *** A pipeline with one attempt *)

Lemma flushBackends_single_attempt p ctx batch bs :
  retryAttempts p = 1 →
  Forall (λ b, Healthy b = true) bs →
  ∀ i lastErr w,
  (flushBackends p ctx batch i bs lastErr w).1
  = MultiBackend.writeEach ctx batch bs lastErr.
Proof.
  intros Hn Hh. induction Hh as [|b bs Hb _ IH]; intros i lastErr w; [reflexivity|].
  rewrite flushBackends_cons, Hb. cbv zeta.
  unfold writeWithRetry. rewrite Hn.
  change (Z.to_nat 1) with 1%nat.
  rewrite retryLoop_unfold. cbv zeta. cbn [MultiBackend.writeEach].
  destruct (Write b ctx batch) as [b' [e|]]; cbn [fst snd].
  - rewrite Hn. change (1 <? 1) with false. cbn [retryLoop ret fst snd].
    rewrite IH. by destruct (MultiBackend.writeEach _ _ _ _).
  - rewrite IH. by destruct (MultiBackend.writeEach _ _ _ _).
Qed.

(** X25.  With a retry count of one and backends that all report healthy,
    [Flush] of a non-empty buffer delivers as [MultiBackend.Write] on the
    same backends and batch does: the backends end in the same states and
    the same error is returned. *)
Theorem Flush_single_attempt_as_MultiBackend (p : Pipeline) (ctx : Context)
    (w : World) :
  retryAttempts p = 1 → buffer p ≠ [] →
  Forall (λ b, Healthy b = true) (backends p) →
  let r := Flush p ctx w in
  let m := opWrite (NewMultiBackend (backends p)) ctx (buffer p) in
  backends r.1.1 = MultiBackend.backends m.1 ∧ r.1.2 = m.2.
Proof.
  intros Hn Hne Hh r m. subst r m.
  rewrite (Flush_nonempty p ctx w Hne). cbv zeta. cbn [fst snd backends setBackends].
  cbn [opWrite MultiBackend_ops]. unfold MultiBackend.Write, NewMultiBackend.
  cbn [MultiBackend.backends].
  rewrite (surjective_pairing (flushBackends _ _ _ _ _ _ _).1).
  rewrite (flushBackends_single_attempt (setBuffer p []) ctx (buffer p) (backends p) Hn Hh).
  by destruct (MultiBackend.writeEach _ _ _ _).
Qed.

(** A working mock before one that is down. *)
Lemma Flush_single_attempt_as_MultiBackend_witness :
  let p := NewPipeline (PipelineConfig.mk 10 Second 1 Second None) in
  let p := (Push (fold_left AddBackend [upMock; downMock] p) cpu initialWorld).1 in
  (Flush p Background initialWorld).1.2 = Some (Errorf "unreachable").
Proof.
  destruct (Flush_single_attempt_as_MultiBackend
              (Push (fold_left AddBackend [upMock; downMock]
                       (NewPipeline (PipelineConfig.mk 10 Second 1 Second None)))
                    cpu initialWorld).1
              Background initialWorld)
    as (_ & H).
  - vm_compute. reflexivity.
  - vm_compute. discriminate.
  - vm_compute. repeat constructor.
  - cbv zeta. rewrite H. vm_compute. reflexivity.
Defined.

(** *** Poll statistics beyond the range of int64 *)

Lemma wrap64_range z : MinInt64 ≤ wrap64 z ≤ MaxInt64.
Proof.
  unfold wrap64, MinInt64, MaxInt64.
  pose proof (Z.mod_pos_bound (z + 2 ^ 63) (2 ^ 64) ltac:(lia)). lia.
Qed.

Lemma wrap64_succ z : wrap64 (wrap64 z + 1) = wrap64 (z + 1).
Proof.
  unfold wrap64. f_equal.
  replace ((z + 2 ^ 63) mod 2 ^ 64 - 2 ^ 63 + 1 + 2 ^ 63)
    with ((z + 2 ^ 63) mod 2 ^ 64 + 1) by lia.
  rewrite Zplus_mod_idemp_l. f_equal. lia.
Qed.

Lemma recordAll_wraps calls :
  let s := recordAll calls zeroStats in
  TotalPolls s = wrap64 (Z.of_nat (length calls)) ∧
  (SuccessfulPolls s + FailedPolls s - TotalPolls s) mod 2 ^ 64 = 0 ∧
  inInt64 s.
Proof.
  induction calls as [|c calls IH] using rev_ind.
  - simpl. split; [reflexivity|]. split; [reflexivity|].
    unfold inInt64, MinInt64, MaxInt64. simpl. lia.
  - rewrite recordAll_snoc. destruct IH as (Ht & Hm & Hr1 & Hr2 & Hr3 & Hr4).
    split; [|split].
    + unfold record, recordPoll.
      destruct (success c); simpl; rewrite Ht, wrap64_succ, length_app; simpl;
        f_equal; lia.
    + apply recordPoll_sum_mod. exact Hm.
    + unfold inInt64, record, recordPoll.
      destruct (success c); simpl;
        repeat split; try apply wrap64_range; lia.
Qed.

(** X26.  Whatever sequence of polls the tracker has recorded from its
    zero value, with any counts and beyond the range of [int64]: the total
    is the number of polls reduced to [int64], successful + failed = total
    holds modulo 2^64, all four counters are values of [int64], the
    snapshot's last duration is that of the last poll, and a failed poll
    leaves the metric total alone. *)
Theorem recordAll_consistent_modulo (calls : list PollCall) (c : PollCall) :
  let s := recordAll (calls ++ [c]) zeroStats in
  TotalPolls s = wrap64 (Z.of_nat (length calls) + 1) ∧
  (SuccessfulPolls s + FailedPolls s - TotalPolls s) mod 2 ^ 64 = 0 ∧
  inInt64 s ∧
  LastDuration (snapshot s) = duration c ∧
  (success c = false →
   TotalMetrics s = TotalMetrics (recordAll calls zeroStats)).
Proof.
  intros s.
  destruct (recordAll_wraps (calls ++ [c])) as (Ht & Hm & Hr).
  fold s in Ht, Hm, Hr.
  split; [rewrite Ht, length_app; simpl; f_equal; lia|].
  split; [exact Hm|]. split; [exact Hr|].
  subst s. rewrite recordAll_snoc. unfold record, recordPoll, snapshot.
  split; [by destruct (success c)|]. by intros ->.
Qed.

(** *** Where [New] takes the configuration from *)

Section Construction.

Variable ToLower : string → string.
Variable ReadFile : string → string * error.
Variable Unmarshal : string → Config → Config * error.

Lemma New_unfold name collector opts :
  let m0 := applyOptions opts (emptyMonitor name collector) in
  New ToLower ReadFile Unmarshal name collector opts =
  match Monitor.cfg m0 with
  | Some _ => (Some (withLogger ToLower m0), None)
  | None =>
      if decide (Monitor.cfgPath m0 = "") then
        (Some (withLogger ToLower (Monitor.setCfg m0 (Some DefaultConfig))), None)
      else
        match LoadConfig ToLower ReadFile Unmarshal (Monitor.cfgPath m0) with
        | (_, Some err) => (None, Some (Wrapf "loading config" err))
        | (Some c, None) => (Some (withLogger ToLower (Monitor.setCfg m0 (Some c))), None)
        | (None, None) =>
            (Some (withLogger ToLower (Monitor.setCfg m0 (Some DefaultConfig))), None)
        end
  end.
Proof.
  intros m0. unfold New. fold (emptyMonitor name collector).
  fold (applyOptions opts (emptyMonitor name collector)). fold m0.
  clearbody m0. unfold withLogger, NewLogger.
  destruct (Monitor.cfg m0) as [c0|] eqn:Hc0.
  - cbv beta iota zeta. rewrite ?Hc0.
    destruct (Monitor.logger m0); reflexivity.
  - destruct (decide (Monitor.cfgPath m0 = "")) as [Hp|Hp].
    + cbv beta iota zeta. rewrite ?Hc0. mcbn.
      destruct (Monitor.logger m0); reflexivity.
    + destruct (LoadConfig ToLower ReadFile Unmarshal (Monitor.cfgPath m0))
        as [[c|] [e|]]; try reflexivity; cbv beta iota zeta; mcbn;
        destruct (Monitor.logger m0); reflexivity.
Qed.

End Construction.

(** X27.  [New], after its options: a configuration given directly is
    the monitor's, and no file is read; else, without a path, the defaults
    are; else the file's configuration is, well-formed, or [New] returns
    the load error wrapped and no monitor.  A monitor returned comes with
    a nil error and with the logger given, the level variable untouched, or
    with the logger [NewLogger] builds and the level of the configuration;
    backends, run-once, echo mode and (absent) pipeline are as the options
    left them. *)
Theorem New_config_precedence (ToLower : string → string)
    (ReadFile : string → string * error)
    (Unmarshal : string → Config → Config * error)
    (name : string) (collector : Collector) (opts : list Option) :
  let m0 := applyOptions opts (emptyMonitor name collector) in
  let r := New ToLower ReadFile Unmarshal name collector opts in
  (∀ c, Monitor.cfg m0 = Some c →
        ∃ m, r = (Some m, None) ∧ Monitor.cfg m = Some c ∧
             ∀ ReadFile' Unmarshal',
               New ToLower ReadFile' Unmarshal' name collector opts = r) ∧
  (Monitor.cfg m0 = None → Monitor.cfgPath m0 = "" →
   ∃ m, r = (Some m, None) ∧ Monitor.cfg m = Some DefaultConfig) ∧
  (Monitor.cfg m0 = None → Monitor.cfgPath m0 ≠ "" →
   (∀ e, (LoadConfig ToLower ReadFile Unmarshal (Monitor.cfgPath m0)).2 = Some e →
         r = (None, Some (Wrapf "loading config" e))) ∧
   (∀ c, LoadConfig ToLower ReadFile Unmarshal (Monitor.cfgPath m0) = (Some c, None) →
         ∃ m, r = (Some m, None) ∧ Monitor.cfg m = Some c ∧ wellFormed ToLower c)) ∧
  (∀ m, r.1 = Some m →
        r.2 = None ∧
        (∀ l, Monitor.logger m0 = Some l →
              Monitor.logger m = Some l ∧ Monitor.levelVar m = Monitor.levelVar m0) ∧
        (Monitor.logger m0 = None →
         Monitor.logger m = Some StderrTextLogger ∧
         ∃ c, Monitor.cfg m = Some c ∧
              Monitor.levelVar m
              = Some (ParseLogLevel ToLower (GlobalConfig.LogLevel (Global c)))) ∧
        Monitor.backends m = Monitor.backends m0 ∧
        Monitor.runOnce m = Monitor.runOnce m0 ∧
        Monitor.echoMode m = Monitor.echoMode m0 ∧
        Monitor.pipeline m = Monitor.pipeline m0).
Proof.
  intros m0 r.
  assert (HL : ∀ m1 c, Monitor.cfg m1 = Some c →
            Monitor.cfg (withLogger ToLower m1) = Some c ∧
            (∀ l, Monitor.logger m1 = Some l →
                  Monitor.logger (withLogger ToLower m1) = Some l ∧
                  Monitor.levelVar (withLogger ToLower m1) = Monitor.levelVar m1) ∧
            (Monitor.logger m1 = None →
             Monitor.logger (withLogger ToLower m1) = Some StderrTextLogger ∧
             Monitor.levelVar (withLogger ToLower m1)
             = Some (ParseLogLevel ToLower (GlobalConfig.LogLevel (Global c)))) ∧
            Monitor.backends (withLogger ToLower m1) = Monitor.backends m1 ∧
            Monitor.runOnce (withLogger ToLower m1) = Monitor.runOnce m1 ∧
            Monitor.echoMode (withLogger ToLower m1) = Monitor.echoMode m1 ∧
            Monitor.pipeline (withLogger ToLower m1) = Monitor.pipeline m1).
  { intros m1 c Hc. unfold withLogger. rewrite Hc.
    destruct (Monitor.logger m1) as [l|] eqn:Hl.
    - split; [exact Hc|]. split; [intros l' Hl'; by rewrite <- Hl'|].
      split; [done|]. done.
    - mcbn. split; [exact Hc|]. split; [done|]. split; [done|]. done. }
  pose proof (New_unfold ToLower ReadFile Unmarshal name collector opts) as HN.
  cbv zeta in HN. fold m0 in HN. fold r in HN.
  pose proof (LoadConfig_cases ToLower ReadFile Unmarshal (Monitor.cfgPath m0)) as HC.
  cbv zeta in HC.
  split; [|split; [|split]].
  - intros c Hc. rewrite Hc in HN. eexists. split; [exact HN|].
    split; [by apply HL|].
    intros ReadFile' Unmarshal'.
    pose proof (New_unfold ToLower ReadFile' Unmarshal' name collector opts) as HN'.
    cbv zeta in HN'. fold m0 in HN'. rewrite Hc in HN'. by rewrite HN, HN'.
  - intros Hc Hp. rewrite Hc in HN.
    destruct (decide (Monitor.cfgPath m0 = "")); [|done].
    eexists. split; [exact HN|]. by apply HL.
  - intros Hc Hp. rewrite Hc in HN.
    destruct (decide (Monitor.cfgPath m0 = "")); [done|].
    split.
    + intros e He.
      destruct (LoadConfig ToLower ReadFile Unmarshal (Monitor.cfgPath m0))
        as [oc [e'|]]; simpl in He; [|discriminate].
      injection He as ->. by destruct oc.
    + intros c Hl.
      destruct HC as [(c' & Hr & _ & _ & Hwf)|(msg & cause & Hr)];
        rewrite Hr in Hl; [|discriminate].
      injection Hl as ->. rewrite Hr in HN.
      eexists. split; [exact HN|]. split; [by apply HL | exact Hwf].
  - intros m Hm. rewrite HN in Hm |- *.
    destruct (Monitor.cfg m0) as [c0|] eqn:Hc0.
    + simpl in Hm. injection Hm as <-.
      destruct (HL m0 c0 Hc0) as (H1 & H2 & H3 & H4 & H5 & H6 & H7).
      split; [reflexivity|]. split; [exact H2|].
      split; [intros Hl; destruct (H3 Hl); eauto|]. done.
    + destruct (decide (Monitor.cfgPath m0 = "")) as [Hp|Hp].
      * simpl in Hm. injection Hm as <-.
        destruct (HL (Monitor.setCfg m0 (Some DefaultConfig)) DefaultConfig eq_refl)
          as (H1 & H2 & H3 & H4 & H5 & H6 & H7).
        split; [reflexivity|]. split; [exact H2|].
        split; [intros Hl; destruct (H3 Hl); eauto|]. done.
      * destruct HC as [(c' & Hr & _)|(msg & cause & Hr)]; rewrite Hr in Hm |- *;
          simpl in Hm; [|discriminate].
        injection Hm as <-.
        destruct (HL (Monitor.setCfg m0 (Some c')) c' eq_refl)
          as (H1 & H2 & H3 & H4 & H5 & H6 & H7).
        split; [reflexivity|]. split; [exact H2|].
        split; [intros Hl; destruct (H3 Hl); eauto|]. done.
Qed.
